(** * memubot-relay: a shallow embedding of the Gemini and OpenAI relays

    The development follows the two Go programs of the repository:
    the Gemini relay (build tag [gemini]) and the OpenAI-compatible relay
    (build tag [openai]).  Go strings are byte strings and are modelled by
    [string]; [float64] quantities of the token bucket are modelled by exact
    rationals [Q]; instants and durations are integers counting nanoseconds.
    The Go standard library (encoding/json, crypto/sha256, regexp) is an
    interface here: the programs are written against the classes
    [EncodingJson] and [Hashing], and a small concrete JSON codec is given
    for running the programs on concrete requests.  Strings are decoded
    into runes where Go does ([strings.TrimSpace], a [range] loop over a
    string).  The network is a record [Upstream] of each relay: the answers
    to the outbound calls, their duration and whether [http.NewRequest]
    builds the request, whose error both handlers drop. *)

From Stdlib Require Import ZArith NArith QArith Qminmax Qround Lia Lqa Bool Ascii String List.
From Stdlib Require Import HexadecimalString.
From stdpp Require Import base option list gmap strings pretty.
Import ListNotations.

Local Open Scope string_scope.
Local Open Scope list_scope.
Local Set Warnings "-register-all".

(** ** Runes: packages [unicode/utf8] and [unicode] of Go

    A rune is a code point, a number.  [DecodeRune] is
    [utf8.DecodeRuneInString]: the rune that begins a byte sequence and its
    width; a byte that begins no valid encoding is the rune [RuneError] of
    width 1.  A [range] loop over a string decodes the same way. *)
Module Utf8.

Definition RuneError : N := 65533.
Definition RuneSelf : N := 128.
Definition MaxRune : N := 1114111.
Definition UTFMax : nat := 4.

Definition byte (c : ascii) : N := N_of_ascii c.
Definition chr (n : N) : ascii := ascii_of_N n.

(** The byte at index [i]. *)
Definition at_ (l : list ascii) (i : nat) : N := byte (nth i l zero).

(** The table [first]: what a leading byte announces.  [Seq size lo hi] is
    a sequence of [size] bytes whose second byte lies in [lo..hi]. *)
Inductive Lead :=
  | Single
  | Invalid
  | Seq (size : nat) (lo hi : N).

Definition first (s0 : N) : Lead :=
  if (s0 <? 128)%N then Single
  else if (s0 <? 194)%N then Invalid
  else if (s0 <? 224)%N then Seq 2 128 191
  else if (s0 =? 224)%N then Seq 3 160 191
  else if (s0 <? 237)%N then Seq 3 128 191
  else if (s0 =? 237)%N then Seq 3 128 159
  else if (s0 <? 240)%N then Seq 3 128 191
  else if (s0 =? 240)%N then Seq 4 144 191
  else if (s0 <? 244)%N then Seq 4 128 191
  else if (s0 =? 244)%N then Seq 4 128 143
  else Invalid.

Definition outside (lo hi b : N) : bool := (b <? lo)%N || (hi <? b)%N.

Definition DecodeRune (l : list ascii) : N * nat :=
  match l with
  | [] => (RuneError, 0%nat)
  | _ :: _ =>
      let s0 := at_ l 0 in
      match first s0 with
      | Single => (s0, 1%nat)
      | Invalid => (RuneError, 1%nat)
      | Seq sz lo hi =>
          if (length (firstn sz l) <? sz)%nat then (RuneError, 1%nat)
          else
            let s1 := at_ l 1 in
            if outside lo hi s1 then (RuneError, 1%nat)
            else if (sz <=? 2)%nat then
              (N.lor (N.shiftl (N.land s0 31) 6) (N.land s1 63), 2%nat)
            else
              let s2 := at_ l 2 in
              if outside 128 191 s2 then (RuneError, 1%nat)
              else if (sz <=? 3)%nat then
                (N.lor (N.lor (N.shiftl (N.land s0 15) 12) (N.shiftl (N.land s1 63) 6))
                   (N.land s2 63), 3%nat)
              else
                let s3 := at_ l 3 in
                if outside 128 191 s3 then (RuneError, 1%nat)
                else
                  (N.lor (N.lor (N.lor (N.shiftl (N.land s0 7) 18)
                                   (N.shiftl (N.land s1 63) 12))
                            (N.shiftl (N.land s2 63) 6))
                     (N.land s3 63), 4%nat)
      end
  end.

(** [utf8.RuneStart]: the byte is no continuation byte. *)
Definition RuneStart (b : N) : bool := negb (N.land b 192 =? 128)%N.

(** The search of [DecodeLastRuneInString] for the byte that begins the
    last rune: from [start] down to [lim]. *)
Fixpoint lastStart (l : list ascii) (steps : nat) (start lim : Z) : Z :=
  match steps with
  | O => start
  | S steps' =>
      if (start <? lim)%Z then start
      else if RuneStart (at_ l (Z.to_nat start)) then start
      else lastStart l steps' (start - 1)%Z lim
  end.

(** [utf8.DecodeLastRuneInString]. *)
Definition DecodeLastRune (l : list ascii) : N * nat :=
  let end_ := Z.of_nat (length l) in
  if (end_ =? 0)%Z then (RuneError, 0%nat)
  else
    let r := at_ l (Z.to_nat (end_ - 1)) in
    if (r <? RuneSelf)%N then (r, 1%nat)
    else
      let lim := Z.max 0 (end_ - Z.of_nat UTFMax) in
      let start := Z.max 0 (lastStart l UTFMax (end_ - 2) lim) in
      let '(r, size) := DecodeRune (skipn (Z.to_nat start) l) in
      if (start + Z.of_nat size =? end_)%Z then (r, size) else (RuneError, 1%nat).

(** [utf8.AppendRune]: the bytes that [WriteRune] writes. *)
Definition EncodeRune (r : N) : list ascii :=
  let cont (x : N) := chr (N.lor 128 (N.land x 63)) in
  if (r <=? 127)%N then [chr r]
  else if (r <=? 2047)%N then [chr (N.lor 192 (N.shiftr r 6)); cont r]
  else
    let r := if (MaxRune <? r)%N || ((55296 <=? r)%N && (r <=? 57343)%N)
             then RuneError else r in
    if (r <=? 65535)%N then
      [chr (N.lor 224 (N.shiftr r 12)); cont (N.shiftr r 6); cont r]
    else
      [chr (N.lor 240 (N.shiftr r 18)); cont (N.shiftr r 12); cont (N.shiftr r 6); cont r].

(** [unicode.IsSpace]. *)
Definition IsSpace (r : N) : bool :=
  if (r <=? 255)%N then
    ((9 <=? r)%N && (r <=? 13)%N) || (r =? 32)%N || (r =? 133)%N || (r =? 160)%N
  else
    (r =? 5760)%N || ((8192 <=? r)%N && (r <=? 8202)%N) || (r =? 8232)%N || (r =? 8233)%N
    || (r =? 8239)%N || (r =? 8287)%N || (r =? 12288)%N.

End Utf8.

(** ** Byte-string helpers: package [strings] of Go

    Indices count bytes.  [TrimSpace] removes the white space of Unicode, as
    Go does, rune by rune; [TrimRight] and [Trim] are given for a cutset of
    ASCII characters, which is how the programs call them. *)
Module GoStrings.

Definition bytes (s : string) : list ascii := list_ascii_of_string s.
Definition str (l : list ascii) : string := string_of_list_ascii l.

Definition HasPrefix (s p : string) : bool := String.prefix p s.

Definition slice (s : string) (lo hi : nat) : string :=
  String.substring lo (hi - lo) s.

Definition sliceFrom (s : string) (lo : nat) : string :=
  String.substring lo (String.length s - lo) s.

Definition TrimPrefix (s p : string) : string :=
  if HasPrefix s p then sliceFrom s (String.length p) else s.

(** [Index] and [LastIndex] return [None] where Go returns -1. *)
Fixpoint indexFrom (i : nat) (s sub : string) : option nat :=
  if String.prefix sub s then Some i
  else match s with
       | EmptyString => None
       | String _ t => indexFrom (S i) t sub
       end.

Definition Index (s sub : string) : option nat := indexFrom 0 s sub.

Fixpoint lastIndexFrom (i : nat) (s sub : string) (found : option nat) : option nat :=
  let found' := if String.prefix sub s then Some i else found in
  match s with
  | EmptyString => found'
  | String _ t => lastIndexFrom (S i) t sub found'
  end.

Definition LastIndex (s sub : string) : option nat := lastIndexFrom 0 s sub None.

Definition Contains (s sub : string) : bool :=
  match Index s sub with Some _ => true | None => false end.

Fixpoint dropWhile (p : ascii -> bool) (l : list ascii) : list ascii :=
  match l with
  | c :: t => if p c then dropWhile p t else l
  | [] => []
  end.

Definition trimLeftBy (p : ascii -> bool) (l : list ascii) : list ascii := dropWhile p l.
Definition trimRightBy (p : ascii -> bool) (l : list ascii) : list ascii :=
  rev (dropWhile p (rev l)).

Definition inCutset (cutset : string) (c : ascii) : bool :=
  existsb (Ascii.eqb c) (bytes cutset).

(** [indexFunc]: the index of the first rune [r] of the string with
    [f r = truth]; [None] is -1.  [skip] counts the bytes of the current rune
    that are still to pass. *)
Fixpoint indexFunc (l : list ascii) (skip i : nat) (f : N -> bool) (truth : bool)
    : option nat :=
  match l with
  | [] => None
  | _ :: t =>
      match skip with
      | S skip' => indexFunc t skip' (S i) f truth
      | O =>
          let '(r, size) := Utf8.DecodeRune l in
          if Bool.eqb (f r) truth then Some i
          else indexFunc t (size - 1) (S i) f truth
      end
  end.

(** [lastIndexFunc], from the end: [i] is the length of what is left. *)
Fixpoint lastIndexFunc (fuel : nat) (l : list ascii) (i : nat) (f : N -> bool)
    (truth : bool) : option nat :=
  match fuel with
  | O => None
  | S fuel' =>
      if (i =? 0)%nat then None
      else
        let '(r, size) := Utf8.DecodeLastRune (firstn i l) in
        let i := (i - size)%nat in
        if Bool.eqb (f r) truth then Some i else lastIndexFunc fuel' l i f truth
  end.

Definition TrimLeftFunc (l : list ascii) (f : N -> bool) : list ascii :=
  match indexFunc l 0 0 f false with
  | None => []
  | Some i => skipn i l
  end.

Definition TrimRightFunc (l : list ascii) (f : N -> bool) : list ascii :=
  let i :=
    match lastIndexFunc (length l) l (length l) f false with
    | Some i =>
        if (Utf8.RuneSelf <=? Utf8.at_ l i)%N
        then (i + snd (Utf8.DecodeRune (skipn i l)))%nat
        else S i
    | None => 0%nat
    end in
  firstn i l.

Definition TrimSpace (s : string) : string :=
  str (TrimRightFunc (TrimLeftFunc (bytes s) Utf8.IsSpace) Utf8.IsSpace).

Definition TrimRight (s cutset : string) : string :=
  str (trimRightBy (inCutset cutset) (bytes s)).

Definition Trim (s cutset : string) : string :=
  str (trimRightBy (inCutset cutset) (trimLeftBy (inCutset cutset) (bytes s))).

(** [ReplaceAll s old new]: non-overlapping occurrences, left to right.  With
    an empty [old], Go inserts [new] before every rune and at the end. *)
Fixpoint replaceLoop (fuel : nat) (s old new : string) : string :=
  match fuel with
  | O => s
  | S fuel' =>
      if String.prefix old s
      then new +:+ replaceLoop fuel' (sliceFrom s (String.length old)) old new
      else match s with
           | EmptyString => EmptyString
           | String c t => String c (replaceLoop fuel' t old new)
           end
  end.

Fixpoint intersperseAll (l : list ascii) (skip : nat) (new : string) : string :=
  match l with
  | [] => new
  | c :: t =>
      match skip with
      | S skip' => String c (intersperseAll t skip' new)
      | O => new +:+ String c (intersperseAll t (snd (Utf8.DecodeRune l) - 1) new)
      end
  end.

Definition ReplaceAll (s old new : string) : string :=
  match old with
  | EmptyString => intersperseAll (bytes s) 0 new
  | _ => replaceLoop (S (String.length s)) s old new
  end.

Fixpoint Join (elems : list string) (sep : string) : string :=
  match elems with
  | [] => ""
  | [e] => e
  | e :: rest => e +:+ sep +:+ Join rest sep
  end.

End GoStrings.

(** ** JSON values: what [encoding/json] stores in an [any]

    Numbers keep their literal (Go stores a [float64]); an object keeps its
    members in source order (Go stores an unordered map). *)
Inductive json : Type :=
  | JNull
  | JBool (b : bool)
  | JNum (lit : string)
  | JStr (s : string)
  | JArr (elems : list json)
  | JObj (members : list (string * json)).

(** A Go [map[string]any]: [None] is the nil map. *)
Definition JMap : Type := option (list (string * json)).

Definition emptyMap : JMap := Some [].

(** [json.RawMessage]: the bytes of one JSON value; a missing field is the
    empty byte string. *)
Definition RawMessage : Type := string.

(** ** The client-facing request: structs shared by both programs *)

Record ContentBlock := {
  Blk_Type : string;
  Blk_Text : string;
  Blk_ID : string;
  Blk_Name : string;
  Blk_Input : RawMessage;
  Blk_Signature : string;
  Blk_ToolUseId : string;
  Blk_Content : RawMessage;
  Blk_IsError : bool
}.

Record ToolCall := {
  Call_ID : string;
  Call_Type : string;
  Call_FunctionName : string;
  Call_FunctionArguments : string
}.

Record GenericMessage := {
  Msg_Role : string;
  Msg_Content : RawMessage;
  Msg_ToolCalls : list ToolCall;
  Msg_ToolCallID : string;
  Msg_Name : string
}.

Record GenericTool := {
  Tool_Type : string;
  Tool_FunctionName : string;
  Tool_FunctionDescription : string;
  Tool_FunctionParameters : RawMessage;
  Tool_Name : string;
  Tool_Description : string;
  Tool_InputSchema : RawMessage
}.

Record GenericRequest := {
  Req_Model : string;
  Req_System : string;
  Req_Messages : list GenericMessage;
  Req_Tools : list GenericTool
}.

(** ** The Gemini wire model *)

Record geminiFunctionCall := { FC_Name : string; FC_Args : JMap }.

Record geminiFunctionResponse := { FR_Name : string; FR_Response : JMap }.

Record GooglePart := {
  Text : string;
  FunctionCall : option geminiFunctionCall;
  FunctionResponse : option geminiFunctionResponse;
  Thought : bool;
  ThoughtSignature : string
}.

Record GoogleContent := { Role : string; Parts : list GooglePart }.

Record geminiFunctionDeclaration := {
  FD_Name : string;
  FD_Description : string;
  FD_Parameters : RawMessage
}.

Record geminiTool := { FunctionDeclarations : list geminiFunctionDeclaration }.

Record GenerationConfig := { MaxOutputTokens : Z }.

Record GoogleRequest := {
  Contents : list GoogleContent;
  Tools : list geminiTool;
  SystemInstruction : option GoogleContent;
  CachedContent : string;
  GenerationConfig_ : option GenerationConfig
}.

Record Candidate := {
  Cand_Parts : list GooglePart;
  FinishReason : string;
  FinishMessage : string
}.

Record GoogleResponse := {
  Candidates : list Candidate;
  PromptTokenCount : Z;
  CandidatesTokenCount : Z;
  TotalTokenCount : Z
}.

Record CreateCacheRequest := {
  CCR_Model : string;
  CCR_SystemInstruction : option GoogleContent;
  CCR_Tools : list geminiTool;
  CCR_Contents : list GoogleContent;
  CCR_TTL : string
}.

(** ** The OpenAI wire model *)

Record OpenAIToolCall := {
  OTC_ID : string;
  OTC_Type : string;
  OTC_FunctionName : string;
  OTC_FunctionArguments : string
}.

(** [Content] is an [interface{}]: [None] is nil (omitted on the wire). *)
Record OpenAIMessage := {
  OM_Role : string;
  OM_Content : option string;
  OM_ToolCalls : list OpenAIToolCall;
  OM_ToolCallID : string;
  OM_Name : string
}.

Record OpenAIToolDef := {
  OTD_Type : string;
  OTD_FunctionName : string;
  OTD_FunctionDescription : string;
  OTD_FunctionParameters : RawMessage
}.

Record OpenAIRequest := {
  OReq_Model : string;
  OReq_Messages : list OpenAIMessage;
  OReq_Tools : list OpenAIToolDef
}.

Record Choice := {
  Ch_Content : option string;
  Ch_ReasoningContent : option string;
  Ch_ToolCalls : list OpenAIToolCall
}.

Record OpenAIResponse := {
  Choices : list Choice;
  PromptTokens : Z;
  CompletionTokens : Z;
  TotalTokens : Z
}.

(** ** The client-facing reply *)

(** A block of the [content] array of the reply.  A [signature] key is
    present only when the option is [Some]. *)
Inductive OutBlock :=
  | ThinkingBlock (thinking : string) (signature : option string)
  | TextBlock (text : string)
  | ToolUseBlock (id name : string) (input : JMap) (signature : option string)
  | ToolUseRawBlock (id name : string) (input : RawMessage).

Record MessageResponse := {
  Res_id : string;
  Res_model : string;
  Res_content : list OutBlock;
  Res_stop_reason : string;
  Res_input_tokens : Z;
  Res_output_tokens : Z
}.

(** What the client gets: [http.Error], the upstream status and body
    forwarded verbatim, the encoded message (status 200), a status 200 with
    no body where [Encode] fails (its error is dropped, and nothing was
    written before), or no response at all where the handler panics ([net/http]
    recovers the panic and closes the connection). *)
Inductive Reply :=
  | HttpError (msg : string) (status : Z)
  | Forwarded (status : Z) (body : string)
  | Encoded (res : MessageResponse)
  | NoBody
  | Aborted.

(** The status line of a reply; none after a panic. *)
Definition replyStatus (r : Reply) : option Z :=
  match r with
  | HttpError _ status => Some status
  | Forwarded status _ => Some status
  | Encoded _ => Some 200%Z
  | NoBody => Some 200%Z
  | Aborted => None
  end.

(** What an outbound HTTP call returns: a transport error, or a status code
    and a body. *)
Inductive HttpResult :=
  | TransportError (err : string)
  | HttpResponse (status : Z) (body : string).

(** ** The Go standard library, as an interface

    [Unmarshal_*] return [None] where [json.Unmarshal] returns an error; the
    programs never read a target after an error.  [Decode_CreateCacheName] is
    the [Name] left in the target by [Decoder.Decode], whose error the
    program ignores.  [Valid] is [json.Valid]: a [json.RawMessage] that is
    not valid makes [Marshal] and [Encode] fail. *)
Class EncodingJson := {
  Valid : string -> bool;
  Unmarshal_GenericRequest : string -> option GenericRequest;
  Unmarshal_ContentBlocks : RawMessage -> option (list ContentBlock);
  Unmarshal_string : RawMessage -> option string;
  Unmarshal_map : string -> option JMap;
  Unmarshal_GoogleResponse : string -> option GoogleResponse;
  Unmarshal_OpenAIResponse : string -> option OpenAIResponse;
  Decode_CreateCacheName : string -> string;
  Marshal_Contents : list GoogleContent -> string;
  Marshal_Tools : list geminiTool -> string
}.

(** [sha256_hex] is [hex.EncodeToString] of the SHA-256 sum;
    [ReplaceAllString pattern src repl] is [regexp.MustCompile(pattern)
    .ReplaceAllString(src, repl)]. *)
Class Hashing := {
  sha256_hex : string -> string;
  ReplaceAllString : string -> string -> string -> string
}.

(** One second, in nanoseconds. *)
Definition Second : Z := 1000000000.
Definition Millisecond : Z := 1000000.
Definition Minute : Z := 60 * Second.

(** ** Helpers that both programs define, with the same text *)

Definition newline : string := String (ascii_of_nat 10) "".

Definition strEmpty (s : string) : bool := String.eqb s "".

(** A Go map read: the zero value when the key is absent. *)
Definition mapGet (m : gmap string string) (k : string) : string := default "" (m !! k).

Section Helpers.
Context {json_lib : EncodingJson}.

Definition isTextBlock (b : ContentBlock) : bool := String.eqb (Blk_Type b) "text".

Definition extractText (raw : RawMessage) : string :=
  match Unmarshal_string raw with
  | Some s => s
  | None =>
      match Unmarshal_ContentBlocks raw with
      | Some blocks =>
          GoStrings.Join (map Blk_Text (List.filter isTextBlock blocks)) newline
      | None => raw
      end
  end.

(** The characters that [fixJSON] tests a rune for. *)
Definition keyRune (r : N) : bool :=
  ((97 <=? r)%N && (r <=? 122)%N) || ((65 <=? r)%N && (r <=? 90)%N)
  || ((48 <=? r)%N && (r <=? 57)%N) || (r =? 95)%N.

Definition quoteRune (r : N) : bool := (r =? 34)%N.
Definition colonRune (r : N) : bool := (r =? 58)%N.
Definition blankRune (r : N) : bool := (r =? 32)%N || (r =? 9)%N || (r =? 10)%N.

(** The same tests on a byte. *)
Definition isKeyChar (r : ascii) : bool :=
  let n := nat_of_ascii r in
  ((97 <=? n)%nat && (n <=? 122)%nat) || ((65 <=? n)%nat && (n <=? 90)%nat)
  || ((48 <=? n)%nat && (n <=? 57)%nat) || (n =? 95)%nat.

Definition isQuote (r : ascii) : bool := (nat_of_ascii r =? 34)%nat.
Definition isBackslash (r : ascii) : bool := (nat_of_ascii r =? 92)%nat.
Definition isColon (r : ascii) : bool := (nat_of_ascii r =? 58)%nat.
Definition isBlank (r : ascii) : bool :=
  let n := nat_of_ascii r in (n =? 32)%nat || (n =? 9)%nat || (n =? 10)%nat.

Definition quote : string := String (ascii_of_nat 34) "".

(** The loop of [fixJSON], [for i, r := range s]: [rest] is [s[i:]], [skip]
    counts the bytes of the current rune that are still to pass, [prev] is
    the byte [s[i-1]], [keyStart] is [None] where Go holds -1 and [res] is
    the builder.  [WriteRune] writes the encoding of the rune, which for a
    byte that is no valid UTF-8 is the encoding of [RuneError]. *)
Fixpoint fixJSON_loop (s : string) (rest : list ascii) (skip i : nat) (prev : option ascii)
    (keyStart : option nat) (inStr : bool) (res : string) : string :=
  match rest with
  | [] =>
      match keyStart with
      | Some k => res +:+ GoStrings.sliceFrom s k
      | None => res
      end
  | b :: rest' =>
      match skip with
      | S skip' => fixJSON_loop s rest' skip' (S i) (Some b) keyStart inStr res
      | O =>
          let '(r, size) := Utf8.DecodeRune rest in
          let written := GoStrings.str (Utf8.EncodeRune r) in
          let escaped := match prev with Some p => isBackslash p | None => false end in
          let inStr :=
            if quoteRune r && ((i =? 0)%nat || negb escaped) then negb inStr else inStr in
          let '(keyStart, res) :=
            if negb inStr then
              if keyRune r then
                (match keyStart with None => Some i | Some k => Some k end, res)
              else
                let '(keyStart, res) :=
                  match keyStart with
                  | Some k =>
                      if colonRune r then
                        (None, res +:+ quote +:+ GoStrings.slice s k i +:+ quote)
                      else if blankRune r then (Some k, res)
                      else (None, res +:+ GoStrings.slice s k i)
                  | None => (None, res)
                  end in
                (keyStart, res +:+ written)
            else
              let res :=
                match keyStart with
                | Some k => res +:+ GoStrings.slice s k i
                | None => res
                end in
              (None, res +:+ written) in
          fixJSON_loop s rest' (size - 1) (S i) (Some b) keyStart inStr res
      end
  end.

Definition fixJSON (s : string) : string :=
  fixJSON_loop s (GoStrings.bytes s) 0 0 None None false "".

(** [parseMalformedFunctionCall]: the pair [("", None)] is Go's [("", nil)]. *)
Definition parseMalformedFunctionCall (msg : string) : string * JMap :=
  let msg := GoStrings.TrimPrefix msg "Malformed function call: " in
  let msg := GoStrings.TrimSpace msg in
  if negb (GoStrings.HasPrefix msg "call:") then ("", None)
  else
    match GoStrings.Index msg "{", GoStrings.LastIndex msg "}" with
    | Some startBrace, Some endBrace =>
        if (endBrace <? startBrace)%nat then ("", None)
        else
          let namePart := GoStrings.slice msg 5 startBrace in
          let namePart := GoStrings.TrimRight namePart " (" in
          let name := GoStrings.Trim namePart ": " in
          let name := GoStrings.ReplaceAll name ":" "_" in
          let argsRaw := GoStrings.slice msg startBrace (endBrace + 1) in
          match Unmarshal_map argsRaw with
          | Some args => (name, args)
          | None =>
              let fixedArgs := fixJSON argsRaw in
              match Unmarshal_map fixedArgs with
              | Some args => (name, args)
              | None => ("", None)
              end
          end
    | _, _ => ("", None)
    end.

(** The map from a tool-use id to its function name, built from the assistant
    messages before the translation. *)
Definition recordBlock (m : gmap string string) (block : ContentBlock) : gmap string string :=
  if String.eqb (Blk_Type block) "tool_use" && negb (strEmpty (Blk_ID block))
     && negb (strEmpty (Blk_Name block))
  then <[ Blk_ID block := Blk_Name block ]> m else m.

Definition recordCall (m : gmap string string) (tc : ToolCall) : gmap string string :=
  if negb (strEmpty (Call_ID tc)) && negb (strEmpty (Call_FunctionName tc))
  then <[ Call_ID tc := Call_FunctionName tc ]> m else m.

Definition recordMessage (m : gmap string string) (msg : GenericMessage) : gmap string string :=
  if String.eqb (Msg_Role msg) "assistant" then
    let m1 := match Unmarshal_ContentBlocks (Msg_Content msg) with
              | Some contentBlocks => fold_left recordBlock contentBlocks m
              | None => m
              end in
    fold_left recordCall (Msg_ToolCalls msg) m1
  else m.

Definition buildToolIdToName (messages : list GenericMessage) : gmap string string :=
  fold_left recordMessage messages ∅.

End Helpers.

(** ** The token bucket (the same text in both programs) *)

Record TokenBucketLimiter := {
  maxCapacity : Q;
  tokensPerSecond : Q;
  currentTokens : Q;
  lastUpdateTime : Z
}.

Definition NewTokenBucketLimiter (tpmLimit : Q) (now : Z) : TokenBucketLimiter :=
  {| maxCapacity := tpmLimit;
     tokensPerSecond := (tpmLimit / 60)%Q;
     currentTokens := tpmLimit;
     lastUpdateTime := now |}.

(** [Duration.Seconds]: a duration in nanoseconds, as seconds. *)
Definition Seconds (d : Z) : Q := Qmake d 1000000000.

Definition Qgtb (x y : Q) : bool := negb (Qle_bool x y).
Definition Qltb (x y : Q) : bool := negb (Qle_bool y x).

(** [Consume] at instant [now]: the new bucket, whether the request is
    allowed, and the seconds to wait. *)
Definition Consume (tb : TokenBucketLimiter) (now : Z) (tokenCount : Q)
    : TokenBucketLimiter * (bool * Q) :=
  if Qgtb tokenCount (maxCapacity tb) then (tb, (false, (-1)%Q))
  else
    let elapsed := Seconds (now - lastUpdateTime tb) in
    let refilled :=
      Qmin (maxCapacity tb) (currentTokens tb + elapsed * tokensPerSecond tb)%Q in
    if Qle_bool tokenCount refilled then
      ({| maxCapacity := maxCapacity tb;
          tokensPerSecond := tokensPerSecond tb;
          currentTokens := (refilled - tokenCount)%Q;
          lastUpdateTime := now |}, (true, 0%Q))
    else
      let needed := (tokenCount - refilled)%Q in
      ({| maxCapacity := maxCapacity tb;
          tokensPerSecond := tokensPerSecond tb;
          currentTokens := refilled;
          lastUpdateTime := now |}, (false, (needed / tokensPerSecond tb)%Q)).

Definition Refund (tb : TokenBucketLimiter) (amount : Q) : TokenBucketLimiter :=
  {| maxCapacity := maxCapacity tb;
     tokensPerSecond := tokensPerSecond tb;
     currentTokens := Qmin (maxCapacity tb) (currentTokens tb + amount)%Q;
     lastUpdateTime := lastUpdateTime tb |}.

Definition ConsumeExtra (tb : TokenBucketLimiter) (amount : Q) : TokenBucketLimiter :=
  {| maxCapacity := maxCapacity tb;
     tokensPerSecond := tokensPerSecond tb;
     currentTokens := (currentTokens tb - amount)%Q;
     lastUpdateTime := lastUpdateTime tb |}.

(** Conversion of a non-negative [float64] to an integer: truncation. *)
Definition truncate (q : Q) : Z := if Qltb q 0 then Qceiling q else Qfloor q.

(** ** The Gemini relay *)
Module Gemini.

(** An inbound request: the two credential headers (empty when absent) and
    the body. *)
Record HttpRequest := {
  Authorization : string;
  x_api_key : string;
  Body : string
}.

(** Flags and the package-level [apiKey], which the source initialises to a
    compiled-in key. *)
Record Config := { cacheMode : bool; apiKey : string }.

Record CacheEntry := {
  CE_Name : string;
  ExpireAt : Z;
  CachedCount : nat;
  CachedDigest : string
}.

(** The package-level mutable state. [tpmLimiter] is [None] for nil. *)
Record State := {
  signatureCache : gmap string string;
  contextCache : gmap string CacheEntry;
  throttleUntil : Z;
  throttleLastReq : Z;
  tpmLimiter : option TokenBucketLimiter
}.

(** The outbound calls of the relay and the world that answers them; a call
    takes [latency] nanoseconds.  [newRequest method url] tells whether
    [http.NewRequest] returns a request for this method and URL: it returns
    [nil] and an error when [url.Parse] rejects the URL.  The handler asks
    it for the generate request.  A cache is created with [client.Post],
    whose error is the error of the call; the request of [deleteCache] is
    taken to be built. *)
Inductive UpstreamCall :=
  | CallDeleteCache (cacheName key : string)
  | CallCreateCache (req : CreateCacheRequest) (key : string)
  | CallGenerate (model key : string) (req : GoogleRequest).

Record Upstream := {
  respond : UpstreamCall -> HttpResult;
  latency : UpstreamCall -> Z;
  newRequest : string -> string -> bool
}.

Record Outcome := {
  reply : Reply;
  calls : list UpstreamCall;
  final : State;
  finished : Z
}.

Definition sentinel : string := "skip_thought_signature_validator".

Definition textPart (t : string) : GooglePart :=
  {| Text := t; FunctionCall := None; FunctionResponse := None;
     Thought := false; ThoughtSignature := "" |}.

Definition functionCallPart (name : string) (args : JMap) (sig : string) : GooglePart :=
  {| Text := ""; FunctionCall := Some {| FC_Name := name; FC_Args := args |};
     FunctionResponse := None; Thought := false; ThoughtSignature := sig |}.

Definition functionResponsePart (name : string) (response : JMap) : GooglePart :=
  {| Text := ""; FunctionCall := None;
     FunctionResponse := Some {| FR_Name := name; FR_Response := response |};
     Thought := false; ThoughtSignature := "" |}.

Definition resultMap (v : string) : JMap := Some [("result", JStr v)].

Section Program.
Context {json_lib : EncodingJson} {hash_lib : Hashing}.

(** *** Cache management *)

Definition timestampPattern : string :=
  "Current date and time: \d{4}-\d{2}-\d{2} \([^)]+\) \d{2}:\d{2}:\d{2}".

Definition normalizeSystemPrompt (system : string) : string :=
  ReplaceAllString timestampPattern system "Current date and time: [NORMALIZED]".

Definition computeCacheKey (system : string) (tools : list geminiTool) : string :=
  let normalizedSystem := normalizeSystemPrompt system in
  GoStrings.slice (sha256_hex (normalizedSystem +:+ Marshal_Tools tools)) 0 16.

Definition computeContentsDigest (contents : list GoogleContent) : string :=
  GoStrings.slice (sha256_hex (Marshal_Contents contents)) 0 32.

Definition isIncrementalUpdate (cachedDigest : string) (cachedCount : nat)
    (currentContents : list GoogleContent) : bool * nat :=
  if (length currentContents <? cachedCount)%nat then (false, 0%nat)
  else
    let prefixContents := firstn cachedCount currentContents in
    let currentPrefixDigest := computeContentsDigest prefixContents in
    if String.eqb currentPrefixDigest cachedDigest then (true, cachedCount)
    else (false, 0%nat).

Definition saveCacheEntry (key name : string) (contents : list GoogleContent)
    (now : Z) (cache : gmap string CacheEntry) : gmap string CacheEntry :=
  <[ key := {| CE_Name := name;
               ExpireAt := (now + 25 * Minute)%Z;
               CachedCount := length contents;
               CachedDigest := computeContentsDigest contents |} ]> cache.

Definition createCacheRequest (model : string) (systemInstruction : option GoogleContent)
    (tools : list geminiTool) (contents : list GoogleContent) : CreateCacheRequest :=
  {| CCR_Model := "models/" +:+ model;
     CCR_SystemInstruction := systemInstruction;
     CCR_Tools := tools;
     CCR_Contents := contents;
     CCR_TTL := "1800s" |}.

(** [createCacheWithContents]: [None] is a non-nil error. *)
Definition createCacheWithContents (up : Upstream) (apiKey model : string)
    (systemInstruction : option GoogleContent) (tools : list geminiTool)
    (contents : list GoogleContent) : option string :=
  match respond up (CallCreateCache
          (createCacheRequest model systemInstruction tools contents) apiKey) with
  | TransportError _ => None
  | HttpResponse status body =>
      if (status =? 200)%Z then Some (Decode_CreateCacheName body) else None
  end.

(** *** Building the Gemini request *)

Definition toolDeclaration (t : GenericTool) : option geminiFunctionDeclaration :=
  if String.eqb (Tool_Type t) "function" && negb (strEmpty (Tool_FunctionName t)) then
    Some {| FD_Name := Tool_FunctionName t;
            FD_Description := Tool_FunctionDescription t;
            FD_Parameters := Tool_FunctionParameters t |}
  else if negb (strEmpty (Tool_Name t)) then
    Some {| FD_Name := Tool_Name t;
            FD_Description := Tool_Description t;
            FD_Parameters := Tool_InputSchema t |}
  else None.

Definition buildTools (tools : list GenericTool) : list geminiTool :=
  match omap toolDeclaration tools with
  | [] => []
  | funcs => [ {| FunctionDeclarations := funcs |} ]
  end.

Definition textParts (t : string) : list GooglePart :=
  if strEmpty t then [] else [textPart t].

(** The [response] of a [tool_result] block. *)
Definition toolResultResponse (content : RawMessage) : JMap :=
  if (0 <? String.length content)%nat then
    match Unmarshal_string content with
    | Some contentStr =>
        match Unmarshal_map contentStr with
        | Some responseData => responseData
        | None => resultMap contentStr
        end
    | None =>
        match Unmarshal_map content with
        | Some responseData => responseData
        | None => resultMap content
        end
    end
  else resultMap "ok".

Definition userBlockParts (toolIdToName : gmap string string) (block : ContentBlock)
    : list GooglePart :=
  if String.eqb (Blk_Type block) "text" then textParts (Blk_Text block)
  else if String.eqb (Blk_Type block) "tool_result" then
    let responseData := toolResultResponse (Blk_Content block) in
    let funcName := mapGet toolIdToName (Blk_ToolUseId block) in
    let funcName := if strEmpty funcName then Blk_ToolUseId block else funcName in
    [functionResponsePart funcName responseData]
  else [].

Definition toolUseArgs (input : RawMessage) : JMap :=
  if (0 <? String.length input)%nat then
    match Unmarshal_map input with
    | Some args => args
    | None => emptyMap
    end
  else None.

(** The signature of a [tool_use] block: the block's own, else the cached
    one, else the sentinel. *)
Definition toolUseSignature (sigs : gmap string string) (block : ContentBlock) : string :=
  let signature := Blk_Signature block in
  let signature :=
    if strEmpty signature && negb (strEmpty (Blk_ID block))
    then mapGet sigs (Blk_ID block) else signature in
  if negb (strEmpty signature) then signature else sentinel.

Definition assistantBlockParts (sigs : gmap string string) (block : ContentBlock)
    : list GooglePart :=
  if String.eqb (Blk_Type block) "text" then textParts (Blk_Text block)
  else if String.eqb (Blk_Type block) "tool_use" then
    let args := toolUseArgs (Blk_Input block) in
    if negb (strEmpty (Blk_Name block)) then
      [functionCallPart (Blk_Name block) args (toolUseSignature sigs block)]
    else []
  else [].

Definition toolCallPart (tc : ToolCall) : GooglePart :=
  let args := match Unmarshal_map (Call_FunctionArguments tc) with
              | Some args => args
              | None => emptyMap
              end in
  functionCallPart (Call_FunctionName tc) args sentinel.

Definition userParts (toolIdToName : gmap string string) (m : GenericMessage)
    : list GooglePart :=
  match Unmarshal_ContentBlocks (Msg_Content m) with
  | Some contentBlocks => flat_map (userBlockParts toolIdToName) contentBlocks
  | None => textParts (extractText (Msg_Content m))
  end.

Definition assistantParts (sigs : gmap string string) (m : GenericMessage)
    : list GooglePart :=
  match Unmarshal_ContentBlocks (Msg_Content m) with
  | Some contentBlocks => flat_map (assistantBlockParts sigs) contentBlocks
  | None => textParts (extractText (Msg_Content m))
  end ++ map toolCallPart (Msg_ToolCalls m).

Definition toolParts (m : GenericMessage) : list GooglePart :=
  let funcName := if strEmpty (Msg_Name m) then Msg_ToolCallID m else Msg_Name m in
  let contentStr := extractText (Msg_Content m) in
  let responseData := match Unmarshal_map contentStr with
                      | Some responseData => responseData
                      | None => resultMap contentStr
                      end in
  [functionResponsePart funcName responseData].

(** One iteration of the message loop, up to the append: [None] is the
    [continue] of a system message, otherwise the role and the parts. *)
Definition translateMessage (sigs toolIdToName : gmap string string) (m : GenericMessage)
    : option (string * list GooglePart) :=
  if String.eqb (Msg_Role m) "system" then None
  else if String.eqb (Msg_Role m) "user" then Some ("user", userParts toolIdToName m)
  else if String.eqb (Msg_Role m) "assistant" then Some ("model", assistantParts sigs m)
  else if String.eqb (Msg_Role m) "tool" then Some ("user", toolParts m)
  else Some ("user", []).

(** The end of an iteration: nothing for an empty [parts]; a merge into the
    last turn when it has the same role; a new turn otherwise. *)
Definition appendTurn (contents : list GoogleContent) (role : string)
    (parts : list GooglePart) : list GoogleContent :=
  match parts with
  | [] => contents
  | _ =>
      match last contents with
      | Some prev =>
          if String.eqb (Role prev) role
          then removelast contents ++ [ {| Role := Role prev; Parts := Parts prev ++ parts |} ]
          else contents ++ [ {| Role := role; Parts := parts |} ]
      | None => contents ++ [ {| Role := role; Parts := parts |} ]
      end
  end.

Definition translateStep (sigs toolIdToName : gmap string string)
    (contents : list GoogleContent) (m : GenericMessage) : list GoogleContent :=
  match translateMessage sigs toolIdToName m with
  | None => contents
  | Some (role, parts) => appendTurn contents role parts
  end.

Definition continueTurn : GoogleContent :=
  {| Role := "user"; Parts := [textPart "continue"] |}.

Definition ensureUserFirst (contents : list GoogleContent) : list GoogleContent :=
  match contents with
  | first :: _ =>
      if String.eqb (Role first) "model" then continueTurn :: contents else contents
  | [] => contents
  end.

Definition buildContents (sigs : gmap string string) (messages : list GenericMessage)
    : list GoogleContent :=
  let toolIdToName := buildToolIdToName messages in
  ensureUserFirst (fold_left (translateStep sigs toolIdToName) messages []).

Definition buildGoogleRequest (sigs : gmap string string) (genReq : GenericRequest)
    : GoogleRequest :=
  {| Contents := buildContents sigs (Req_Messages genReq);
     Tools := buildTools (Req_Tools genReq);
     SystemInstruction :=
       if strEmpty (Req_System genReq) then None
       else Some {| Role := ""; Parts := [textPart (Req_System genReq)] |};
     CachedContent := "";
     GenerationConfig_ := None |}.

(** *** Cache stage (section 1.6 of the handler)

    [createOrSkip] is the creation branch, which the source writes twice:
    with more than one turn, a cache of all turns but the last is created and
    only the last turn is sent. It returns the cache name, the delta, the
    calls made, the cache table and the clock. *)
Definition createOrSkip (up : Upstream) (reqKey : string) (genReq : GenericRequest)
    (gReq : GoogleRequest) (cacheKey : string) (cache : gmap string CacheEntry)
    (clock : Z) : string * list GoogleContent * list UpstreamCall * gmap string CacheEntry * Z :=
  if (1 <? length (Contents gReq))%nat then
    let contentsToCache := firstn (length (Contents gReq) - 1) (Contents gReq) in
    let call := CallCreateCache
        (createCacheRequest (Req_Model genReq) (SystemInstruction gReq) (Tools gReq)
           contentsToCache) reqKey in
    let clock' := (clock + latency up call)%Z in
    match createCacheWithContents up reqKey (Req_Model genReq) (SystemInstruction gReq)
            (Tools gReq) contentsToCache with
    | None => ("", [], [call], cache, clock')
    | Some name =>
        (name, skipn (length (Contents gReq) - 1) (Contents gReq), [call],
         saveCacheEntry cacheKey name contentsToCache clock' cache, clock')
    end
  else ("", [], [], cache, clock).

Definition hasCacheableContext (gReq : GoogleRequest) : bool :=
  match SystemInstruction gReq with Some _ => true | None => false end
  || (0 <? length (Tools gReq))%nat.

Definition selectCache (up : Upstream) (reqKey : string) (genReq : GenericRequest)
    (gReq : GoogleRequest) (cache : gmap string CacheEntry) (clock : Z)
    : string * list GoogleContent * list UpstreamCall * gmap string CacheEntry * Z :=
  if hasCacheableContext gReq then
    let cacheKey := computeCacheKey (Req_System genReq) (Tools gReq) in
    match cache !! cacheKey with
    | Some entry =>
        if (clock <? ExpireAt entry)%Z then
          let '(isIncremental, startIdx) :=
            isIncrementalUpdate (CachedDigest entry) (CachedCount entry) (Contents gReq) in
          if isIncremental && (startIdx <? length (Contents gReq))%nat then
            (CE_Name entry, skipn startIdx (Contents gReq), [], cache, clock)
          else
            let del := CallDeleteCache (CE_Name entry) reqKey in
            let '(name, delta, created, cache', clock') :=
              createOrSkip up reqKey genReq gReq cacheKey cache (clock + latency up del)%Z in
            (name, delta, del :: created, cache', clock')
        else createOrSkip up reqKey genReq gReq cacheKey cache clock
    | None => createOrSkip up reqKey genReq gReq cacheKey cache clock
    end
  else ("", [], [], cache, clock).

Definition useCache (gReq : GoogleRequest) (cacheName : string)
    (deltaContents : list GoogleContent) : GoogleRequest :=
  if negb (strEmpty cacheName) && (0 <? length deltaContents)%nat then
    {| Contents := deltaContents;
       Tools := [];
       SystemInstruction := None;
       CachedContent := cacheName;
       GenerationConfig_ := GenerationConfig_ gReq |}
  else gReq.

Definition cacheStage (cfg : Config) (up : Upstream) (reqKey : string)
    (genReq : GenericRequest) (gReq : GoogleRequest) (cache : gmap string CacheEntry)
    (clock : Z) : GoogleRequest * list UpstreamCall * gmap string CacheEntry * Z :=
  if cacheMode cfg then
    let '(cacheName, deltaContents, made, cache', clock') :=
      selectCache up reqKey genReq gReq cache clock in
    (useCache gReq cacheName deltaContents, made, cache', clock')
  else (gReq, [], cache, clock).

(** *** TPM admission (section 1.7) *)

Inductive Admission :=
  | Allowed (tb : TokenBucketLimiter) (clock : Z)
  | TooLarge (tb : TokenBucketLimiter) (clock : Z)
  | StillWaiting.

(** The admission loop; [fuel] bounds the number of iterations, and
    [StillWaiting] is the loop cut short. *)
Fixpoint awaitTokens (fuel : nat) (tb : TokenBucketLimiter) (clock : Z) (estimatedTokens : Q)
    : Admission :=
  match fuel with
  | O => StillWaiting
  | S fuel' =>
      let '(tb', (allowed, waitTime)) := Consume tb clock estimatedTokens in
      if allowed then Allowed tb' (clock + 1 * Second)%Z
      else if Qltb waitTime 0 then TooLarge tb' clock
      else awaitTokens fuel' tb' (clock + truncate ((waitTime + 1) * 1000) * Millisecond)%Z
             estimatedTokens
  end.

Definition estimateTokens (bodyBytes : string) : Q :=
  (inject_Z (Z.of_nat (String.length bodyBytes)) / 3)%Q.

(** *** 429 throttle (section 2.1 and the 429 branch) *)

Definition throttleActive (st : State) (now : Z) : bool := (now <? throttleUntil st)%Z.

(** The sleep a request entering the gate at [now] decides on. *)
Definition throttleWait (st : State) (now : Z) : Z :=
  let elapsed := (now - throttleLastReq st)%Z in
  if (elapsed <? 61 * Second)%Z then (61 * Second - elapsed)%Z else 0%Z.

Definition withThrottle (st : State) (until lastReq : Z) : State :=
  {| signatureCache := signatureCache st;
     contextCache := contextCache st;
     throttleUntil := until;
     throttleLastReq := lastReq;
     tpmLimiter := tpmLimiter st |}.

Definition throttleMark (st : State) (now : Z) : State :=
  withThrottle st (throttleUntil st) now.

Definition throttleActivate (st : State) (now : Z) : State :=
  withThrottle st (now + 30 * Minute)%Z now.

(** The gate as one request passes it alone: the state and the clock after. *)
Definition throttleGate (st : State) (clock : Z) : State * Z :=
  if throttleActive st clock then
    let clock' := (clock + throttleWait st clock)%Z in
    (throttleMark st clock', clock')
  else (st, clock).

(** *** Decoding the upstream response (section 3) *)

Record Decoded := {
  thinkingText : string;
  thinkingSignature : string;
  textBuf : string;
  toolCalls : list OutBlock;
  toolCallCounter : nat;
  sigs : gmap string string
}.

(** [fmt.Sprintf("call_function_%d_%d", unix, n)]. *)
Definition toolCallId (unix : Z) (n : nat) : string :=
  "call_function_" +:+ pretty unix +:+ "_" +:+ pretty n.

Definition optSignature (sig : string) : option string :=
  if strEmpty sig then None else Some sig.

(** One iteration of the loop over [candidate.Content.Parts]. *)
Definition decodePart (unix : Z) (acc : Decoded) (part : GooglePart) : Decoded :=
  let thinkingText' :=
    if Thought part && negb (strEmpty (Text part)) then Text part else thinkingText acc in
  let thinkingSignature' :=
    if negb (strEmpty (ThoughtSignature part)) then ThoughtSignature part
    else thinkingSignature acc in
  let textBuf' :=
    if negb (strEmpty (Text part)) && negb (Thought part)
    then textBuf acc +:+ Text part else textBuf acc in
  match FunctionCall part with
  | Some fc =>
      let counter := S (toolCallCounter acc) in
      let toolCallId := toolCallId unix counter in
      let toolUseBlock :=
        ToolUseBlock toolCallId (FC_Name fc) (FC_Args fc)
          (optSignature (ThoughtSignature part)) in
      {| thinkingText := thinkingText';
         thinkingSignature := thinkingSignature';
         textBuf := textBuf';
         toolCalls := toolCalls acc ++ [toolUseBlock];
         toolCallCounter := counter;
         sigs := if negb (strEmpty (ThoughtSignature part))
                 then <[ toolCallId := ThoughtSignature part ]> (sigs acc)
                 else sigs acc |}
  | None =>
      {| thinkingText := thinkingText';
         thinkingSignature := thinkingSignature';
         textBuf := textBuf';
         toolCalls := toolCalls acc;
         toolCallCounter := toolCallCounter acc;
         sigs := sigs acc |}
  end.

Definition decodeStart (sigs0 : gmap string string) : Decoded :=
  {| thinkingText := ""; thinkingSignature := ""; textBuf := "";
     toolCalls := []; toolCallCounter := 0; sigs := sigs0 |}.

Definition decodeParts (unix : Z) (sigs0 : gmap string string) (parts : list GooglePart)
    : Decoded :=
  fold_left (decodePart unix) parts (decodeStart sigs0).

Definition isNilMap (m : JMap) : bool := match m with None => true | Some _ => false end.

(** The text kept of a finish message that could not be parsed. *)
Definition malformedRemainder (finishMessage : string) : string :=
  let content := GoStrings.TrimPrefix finishMessage "Malformed function call: " in
  let content :=
    match GoStrings.LastIndex content "})" with
    | Some idx => GoStrings.sliceFrom content (idx + 2)
    | None =>
        match GoStrings.LastIndex content "}" with
        | Some idx => GoStrings.sliceFrom content (idx + 1)
        | None => content
        end
    end in
  GoStrings.TrimSpace content.

(** The fallback for a malformed function call. *)
Definition malformedFallback (unix : Z) (candidate : Candidate) (acc : Decoded) : Decoded :=
  if String.eqb (FinishReason candidate) "MALFORMED_FUNCTION_CALL"
     && negb (strEmpty (FinishMessage candidate)) then
    let '(name, args) := parseMalformedFunctionCall (FinishMessage candidate) in
    if negb (strEmpty name) && negb (isNilMap args) then
      let counter := S (toolCallCounter acc) in
      {| thinkingText := thinkingText acc;
         thinkingSignature := thinkingSignature acc;
         textBuf := textBuf acc;
         toolCalls := toolCalls acc ++ [ToolUseBlock (toolCallId unix counter) name args None];
         toolCallCounter := counter;
         sigs := sigs acc |}
    else
      {| thinkingText := thinkingText acc;
         thinkingSignature := thinkingSignature acc;
         textBuf := textBuf acc +:+ malformedRemainder (FinishMessage candidate);
         toolCalls := toolCalls acc;
         toolCallCounter := toolCallCounter acc;
         sigs := sigs acc |}
  else acc.

Definition decodeCandidate (unix : Z) (sigs0 : gmap string string) (candidate : Candidate)
    : Decoded :=
  malformedFallback unix candidate (decodeParts unix sigs0 (Cand_Parts candidate)).

(** The [content] array: thinking, then text, then the tool calls. *)
Definition contentArr (d : Decoded) : list OutBlock :=
  (if strEmpty (thinkingText d) then []
   else [ThinkingBlock (thinkingText d) (optSignature (thinkingSignature d))])
  ++ (if (0 <? String.length (textBuf d))%nat then [TextBlock (textBuf d)] else [])
  ++ toolCalls d.

Definition stopReason (d : Decoded) : string :=
  if (0 <? length (toolCalls d))%nat then "tool_use" else "end_turn".

(** [fmt.Sprintf("%x", n)]. *)
Definition hex (n : Z) : string :=
  if (n <? 0)%Z then "-" +:+ NilZero.string_of_uint (N.to_hex_uint (Z.to_N (- n)))
  else NilZero.string_of_uint (N.to_hex_uint (Z.to_N n)).

Definition buildResponse (model : string) (clock : Z) (gResp : GoogleResponse)
    (d : Decoded) : MessageResponse :=
  {| Res_id := hex clock;
     Res_model := model;
     Res_content := contentArr d;
     Res_stop_reason := stopReason d;
     Res_input_tokens := PromptTokenCount gResp;
     Res_output_tokens := CandidatesTokenCount gResp |}.

(** *** The handler *)

Definition resolveKey (cfg : Config) (r : HttpRequest) : string :=
  let reqKey := GoStrings.TrimPrefix (Authorization r) "Bearer " in
  let reqKey := if strEmpty reqKey then x_api_key r else reqKey in
  if strEmpty reqKey then apiKey cfg else reqKey.

Definition withCache (st : State) (cache : gmap string CacheEntry) : State :=
  {| signatureCache := signatureCache st;
     contextCache := cache;
     throttleUntil := throttleUntil st;
     throttleLastReq := throttleLastReq st;
     tpmLimiter := tpmLimiter st |}.

Definition withLimiter (st : State) (tb : option TokenBucketLimiter) : State :=
  {| signatureCache := signatureCache st;
     contextCache := contextCache st;
     throttleUntil := throttleUntil st;
     throttleLastReq := throttleLastReq st;
     tpmLimiter := tb |}.

Definition withSignatures (st : State) (sigs : gmap string string) : State :=
  {| signatureCache := sigs;
     contextCache := contextCache st;
     throttleUntil := throttleUntil st;
     throttleLastReq := throttleLastReq st;
     tpmLimiter := tpmLimiter st |}.

Definition withGenerationConfig (gReq : GoogleRequest) : GoogleRequest :=
  {| Contents := Contents gReq;
     Tools := Tools gReq;
     SystemInstruction := SystemInstruction gReq;
     CachedContent := CachedContent gReq;
     GenerationConfig_ := Some {| MaxOutputTokens := 4000 |} |}.

(** Post-hoc correction: only an under-estimate is charged. *)
Definition correctEstimate (tb : TokenBucketLimiter) (estimatedTokens : Q)
    (totalTokenCount : Z) : TokenBucketLimiter :=
  if (0 <? totalTokenCount)%Z then
    let actualTokens := inject_Z totalTokenCount in
    if Qgtb actualTokens estimatedTokens
    then ConsumeExtra tb (actualTokens - estimatedTokens)%Q
    else tb
  else tb.

(** The handler from the upstream answer on (sections 2 and 3): [made] are
    the calls made so far, the generate call included. *)
Definition afterGenerate (st : State) (clock : Z) (made : list UpstreamCall)
    (genReq : GenericRequest) (estimatedTokens : Q) (answer : HttpResult) : Outcome :=
  match answer with
  | TransportError err =>
      {| reply := HttpError err 502; calls := made; final := st; finished := clock |}
  | HttpResponse status gBody =>
      if negb (status =? 200)%Z then
        if (status =? 429)%Z then
          let st' :=
            if GoStrings.Contains gBody "Resource has been exhausted"
            then throttleActivate st clock else st in
          let clock' :=
            match tpmLimiter st with
            | Some _ => (clock + 61 * Second)%Z
            | None => clock
            end in
          {| reply := Forwarded status gBody; calls := made; final := st';
             finished := clock' |}
        else
          {| reply := Forwarded status gBody; calls := made; final := st;
             finished := clock |}
      else
        match Unmarshal_GoogleResponse gBody with
        | None =>
            {| reply := HttpError "Failed to parse Google response" 500; calls := made;
               final := st; finished := clock |}
        | Some gResp =>
            let st1 :=
              match tpmLimiter st with
              | Some tb =>
                  withLimiter st
                    (Some (correctEstimate tb estimatedTokens (TotalTokenCount gResp)))
              | None => st
              end in
            match Candidates gResp with
            | candidate :: _ =>
                let d := decodeCandidate (clock / Second) (signatureCache st1) candidate in
                {| reply := Encoded (buildResponse (Req_Model genReq) clock gResp d);
                   calls := made;
                   final := withSignatures st1 (sigs d);
                   finished := clock |}
            | [] =>
                {| reply := HttpError "Gemini returned no candidates" 500; calls := made;
                   final := st1; finished := clock |}
            end
        end
  end.

(** [fmt.Sprintf] of the URL of the generate call. *)
Definition generateURL (model reqKey : string) : string :=
  "https://generativelanguage.googleapis.com/v1beta/models/" +:+ model
  +:+ ":generateContent?key=" +:+ reqKey.

(** The handler from the throttle gate on: gate, generate call, answer.  The
    error of [http.NewRequest] is dropped and a header is set on the request:
    with a URL that does not parse the request is [nil] and the handler
    panics there, after the gate and before any call. *)
Definition dispatch (up : Upstream) (st : State) (clock : Z) (made : list UpstreamCall)
    (reqKey : string) (genReq : GenericRequest) (gReq : GoogleRequest)
    (estimatedTokens : Q) : Outcome :=
  let googleURL := generateURL (Req_Model genReq) reqKey in
  let '(st1, clock1) := throttleGate st clock in
  if newRequest up "POST" googleURL then
    let call := CallGenerate (Req_Model genReq) reqKey gReq in
    afterGenerate st1 (clock1 + latency up call)%Z (made ++ [call]) genReq estimatedTokens
      (respond up call)
  else {| reply := Aborted; calls := made; final := st1; finished := clock1 |}.

(** [handleProxy], for one request handled alone from instant [now] on.
    [None] only when the admission loop is cut short by [fuel]. *)
Definition handleProxy (cfg : Config) (up : Upstream) (fuel : nat) (st : State) (now : Z)
    (r : HttpRequest) : option Outcome :=
  let reqKey := resolveKey cfg r in
  let bodyBytes := Body r in
  match Unmarshal_GenericRequest bodyBytes with
  | None =>
      Some {| reply := HttpError "Invalid JSON" 400; calls := []; final := st;
              finished := now |}
  | Some genReq =>
      let gReq := buildGoogleRequest (signatureCache st) genReq in
      let '(gReq1, made, cache', clock1) :=
        cacheStage cfg up reqKey genReq gReq (contextCache st) now in
      let st1 := withCache st cache' in
      match tpmLimiter st1 with
      | Some tb =>
          let estimatedTokens := estimateTokens bodyBytes in
          match awaitTokens fuel tb clock1 estimatedTokens with
          | StillWaiting => None
          | TooLarge tb' clock2 =>
              Some {| reply := HttpError "Request too large for TPM limit" 429;
                      calls := made; final := withLimiter st1 (Some tb');
                      finished := clock2 |}
          | Allowed tb' clock2 =>
              Some (dispatch up (withLimiter st1 (Some tb')) clock2 made reqKey genReq
                      (withGenerationConfig gReq1) estimatedTokens)
          end
      | None => Some (dispatch up st1 clock1 made reqKey genReq gReq1 0%Q)
      end
  end.

End Program.
End Gemini.

(** ** The OpenAI-compatible relay *)
Module OpenAI.

Record HttpRequest := {
  Authorization : string;
  x_api_key : string;
  Body : string
}.

(** The flags [--key] and [--url]. *)
Record Config := { apiKey : string; baseURL : string }.

Record State := {
  tpmLimiter : option TokenBucketLimiter;
  adaptiveRatio : Q
}.

Inductive UpstreamCall :=
  | CallChat (url key : string) (req : OpenAIRequest).

(** The world around the handler: the answers and the duration of the
    outbound calls; whether [http.NewRequest] returns a request for a method
    and a URL; and [lag t], the time that passes, beyond the sleep itself,
    between the end of a sleep at [t] and the next reading of the clock. *)
Record Upstream := {
  respond : UpstreamCall -> HttpResult;
  latency : UpstreamCall -> Z;
  newRequest : string -> string -> bool;
  lag : Z -> Z
}.

Record Outcome := {
  reply : Reply;
  calls : list UpstreamCall;
  final : State;
  finished : Z
}.

Section Program.
Context {json_lib : EncodingJson}.

(** *** Building the OpenAI request *)

Definition toolDef (t : GenericTool) : option OpenAIToolDef :=
  if String.eqb (Tool_Type t) "function" && negb (strEmpty (Tool_FunctionName t)) then
    Some {| OTD_Type := "function";
            OTD_FunctionName := Tool_FunctionName t;
            OTD_FunctionDescription := Tool_FunctionDescription t;
            OTD_FunctionParameters := Tool_FunctionParameters t |}
  else if negb (strEmpty (Tool_Name t)) then
    Some {| OTD_Type := "function";
            OTD_FunctionName := Tool_Name t;
            OTD_FunctionDescription := Tool_Description t;
            OTD_FunctionParameters := Tool_InputSchema t |}
  else None.

Definition plainMessage (role : string) (content : string) : OpenAIMessage :=
  {| OM_Role := role; OM_Content := Some content; OM_ToolCalls := [];
     OM_ToolCallID := ""; OM_Name := "" |}.

Definition nonEmptyTexts (blocks : list ContentBlock) : list string :=
  List.filter (fun t => negb (strEmpty t))
    (map Blk_Text (List.filter isTextBlock blocks)).

Definition isToolResult (b : ContentBlock) : bool := String.eqb (Blk_Type b) "tool_result".
Definition isToolUse (b : ContentBlock) : bool := String.eqb (Blk_Type b) "tool_use".

Definition toolResultMessage (toolIdToName : gmap string string) (tr : ContentBlock)
    : OpenAIMessage :=
  let contentStr :=
    if (0 <? String.length (Blk_Content tr))%nat then
      match Unmarshal_string (Blk_Content tr) with
      | Some s => s
      | None => Blk_Content tr
      end
    else "ok" in
  {| OM_Role := "tool"; OM_Content := Some contentStr; OM_ToolCalls := [];
     OM_ToolCallID := Blk_ToolUseId tr;
     OM_Name := mapGet toolIdToName (Blk_ToolUseId tr) |}.

Definition userMessages (toolIdToName : gmap string string) (m : GenericMessage)
    : list OpenAIMessage :=
  match Unmarshal_ContentBlocks (Msg_Content m) with
  | Some contentBlocks =>
      let textParts := nonEmptyTexts contentBlocks in
      let toolResults := List.filter isToolResult contentBlocks in
      map (toolResultMessage toolIdToName) toolResults
      ++ (if (0 <? length textParts)%nat
          then [plainMessage "user" (GoStrings.Join textParts newline)] else [])
  | None =>
      let text := extractText (Msg_Content m) in
      if strEmpty text then [] else [plainMessage "user" text]
  end.

Definition toolUseCall (block : ContentBlock) : OpenAIToolCall :=
  {| OTC_ID := Blk_ID block;
     OTC_Type := "function";
     OTC_FunctionName := Blk_Name block;
     OTC_FunctionArguments :=
       if (0 <? String.length (Blk_Input block))%nat then Blk_Input block else "{}" |}.

Definition passCall (tc : ToolCall) : OpenAIToolCall :=
  {| OTC_ID := Call_ID tc;
     OTC_Type := Call_Type tc;
     OTC_FunctionName := Call_FunctionName tc;
     OTC_FunctionArguments := Call_FunctionArguments tc |}.

Definition assistantMessage (m : GenericMessage) : OpenAIMessage :=
  let '(content, toolCalls) :=
    match Unmarshal_ContentBlocks (Msg_Content m) with
    | Some contentBlocks =>
        let textParts := nonEmptyTexts contentBlocks in
        ((if (0 <? length textParts)%nat
          then Some (GoStrings.Join textParts newline) else None),
         map toolUseCall (List.filter isToolUse contentBlocks))
    | None =>
        let text := extractText (Msg_Content m) in
        ((if strEmpty text then None else Some text), [])
    end in
  {| OM_Role := "assistant"; OM_Content := content;
     OM_ToolCalls := toolCalls ++ map passCall (Msg_ToolCalls m);
     OM_ToolCallID := ""; OM_Name := "" |}.

Definition toolMessage (m : GenericMessage) : OpenAIMessage :=
  {| OM_Role := "tool"; OM_Content := Some (extractText (Msg_Content m));
     OM_ToolCalls := []; OM_ToolCallID := Msg_ToolCallID m; OM_Name := Msg_Name m |}.

Definition translateMessage (toolIdToName : gmap string string) (m : GenericMessage)
    : list OpenAIMessage :=
  if String.eqb (Msg_Role m) "system" then []
  else if String.eqb (Msg_Role m) "user" then userMessages toolIdToName m
  else if String.eqb (Msg_Role m) "assistant" then [assistantMessage m]
  else if String.eqb (Msg_Role m) "tool" then [toolMessage m]
  else [].

Definition buildOpenAIRequest (genReq : GenericRequest) : OpenAIRequest :=
  let toolIdToName := buildToolIdToName (Req_Messages genReq) in
  {| OReq_Model := Req_Model genReq;
     OReq_Messages :=
       (if strEmpty (Req_System genReq) then []
        else [plainMessage "system" (Req_System genReq)])
       ++ flat_map (translateMessage toolIdToName) (Req_Messages genReq);
     OReq_Tools := omap toolDef (Req_Tools genReq) |}.

(** *** TPM admission and post-hoc correction *)

Inductive Admission :=
  | Allowed (tb : TokenBucketLimiter) (clock : Z)
  | TooLarge (tb : TokenBucketLimiter) (clock : Z)
  | StillWaiting.

(** The admission loop; [fuel] bounds the number of iterations, and
    [StillWaiting] is the loop cut short.  After a sleep that ends at [woken]
    the bucket is read at [woken + lag up woken]. *)
Fixpoint awaitTokens (up : Upstream) (fuel : nat) (tb : TokenBucketLimiter) (clock : Z)
    (estimatedTokens : Q) : Admission :=
  match fuel with
  | O => StillWaiting
  | S fuel' =>
      let '(tb', (allowed, waitTime)) := Consume tb clock estimatedTokens in
      if allowed then Allowed tb' clock
      else if Qltb waitTime 0 then TooLarge tb' clock
      else
        let woken := (clock + truncate (waitTime * 1000) * Millisecond)%Z in
        awaitTokens up fuel' tb' (woken + lag up woken)%Z estimatedTokens
  end.

Definition rawEstimateOf (bodyBytes : string) : Q :=
  (inject_Z (Z.of_nat (String.length bodyBytes)) / 3)%Q.

(** Post-hoc correction of the bucket, both ways. *)
Definition correctBucket (tb : TokenBucketLimiter) (estimatedTokens actualTokens : Q)
    : TokenBucketLimiter :=
  if Qgtb actualTokens estimatedTokens then
    ConsumeExtra tb (actualTokens - estimatedTokens)%Q
  else if Qgtb estimatedTokens actualTokens then
    Refund tb (estimatedTokens - actualTokens)%Q
  else tb.

(** The moving average of the ratio, as the exact number that the
    [float64] expression of the code rounds. *)
Definition updateRatio (ratio rawEstimate actualTokens : Q) : Q :=
  if Qgtb rawEstimate 0 then
    let newRatio := (actualTokens / rawEstimate)%Q in
    ((8 # 10) * ratio + (2 # 10) * newRatio)%Q
  else ratio.

Definition correct (st : State) (estimatedTokens rawEstimate : Q) (totalTokens : Z) : State :=
  match tpmLimiter st with
  | Some tb =>
      if (0 <? totalTokens)%Z then
        let actualTokens := inject_Z totalTokens in
        {| tpmLimiter := Some (correctBucket tb estimatedTokens actualTokens);
           adaptiveRatio := updateRatio (adaptiveRatio st) rawEstimate actualTokens |}
      else st
  | None => st
  end.

(** *** Decoding the upstream response *)

Definition nonEmptyText (s : option string) : string :=
  match s with Some t => t | None => "" end.

Definition toolUseOf (tc : OpenAIToolCall) : OutBlock :=
  ToolUseRawBlock (OTC_ID tc) (OTC_FunctionName tc) (OTC_FunctionArguments tc).

Definition contentArr (choice : Choice) : list OutBlock :=
  let thinkingText := nonEmptyText (Ch_ReasoningContent choice) in
  let textContent := nonEmptyText (Ch_Content choice) in
  (if strEmpty thinkingText then [] else [ThinkingBlock thinkingText None])
  ++ (if strEmpty textContent then [] else [TextBlock textContent])
  ++ map toolUseOf (Ch_ToolCalls choice).

Definition hex (n : Z) : string :=
  if (n <? 0)%Z then "-" +:+ NilZero.string_of_uint (N.to_hex_uint (Z.to_N (- n)))
  else NilZero.string_of_uint (N.to_hex_uint (Z.to_N n)).

Definition buildResponse (model : string) (clock : Z) (oaiResp : OpenAIResponse)
    (choice : Choice) : MessageResponse :=
  {| Res_id := hex clock;
     Res_model := model;
     Res_content := contentArr choice;
     Res_stop_reason :=
       if (0 <? length (Ch_ToolCalls choice))%nat then "tool_use" else "end_turn";
     Res_input_tokens := PromptTokens oaiResp;
     Res_output_tokens := CompletionTokens oaiResp |}.

(** [enc.Encode(res)]: the [input] of a tool use is the arguments string as
    a [json.RawMessage], so [Encode] fails, before it writes anything, when
    the arguments of some tool call are not valid JSON. *)
Definition encodes (choice : Choice) : bool :=
  forallb (fun tc => Valid (OTC_FunctionArguments tc)) (Ch_ToolCalls choice).

(** *** The handler *)

(** The credential: [None] is the 401 reply. *)
Definition resolveKey (cfg : Config) (r : HttpRequest) : option string :=
  let reqKey := GoStrings.TrimPrefix (Authorization r) "Bearer " in
  let reqKey := if strEmpty reqKey then x_api_key r else reqKey in
  let reqKey := if strEmpty reqKey then apiKey cfg else reqKey in
  if strEmpty reqKey then None else Some reqKey.

Definition afterChat (st : State) (clock : Z) (made : list UpstreamCall)
    (genReq : GenericRequest) (estimatedTokens rawEstimate : Q) (answer : HttpResult)
    : Outcome :=
  match answer with
  | TransportError err =>
      {| reply := HttpError err 502; calls := made; final := st; finished := clock |}
  | HttpResponse status respBody =>
      if negb (status =? 200)%Z then
        {| reply := Forwarded status respBody; calls := made; final := st;
           finished := clock |}
      else
        match Unmarshal_OpenAIResponse respBody with
        | None =>
            {| reply := HttpError "Failed to parse OpenAI-Compatible response" 500;
               calls := made; final := st; finished := clock |}
        | Some oaiResp =>
            let st1 := correct st estimatedTokens rawEstimate (TotalTokens oaiResp) in
            match Choices oaiResp with
            | choice :: _ =>
                {| reply :=
                     if encodes choice
                     then Encoded (buildResponse (Req_Model genReq) clock oaiResp choice)
                     else NoBody;
                   calls := made; final := st1; finished := clock |}
            | [] =>
                {| reply := HttpError "OpenAI-Compatible returned no choices" 500;
                   calls := made; final := st1; finished := clock |}
            end
        end
  end.

(** The call.  The error of [http.NewRequest] is dropped and headers are
    set on the request: with a URL that does not parse the request is [nil]
    and the handler panics there, before any call. *)
Definition dispatch (cfg : Config) (up : Upstream) (st : State) (clock : Z)
    (reqKey : string) (genReq : GenericRequest) (oaiReq : OpenAIRequest)
    (estimatedTokens rawEstimate : Q) : Outcome :=
  let targetURL := baseURL cfg in
  if newRequest up "POST" targetURL then
    let call := CallChat targetURL reqKey oaiReq in
    afterChat st (clock + latency up call)%Z [call] genReq estimatedTokens rawEstimate
      (respond up call)
  else {| reply := Aborted; calls := []; final := st; finished := clock |}.

(** [handleProxy], for one request handled alone from instant [now] on.
    [None] only when the admission loop is cut short by [fuel]. *)
Definition handleProxy (cfg : Config) (up : Upstream) (fuel : nat) (st : State) (now : Z)
    (r : HttpRequest) : option Outcome :=
  match resolveKey cfg r with
  | None =>
      Some {| reply := HttpError "Missing API Key" 401; calls := []; final := st;
              finished := now |}
  | Some reqKey =>
      let bodyBytes := Body r in
      match Unmarshal_GenericRequest bodyBytes with
      | None =>
          Some {| reply := HttpError "Invalid JSON" 400; calls := []; final := st;
                  finished := now |}
      | Some genReq =>
          let oaiReq := buildOpenAIRequest genReq in
          match tpmLimiter st with
          | Some tb =>
              let rawEstimate := rawEstimateOf bodyBytes in
              let estimatedTokens := (rawEstimate * adaptiveRatio st)%Q in
              match awaitTokens up fuel tb now estimatedTokens with
              | StillWaiting => None
              | TooLarge tb' clock =>
                  Some {| reply := HttpError "Request too large for TPM limit" 429;
                          calls := [];
                          final := {| tpmLimiter := Some tb';
                                      adaptiveRatio := adaptiveRatio st |};
                          finished := clock |}
              | Allowed tb' clock =>
                  Some (dispatch cfg up
                          {| tpmLimiter := Some tb'; adaptiveRatio := adaptiveRatio st |}
                          clock reqKey genReq oaiReq estimatedTokens rawEstimate)
              end
          | None => Some (dispatch cfg up st now reqKey genReq oaiReq 0%Q 0%Q)
          end
      end
  end.

End Program.
End OpenAI.

(** ** A concrete JSON codec

    A recursive-descent reader of JSON text with the decoding rules of
    [encoding/json] that the programs rely on: surrounding white space is
    skipped, a [null] leaves the target at its zero value, a value of the
    wrong kind is an error, object keys match field names without regard to
    ASCII case, unknown keys are ignored, and for a repeated key the last
    non-null member counts.  It is the instance used to run the programs on
    concrete requests; every theorem that does not name it holds for any
    instance. *)
Module MiniJson.

Definition code (c : ascii) : nat := nat_of_ascii c.
Definition chr (c : ascii) (n : nat) : bool := (code c =? n)%nat.

Definition isWs (c : ascii) : bool := chr c 32 || chr c 9 || chr c 10 || chr c 13.
Definition isDigit (c : ascii) : bool := (48 <=? code c)%nat && (code c <=? 57)%nat.

Fixpoint skipWs (l : list ascii) : list ascii :=
  match l with
  | c :: t => if isWs c then skipWs t else l
  | [] => []
  end.

Fixpoint stripPrefix (p l : list ascii) : option (list ascii) :=
  match p, l with
  | [], _ => Some l
  | a :: p', b :: l' => if Ascii.eqb a b then stripPrefix p' l' else None
  | _ :: _, [] => None
  end.

Definition lit (s : string) (l : list ascii) : option (list ascii) :=
  stripPrefix (GoStrings.bytes s) l.

Fixpoint spanDigits (l : list ascii) : list ascii * list ascii :=
  match l with
  | c :: t => if isDigit c then let '(ds, r) := spanDigits t in (c :: ds, r) else ([], l)
  | [] => ([], [])
  end.

(** A number literal of the JSON grammar and what follows it. *)
Definition scanNumber (l : list ascii) : option (list ascii * list ascii) :=
  let '(sign, l1) := match l with
                     | c :: t => if chr c 45 then ([c], t) else ([], l)
                     | [] => ([], l)
                     end in
  '(int, l2) ← match l1 with
               | c :: t =>
                   if chr c 48 then Some ([c], t)
                   else if isDigit c then let '(ds, r) := spanDigits t in Some (c :: ds, r)
                   else None
               | [] => None
               end;
  '(frac, l3) ← match l2 with
                | c :: t =>
                    if chr c 46 then
                      match spanDigits t with
                      | ([], _) => None
                      | (ds, r) => Some (c :: ds, r)
                      end
                    else Some ([], l2)
                | [] => Some ([], l2)
                end;
  '(exp, l4) ← match l3 with
               | c :: t =>
                   if chr c 101 || chr c 69 then
                     let '(sg, t') := match t with
                                      | s :: t2 => if chr s 43 || chr s 45 then ([s], t2) else ([], t)
                                      | [] => ([], t)
                                      end in
                     match spanDigits t' with
                     | ([], _) => None
                     | (ds, r) => Some (c :: sg ++ ds, r)
                     end
                   else Some ([], l3)
               | [] => Some ([], l3)
               end;
  Some (sign ++ int ++ frac ++ exp, l4).

Definition hexVal (c : ascii) : option N :=
  let n := code c in
  if isDigit c then Some (N.of_nat (n - 48))
  else if (97 <=? n)%nat && (n <=? 102)%nat then Some (N.of_nat (n - 87))
  else if (65 <=? n)%nat && (n <=? 70)%nat then Some (N.of_nat (n - 55))
  else None.

Definition hex4 (l : list ascii) : option (N * list ascii) :=
  match l with
  | a :: b :: c :: d :: t =>
      x ← hexVal a; y ← hexVal b; z ← hexVal c; w ← hexVal d;
      Some ((((x * 16 + y) * 16 + z) * 16 + w)%N, t)
  | _ => None
  end.

Definition byte (n : N) : ascii := ascii_of_N n.

(** UTF-8 encoding of a code point. *)
Definition utf8 (cp : N) : list ascii :=
  if (cp <? 128)%N then [byte cp]
  else if (cp <? 2048)%N then [byte (192 + cp / 64); byte (128 + cp mod 64)]
  else if (cp <? 65536)%N then
    [byte (224 + cp / 4096); byte (128 + (cp / 64) mod 64); byte (128 + cp mod 64)]
  else [byte (240 + cp / 262144); byte (128 + (cp / 4096) mod 64);
        byte (128 + (cp / 64) mod 64); byte (128 + cp mod 64)].

Definition simpleEscape (e : ascii) : option ascii :=
  if chr e 34 || chr e 92 || chr e 47 then Some e
  else if chr e 98 then Some (byte 8)
  else if chr e 102 then Some (byte 12)
  else if chr e 110 then Some (byte 10)
  else if chr e 114 then Some (byte 13)
  else if chr e 116 then Some (byte 9)
  else None.

Definition isHighSurrogate (cp : N) : bool := (55296 <=? cp)%N && (cp <? 56320)%N.
Definition isLowSurrogate (cp : N) : bool := (56320 <=? cp)%N && (cp <? 57344)%N.

(** A [\u] escape, after the [u]: the code point and what follows.  A
    surrogate that is not part of a pair reads as U+FFFD. *)
Definition unicodeEscape (l : list ascii) : option (N * list ascii) :=
  '(cp, t) ← hex4 l;
  if isHighSurrogate cp then
    match t with
    | b :: u :: t2 =>
        if chr b 92 && chr u 117 then
          match hex4 t2 with
          | Some (lo, t3) =>
              if isLowSurrogate lo
              then Some ((65536 + (cp - 55296) * 1024 + (lo - 56320))%N, t3)
              else Some (65533%N, t)
          | None => Some (65533%N, t)
          end
        else Some (65533%N, t)
    | _ => Some (65533%N, t)
    end
  else if isLowSurrogate cp then Some (65533%N, t)
  else Some (cp, t).

(** The bytes of a string literal, after its opening quote. *)
Fixpoint readString (fuel : nat) (l acc : list ascii) : option (list ascii * list ascii) :=
  match fuel with
  | O => None
  | S fuel' =>
      match l with
      | [] => None
      | c :: t =>
          if chr c 34 then Some (rev acc, t)
          else if chr c 92 then
            match t with
            | e :: t2 =>
                match simpleEscape e with
                | Some b => readString fuel' t2 (b :: acc)
                | None =>
                    if chr e 117 then
                      '(cp, t3) ← unicodeEscape t2;
                      readString fuel' t3 (rev (utf8 cp) ++ acc)
                    else None
                end
            | [] => None
            end
          else if (code c <? 32)%nat then None
          else readString fuel' t (c :: acc)
      end
  end.

Fixpoint readValue (fuel : nat) (l : list ascii) : option (json * list ascii) :=
  match fuel with
  | O => None
  | S fuel' =>
      let l := skipWs l in
      match l with
      | [] => None
      | c :: t =>
          if chr c 34 then
            '(s, r) ← readString (length t) t []; Some (JStr (GoStrings.str s), r)
          else if chr c 91 then
            match skipWs t with
            | d :: r => if chr d 93 then Some (JArr [], r) else readElems fuel' (d :: r) []
            | [] => None
            end
          else if chr c 123 then
            match skipWs t with
            | d :: r => if chr d 125 then Some (JObj [], r) else readMembers fuel' (d :: r) []
            | [] => None
            end
          else
            match lit "null" l, lit "true" l, lit "false" l with
            | Some r, _, _ => Some (JNull, r)
            | _, Some r, _ => Some (JBool true, r)
            | _, _, Some r => Some (JBool false, r)
            | _, _, _ => '(n, r) ← scanNumber l; Some (JNum (GoStrings.str n), r)
            end
      end
  end
with readElems (fuel : nat) (l : list ascii) (acc : list json) : option (json * list ascii) :=
  match fuel with
  | O => None
  | S fuel' =>
      '(v, r) ← readValue fuel' l;
      match skipWs r with
      | c :: r' =>
          if chr c 44 then readElems fuel' r' (v :: acc)
          else if chr c 93 then Some (JArr (rev (v :: acc)), r')
          else None
      | [] => None
      end
  end
with readMembers (fuel : nat) (l : list ascii) (acc : list (string * json))
    : option (json * list ascii) :=
  match fuel with
  | O => None
  | S fuel' =>
      match skipWs l with
      | q :: t =>
          if chr q 34 then
            '(k, r) ← readString (length t) t [];
            match skipWs r with
            | c :: r1 =>
                if chr c 58 then
                  '(v, r2) ← readValue fuel' r1;
                  match skipWs r2 with
                  | d :: r3 =>
                      if chr d 44 then readMembers fuel' r3 ((GoStrings.str k, v) :: acc)
                      else if chr d 125 then Some (JObj (rev ((GoStrings.str k, v) :: acc)), r3)
                      else None
                  | [] => None
                  end
                else None
            | [] => None
            end
          else None
      | [] => None
      end
  end.

Definition fuelFor (l : list ascii) : nat := 2 * length l + 4.

(** A whole text as one JSON value. *)
Definition parse (text : string) : option json :=
  let l := GoStrings.bytes text in
  '(v, r) ← readValue (fuelFor l) l;
  match skipWs r with [] => Some v | _ => None end.

(** *** Splitting an object or an array into the raw texts of its parts *)

Definition rawOf (before after : list ascii) : string :=
  GoStrings.str (firstn (length before - length after) before).

Definition blank (l : list ascii) : bool :=
  match skipWs l with [] => true | _ => false end.

(** The raw elements of an array, after its opening bracket. With [strict],
    only white space may follow the closing bracket. *)
Fixpoint rawElemsLoop (fuel : nat) (strict : bool) (l : list ascii) (acc : list string)
    : option (list string) :=
  match fuel with
  | O => None
  | S fuel' =>
      let l := skipWs l in
      '(v, r) ← readValue (fuelFor l) l;
      let raw := rawOf l r in
      match skipWs r with
      | c :: r' =>
          if chr c 44 then rawElemsLoop fuel' strict r' (raw :: acc)
          else if chr c 93 then
            if negb strict || blank r' then Some (rev (raw :: acc)) else None
          else None
      | [] => None
      end
  end.

Definition rawElements (text : string) : option (list string) :=
  match skipWs (GoStrings.bytes text) with
  | c :: t =>
      if chr c 91 then
        match skipWs t with
        | d :: r =>
            if chr d 93 then (if blank r then Some [] else None)
            else rawElemsLoop (length t) true (d :: r) []
        | [] => None
        end
      else None
  | [] => None
  end.

Fixpoint rawMembersLoop (fuel : nat) (strict : bool) (l : list ascii)
    (acc : list (string * string)) : option (list (string * string)) :=
  match fuel with
  | O => None
  | S fuel' =>
      match skipWs l with
      | q :: t =>
          if chr q 34 then
            '(k, r) ← readString (length t) t [];
            match skipWs r with
            | c :: r1 =>
                if chr c 58 then
                  let r1 := skipWs r1 in
                  '(v, r2) ← readValue (fuelFor r1) r1;
                  let member := (GoStrings.str k, rawOf r1 r2) in
                  match skipWs r2 with
                  | d :: r3 =>
                      if chr d 44 then rawMembersLoop fuel' strict r3 (member :: acc)
                      else if chr d 125 then
                        if negb strict || blank r3 then Some (rev (member :: acc)) else None
                      else None
                  | [] => None
                  end
                else None
            | [] => None
            end
          else None
      | [] => None
      end
  end.

Definition rawMembersOf (strict : bool) (text : string) : option (list (string * string)) :=
  match skipWs (GoStrings.bytes text) with
  | c :: t =>
      if chr c 123 then
        match skipWs t with
        | d :: r =>
            if chr d 125 then (if negb strict || blank r then Some [] else None)
            else rawMembersLoop (length t) strict (d :: r) []
        | [] => None
        end
      else None
  | [] => None
  end.

Definition isNull (text : string) : bool :=
  match parse text with Some JNull => true | _ => false end.

(** The members that a struct is decoded from: none for [null]. *)
Definition structMembers (text : string) : option (list (string * string)) :=
  if isNull text then Some [] else rawMembersOf true text.

(** *** Decoding into typed targets *)

Definition lower (c : ascii) : ascii :=
  let n := code c in
  if (65 <=? n)%nat && (n <=? 90)%nat then ascii_of_nat (n + 32) else c.

Definition foldEq (k name : string) : bool :=
  String.eqb (GoStrings.str (map lower (GoStrings.bytes k)))
             (GoStrings.str (map lower (GoStrings.bytes name))).

Definition fieldRaws (ms : list (string * string)) (name : string) : list string :=
  map snd (List.filter (fun kv => foldEq (fst kv) name) ms).

Definition getWith {A} (into : A -> string -> option A) (zero : A)
    (ms : list (string * string)) (name : string) : option A :=
  fold_left (fun acc raw => cur ← acc; into cur raw) (fieldRaws ms name) (Some zero).

Definition intoString (cur : string) (raw : string) : option string :=
  match parse raw with
  | Some (JStr s) => Some s
  | Some JNull => Some cur
  | _ => None
  end.

Definition intoStringPtr (cur : option string) (raw : string) : option (option string) :=
  match parse raw with
  | Some (JStr s) => Some (Some s)
  | Some JNull => Some None
  | _ => None
  end.

Definition intoBool (cur : bool) (raw : string) : option bool :=
  match parse raw with
  | Some (JBool b) => Some b
  | Some JNull => Some cur
  | _ => None
  end.

Fixpoint digitsValue (l : list ascii) (acc : Z) : option Z :=
  match l with
  | [] => Some acc
  | c :: t => if isDigit c then digitsValue t (acc * 10 + Z.of_nat (code c - 48))%Z else None
  end.

(** An integer literal within the range of a 64-bit [int]. *)
Definition intLiteral (lit : string) : option Z :=
  n ← match GoStrings.bytes lit with
      | c :: t => if chr c 45 then Z.opp <$> digitsValue t 0%Z else digitsValue (c :: t) 0%Z
      | [] => None
      end;
  if ((- 2 ^ 63 <=? n) && (n <? 2 ^ 63))%Z then Some n else None.

Definition intoInt (cur : Z) (raw : string) : option Z :=
  match parse raw with
  | Some (JNum lit) => intLiteral lit
  | Some JNull => Some cur
  | _ => None
  end.

Definition intoRaw (cur : RawMessage) (raw : string) : option RawMessage := Some raw.

Definition intoMap (cur : JMap) (raw : string) : option JMap :=
  match parse raw with
  | Some (JObj ms) => Some (Some ms)
  | Some JNull => Some cur
  | _ => None
  end.

Definition intoList {A} (dec : string -> option A) (cur : list A) (raw : string)
    : option (list A) :=
  if isNull raw then Some cur else elems ← rawElements raw; mapM dec elems.

(** A nested struct: the members of every occurrence, in order. *)
Definition intoMembers (cur : list (string * string)) (raw : string)
    : option (list (string * string)) :=
  ms ← structMembers raw; Some (cur ++ ms).

Definition getString := getWith intoString "".
Definition getRaw := getWith intoRaw "".
Definition getBool := getWith intoBool false.
Definition getInt := getWith intoInt 0%Z.
Definition getMembers := getWith intoMembers [].
Definition getList {A} (dec : string -> option A) := getWith (intoList dec) [].

Definition decContentBlock (raw : string) : option ContentBlock :=
  ms ← structMembers raw;
  ty ← getString ms "type"; text ← getString ms "text"; id ← getString ms "id";
  name ← getString ms "name"; input ← getRaw ms "input";
  signature ← getString ms "signature"; toolUseId ← getString ms "tool_use_id";
  content ← getRaw ms "content"; isError ← getBool ms "is_error";
  Some {| Blk_Type := ty; Blk_Text := text; Blk_ID := id; Blk_Name := name;
          Blk_Input := input; Blk_Signature := signature; Blk_ToolUseId := toolUseId;
          Blk_Content := content; Blk_IsError := isError |}.

Definition decToolCall (raw : string) : option ToolCall :=
  ms ← structMembers raw;
  id ← getString ms "id"; ty ← getString ms "type"; fn ← getMembers ms "function";
  name ← getString fn "name"; arguments ← getString fn "arguments";
  Some {| Call_ID := id; Call_Type := ty; Call_FunctionName := name;
          Call_FunctionArguments := arguments |}.

Definition decMessage (raw : string) : option GenericMessage :=
  ms ← structMembers raw;
  role ← getString ms "role"; content ← getRaw ms "content";
  toolCalls ← getList decToolCall ms "tool_calls";
  toolCallId ← getString ms "tool_call_id"; name ← getString ms "name";
  Some {| Msg_Role := role; Msg_Content := content; Msg_ToolCalls := toolCalls;
          Msg_ToolCallID := toolCallId; Msg_Name := name |}.

Definition decTool (raw : string) : option GenericTool :=
  ms ← structMembers raw;
  ty ← getString ms "type"; fn ← getMembers ms "function";
  fname ← getString fn "name"; fdesc ← getString fn "description";
  fparams ← getRaw fn "parameters";
  name ← getString ms "name"; desc ← getString ms "description";
  schema ← getRaw ms "input_schema";
  Some {| Tool_Type := ty; Tool_FunctionName := fname; Tool_FunctionDescription := fdesc;
          Tool_FunctionParameters := fparams; Tool_Name := name; Tool_Description := desc;
          Tool_InputSchema := schema |}.

Definition decRequest (text : string) : option GenericRequest :=
  ms ← structMembers text;
  model ← getString ms "model"; system ← getString ms "system";
  messages ← getList decMessage ms "messages"; tools ← getList decTool ms "tools";
  Some {| Req_Model := model; Req_System := system; Req_Messages := messages;
          Req_Tools := tools |}.

Definition decBlocks (raw : RawMessage) : option (list ContentBlock) :=
  _ ← parse raw; intoList decContentBlock [] raw.

Definition decString (raw : RawMessage) : option string := intoString "" raw.

Definition decMap (text : string) : option JMap := intoMap None text.

(** A pointer to a struct: [None] for [null] or an absent member. *)
Definition getPtr {A} (dec : list (string * string) -> option A)
    (ms : list (string * string)) (name : string) : option (option A) :=
  getWith (fun cur raw => if isNull raw then Some None
                          else sub ← rawMembersOf true raw; Some <$> dec sub)
          None ms name.

Definition decFunctionCall (ms : list (string * string)) : option geminiFunctionCall :=
  name ← getString ms "name"; args ← getWith intoMap None ms "args";
  Some {| FC_Name := name; FC_Args := args |}.

Definition decFunctionResponse (ms : list (string * string))
    : option geminiFunctionResponse :=
  name ← getString ms "name"; response ← getWith intoMap None ms "response";
  Some {| FR_Name := name; FR_Response := response |}.

Definition decPart (raw : string) : option GooglePart :=
  ms ← structMembers raw;
  text ← getString ms "text"; fc ← getPtr decFunctionCall ms "functionCall";
  fr ← getPtr decFunctionResponse ms "functionResponse";
  thought ← getBool ms "thought"; sig ← getString ms "thoughtSignature";
  Some {| Text := text; FunctionCall := fc; FunctionResponse := fr; Thought := thought;
          ThoughtSignature := sig |}.

Definition decCandidate (raw : string) : option Candidate :=
  ms ← structMembers raw;
  content ← getMembers ms "content"; parts ← getList decPart content "parts";
  reason ← getString ms "finishReason"; message ← getString ms "finishMessage";
  Some {| Cand_Parts := parts; FinishReason := reason; FinishMessage := message |}.

Definition decGoogleResponse (text : string) : option GoogleResponse :=
  ms ← structMembers text;
  candidates ← getList decCandidate ms "candidates";
  usage ← getMembers ms "usageMetadata";
  prompt ← getInt usage "promptTokenCount";
  cands ← getInt usage "candidatesTokenCount";
  total ← getInt usage "totalTokenCount";
  Some {| Candidates := candidates; PromptTokenCount := prompt;
          CandidatesTokenCount := cands; TotalTokenCount := total |}.

Definition decOpenAIToolCall (raw : string) : option OpenAIToolCall :=
  ms ← structMembers raw;
  id ← getString ms "id"; ty ← getString ms "type"; fn ← getMembers ms "function";
  name ← getString fn "name"; arguments ← getString fn "arguments";
  Some {| OTC_ID := id; OTC_Type := ty; OTC_FunctionName := name;
          OTC_FunctionArguments := arguments |}.

Definition decChoice (raw : string) : option Choice :=
  ms ← structMembers raw;
  message ← getMembers ms "message";
  content ← getWith intoStringPtr None message "content";
  reasoning ← getWith intoStringPtr None message "reasoning_content";
  toolCalls ← getList decOpenAIToolCall message "tool_calls";
  Some {| Ch_Content := content; Ch_ReasoningContent := reasoning;
          Ch_ToolCalls := toolCalls |}.

Definition decOpenAIResponse (text : string) : option OpenAIResponse :=
  ms ← structMembers text;
  choices ← getList decChoice ms "choices";
  usage ← getMembers ms "usage";
  prompt ← getInt usage "prompt_tokens";
  completion ← getInt usage "completion_tokens";
  total ← getInt usage "total_tokens";
  Some {| Choices := choices; PromptTokens := prompt; CompletionTokens := completion;
          TotalTokens := total |}.

(** [Decoder.Decode] into a [CreateCacheResponse], the error dropped: the
    first value of the body is read, and a [name] member that is a string is
    stored. *)
Definition decCreateCacheName (body : string) : string :=
  match rawMembersOf false body with
  | Some ms =>
      fold_left (fun cur raw => match parse raw with Some (JStr s) => s | _ => cur end)
        (fieldRaws ms "name") ""
  | None => ""
  end.

End MiniJson.

(** ** SHA-256 (FIPS 180-4), on 32-bit words held in [N] *)
Module Sha256.
Local Open Scope N_scope.

Definition mask : N := 4294967295.
Definition wrap (x : N) : N := N.land x mask.
Definition plus (x y : N) : N := wrap (x + y).
Definition rotr (n x : N) : N := N.lor (N.shiftr x n) (wrap (N.shiftl x (32 - n))).
Definition neg (x : N) : N := N.lxor x mask.
Definition xor3 (x y z : N) : N := N.lxor (N.lxor x y) z.

Definition choose (x y z : N) : N := N.lxor (N.land x y) (N.land (neg x) z).
Definition majority (x y z : N) : N := xor3 (N.land x y) (N.land x z) (N.land y z).
Definition bigSigma0 (x : N) : N := xor3 (rotr 2 x) (rotr 13 x) (rotr 22 x).
Definition bigSigma1 (x : N) : N := xor3 (rotr 6 x) (rotr 11 x) (rotr 25 x).
Definition smallSigma0 (x : N) : N := xor3 (rotr 7 x) (rotr 18 x) (N.shiftr x 3).
Definition smallSigma1 (x : N) : N := xor3 (rotr 17 x) (rotr 19 x) (N.shiftr x 10).

(** The fractional parts of the cube roots of the first 64 primes. *)
Definition roundConstants : list N :=
  [
   1116352408; 1899447441; 3049323471; 3921009573; 961987163; 1508970993;
   2453635748; 2870763221; 3624381080; 310598401; 607225278; 1426881987;
   1925078388; 2162078206; 2614888103; 3248222580; 3835390401; 4022224774;
   264347078; 604807628; 770255983; 1249150122; 1555081692; 1996064986;
   2554220882; 2821834349; 2952996808; 3210313671; 3336571891; 3584528711;
   113926993; 338241895; 666307205; 773529912; 1294757372; 1396182291;
   1695183700; 1986661051; 2177026350; 2456956037; 2730485921; 2820302411;
   3259730800; 3345764771; 3516065817; 3600352804; 4094571909; 275423344;
   430227734; 506948616; 659060556; 883997877; 958139571; 1322822218;
   1537002063; 1747873779; 1955562222; 2024104815; 2227730452; 2361852424;
   2428436474; 2756734187; 3204031479; 3329325298 ].

(** The fractional parts of the square roots of the first 8 primes. *)
Definition initialHash : list N :=
  [
   1779033703; 3144134277; 1013904242; 2773480762;
   1359893119; 2600822924; 528734635; 1541459225 ].

Definition at_ (l : list N) (i : nat) : N := nth i l 0.

(** The message schedule: [fuel] more words after the ones in [w]. *)
Fixpoint schedule (fuel : nat) (w : list N) : list N :=
  match fuel with
  | O => w
  | S fuel' =>
      let t := length w in
      let next := plus (plus (smallSigma1 (at_ w (t - 2))) (at_ w (t - 7)))
                       (plus (smallSigma0 (at_ w (t - 15))) (at_ w (t - 16))) in
      schedule fuel' (w ++ [next])
  end.

Definition round (st : list N) (kw : N * N) : list N :=
  match st with
  | [a; b; c; d; e; f; g; h] =>
      let t1 := plus (plus (plus h (bigSigma1 e)) (plus (choose e f g) (fst kw))) (snd kw) in
      let t2 := plus (bigSigma0 a) (majority a b c) in
      [plus t1 t2; a; b; c; plus d t1; e; f; g]
  | _ => st
  end.

Definition compress (hash block : list N) : list N :=
  let w := schedule 48 block in
  let out := fold_left round (combine roundConstants w) hash in
  map (fun p => plus (fst p) (snd p)) (combine hash out).

Fixpoint bigEndian (count : nat) (x : N) : list N :=
  match count with
  | O => []
  | S count' => bigEndian count' (N.shiftr x 8) ++ [N.land x 255]
  end.

Definition pad (msg : list N) : list N :=
  let len := N.of_nat (length msg) in
  let zeros := N.to_nat ((119 - len mod 64) mod 64) in
  msg ++ [128] ++ repeat 0 zeros ++ bigEndian 8 (8 * len).

Fixpoint words (fuel : nat) (l : list N) : list N :=
  match fuel, l with
  | S fuel', a :: b :: c :: d :: t =>
      (N.shiftl a 24 + N.shiftl b 16 + N.shiftl c 8 + d) :: words fuel' t
  | _, _ => []
  end.

Fixpoint blocks (fuel : nat) (w : list N) (hash : list N) : list N :=
  match fuel, w with
  | S fuel', _ :: _ => blocks fuel' (skipn 16 w) (compress hash (firstn 16 w))
  | _, _ => hash
  end.

Definition hexDigit (d : N) : ascii :=
  if d <? 10 then ascii_of_N (48 + d) else ascii_of_N (87 + d).

Definition hexByte (b : N) : list ascii := [hexDigit (b / 16); hexDigit (b mod 16)].

Definition sum (msg : string) : list N :=
  let bytes := map N_of_ascii (GoStrings.bytes msg) in
  let w := words (length bytes + 72) (pad bytes) in
  blocks (length w) w initialHash.

Definition hexdigest (msg : string) : string :=
  GoStrings.str (flat_map (fun w => flat_map hexByte (bigEndian 4 w)) (sum msg)).

End Sha256.

(** ** The remaining library functions, concretely *)
Module GoRuntime.
Import MiniJson.

(** *** [json.Marshal] of the Gemini contents and tools

    Keys of a map are written in sorted order, the last of equal keys; empty
    fields marked [omitempty] are left out; [<], [>] and [&] are escaped.
    A number is written as its literal. *)

Definition hexDigit (d : nat) : ascii :=
  if (d <? 10)%nat then ascii_of_nat (48 + d) else ascii_of_nat (87 + d).

Definition escapeByte (c : ascii) : string :=
  let n := code c in
  if chr c 34 then "\" +:+ quote
  else if chr c 92 then "\\"
  else if chr c 10 then "\n"
  else if chr c 13 then "\r"
  else if chr c 9 then "\t"
  else if (n <? 32)%nat || chr c 60 || chr c 62 || chr c 38 then
    "\u00" +:+ String (hexDigit (n / 16)) (String (hexDigit (n mod 16)) "")
  else String c "".

Definition renderString (s : string) : string :=
  quote +:+ String.concat "" (map escapeByte (GoStrings.bytes s)) +:+ quote.

Fixpoint insertKey (kv : string * string) (l : list (string * string))
    : list (string * string) :=
  match l with
  | [] => [kv]
  | kv' :: t =>
      if String.eqb (fst kv) (fst kv') then kv :: t
      else if String.ltb (fst kv) (fst kv') then kv :: l
      else kv' :: insertKey kv t
  end.

Definition sortedMembers (ms : list (string * string)) : list (string * string) :=
  fold_left (fun acc kv => insertKey kv acc) ms [].

Definition renderMembers (ms : list (string * string)) : string :=
  "{" +:+ String.concat ","
            (map (fun kv => renderString (fst kv) +:+ ":" +:+ snd kv) (sortedMembers ms))
  +:+ "}".

Fixpoint render (v : json) : string :=
  match v with
  | JNull => "null"
  | JBool true => "true"
  | JBool false => "false"
  | JNum lit => lit
  | JStr s => renderString s
  | JArr elems => "[" +:+ String.concat "," (map render elems) +:+ "]"
  | JObj members =>
      renderMembers (map (fun kv => match kv with (k, w) => (k, render w) end) members)
  end.

Definition renderMap (m : JMap) : string :=
  match m with
  | None => "null"
  | Some members => render (JObj members)
  end.

(** The fields of a struct, in declaration order: [None] is a field left
    out. *)
Definition renderStruct (fields : list (option (string * string))) : string :=
  "{" +:+ String.concat ","
            (map (fun kv => renderString (fst kv) +:+ ":" +:+ snd kv) (omap id fields))
  +:+ "}".

Definition renderList {A} (f : A -> string) (l : list A) : string :=
  "[" +:+ String.concat "," (map f l) +:+ "]".

Definition field (name value : string) : option (string * string) := Some (name, value).

Definition fieldIf (keep : bool) (name value : string) : option (string * string) :=
  if keep then Some (name, value) else None.

(** A [RawMessage] is written compacted. *)
Definition compact (raw : RawMessage) : string :=
  match parse raw with
  | Some v => render v
  | None => raw
  end.

Definition renderPart (p : GooglePart) : string :=
  renderStruct
    [ fieldIf (negb (strEmpty (Text p))) "text" (renderString (Text p));
      match FunctionCall p with
      | Some fc =>
          field "functionCall"
            (renderStruct [field "name" (renderString (FC_Name fc));
                           field "args" (renderMap (FC_Args fc))])
      | None => None
      end;
      match FunctionResponse p with
      | Some fr =>
          field "functionResponse"
            (renderStruct [field "name" (renderString (FR_Name fr));
                           field "response" (renderMap (FR_Response fr))])
      | None => None
      end;
      fieldIf (Thought p) "thought" "true";
      fieldIf (negb (strEmpty (ThoughtSignature p))) "thoughtSignature"
        (renderString (ThoughtSignature p)) ].

Definition renderContent (c : GoogleContent) : string :=
  renderStruct
    [ fieldIf (negb (strEmpty (Role c))) "role" (renderString (Role c));
      field "parts" (renderList renderPart (Parts c)) ].

Definition renderContents (contents : list GoogleContent) : string :=
  renderList renderContent contents.

Definition renderDeclaration (d : geminiFunctionDeclaration) : string :=
  renderStruct
    [ field "name" (renderString (FD_Name d));
      fieldIf (negb (strEmpty (FD_Description d))) "description"
        (renderString (FD_Description d));
      fieldIf (0 <? String.length (FD_Parameters d))%nat "parameters"
        (compact (FD_Parameters d)) ].

Definition renderTool (t : geminiTool) : string :=
  renderStruct
    [ field "functionDeclarations" (renderList renderDeclaration (FunctionDeclarations t)) ].

(** A nil slice is written [null]. *)
Definition renderTools (tools : list geminiTool) : string :=
  match tools with
  | [] => "null"
  | _ => renderList renderTool tools
  end.

(** *** The one regular expression of the program

    [ReplaceAllString] is given for the timestamp pattern, whose matches are
    read by hand: the literal, a date, a parenthesised run of bytes other
    than the closing parenthesis, and a time.  Matches are replaced from the
    left and do not overlap; the replacement has no [$]. *)

Fixpoint digits (count : nat) (l : list ascii) : option (list ascii) :=
  match count, l with
  | O, _ => Some l
  | S count', c :: t => if isDigit c then digits count' t else None
  | S _, [] => None
  end.

Definition one (n : nat) (l : list ascii) : option (list ascii) :=
  match l with
  | c :: t => if chr c n then Some t else None
  | [] => None
  end.

Fixpoint untilParen (l : list ascii) : list ascii :=
  match l with
  | c :: t => if chr c 41 then l else untilParen t
  | [] => []
  end.

Definition weekday (l : list ascii) : option (list ascii) :=
  match l with
  | c :: t => if chr c 41 then None else Some (untilParen t)
  | [] => None
  end.

Definition matchTimestamp (l : list ascii) : option (list ascii) :=
  l ← lit "Current date and time: " l;
  l ← digits 4 l; l ← one 45 l; l ← digits 2 l; l ← one 45 l; l ← digits 2 l;
  l ← one 32 l; l ← one 40 l; l ← weekday l; l ← one 41 l; l ← one 32 l;
  l ← digits 2 l; l ← one 58 l; l ← digits 2 l; l ← one 58 l; digits 2 l.

Fixpoint replaceTimestamps (fuel : nat) (l repl : list ascii) : list ascii :=
  match fuel with
  | O => l
  | S fuel' =>
      match matchTimestamp l with
      | Some rest => repl ++ replaceTimestamps fuel' rest repl
      | None =>
          match l with
          | c :: t => c :: replaceTimestamps fuel' t repl
          | [] => []
          end
      end
  end.

Definition replaceAllString (pattern src repl : string) : string :=
  if String.eqb pattern Gemini.timestampPattern then
    GoStrings.str (replaceTimestamps (S (String.length src)) (GoStrings.bytes src)
                     (GoStrings.bytes repl))
  else src.

(** *** The instances *)

Definition jsonCodec : EncodingJson :=
  {| Valid := fun text => match parse text with Some _ => true | None => false end;
     Unmarshal_GenericRequest := decRequest;
     Unmarshal_ContentBlocks := decBlocks;
     Unmarshal_string := decString;
     Unmarshal_map := decMap;
     Unmarshal_GoogleResponse := decGoogleResponse;
     Unmarshal_OpenAIResponse := decOpenAIResponse;
     Decode_CreateCacheName := decCreateCacheName;
     Marshal_Contents := renderContents;
     Marshal_Tools := renderTools |}.

Definition hashing : Hashing :=
  {| sha256_hex := Sha256.hexdigest;
     ReplaceAllString := replaceAllString |}.

(** JSON text written with single quotes: every ['] stands for a double
    quote. *)
Definition js (s : string) : string :=
  GoStrings.str (map (fun c => if chr c 39 then ascii_of_nat 34 else c) (GoStrings.bytes s)).

End GoRuntime.

(** ** Statements about the Gemini request *)

(** No two neighbours of a list of roles are equal. *)
Fixpoint noRepeat (roles : list string) : Prop :=
  match roles with
  | a :: (b :: _) as rest => a ≠ b ∧ noRepeat rest
  | _ => True
  end.

(** Turn validity, as the wire format asks for it: the first turn is not a
    model turn and neighbouring turns differ in role. *)
Definition firstNotModel (contents : list GoogleContent) : Prop :=
  ∀ c, contents !! 0%nat = Some c → Role c ≠ "model".



Definition nonEmptyTurns (contents : list GoogleContent) : Prop :=
  Forall (fun c => Parts c ≠ []) contents.

Section GeminiRequest.
Context {json_lib : EncodingJson} {hash_lib : Hashing}.

(** The parts one client message contributes. *)
Definition messageParts (sigs toolIdToName : gmap string string) (m : GenericMessage)
    : list GooglePart :=
  match Gemini.translateMessage sigs toolIdToName m with
  | Some (_, parts) => parts
  | None => []
  end.

(** The requests of the generate calls among [calls]. *)
Definition generated (calls : list Gemini.UpstreamCall) : list GoogleRequest :=
  omap (fun c => match c with
                 | Gemini.CallGenerate _ _ req => Some req
                 | _ => None
                 end) calls.

(** The credential an outbound call carries. *)
Definition callKey (c : Gemini.UpstreamCall) : string :=
  match c with
  | Gemini.CallDeleteCache _ key => key
  | Gemini.CallCreateCache _ key => key
  | Gemini.CallGenerate _ key _ => key
  end.


(** What the message loop keeps true. *)
Record loopInvariant (sigs toolIdToName : gmap string string)
    (done : list GenericMessage) (contents : list GoogleContent) : Prop := {
  inv_roles : noRepeat (map Role contents);
  inv_parts : nonEmptyTurns contents;
  inv_flat : flat_map Parts contents = flat_map (messageParts sigs toolIdToName) done
}.

Definition cacheCall (key : string) (c : Gemini.UpstreamCall) : Prop :=
  callKey c = key ∧ match c with Gemini.CallGenerate _ _ _ => False | _ => True end.





(** The two ways of a handler run that parsed its body. *)
Inductive parsedRun (cfg : Gemini.Config) (up : Gemini.Upstream) (st : Gemini.State)
    (now : Z) (r : Gemini.HttpRequest) (genReq : GenericRequest) (o : Gemini.Outcome)
    : Prop :=
  | RunTooLarge gReq1 made cache' clock1 :
      Gemini.cacheStage cfg up (Gemini.resolveKey cfg r) genReq
        (Gemini.buildGoogleRequest (Gemini.signatureCache st) genReq)
        (Gemini.contextCache st) now = (gReq1, made, cache', clock1) →
      Gemini.tpmLimiter st ≠ None →
      Gemini.reply o = HttpError "Request too large for TPM limit" 429 →
      Gemini.calls o = made →
      Gemini.signatureCache (Gemini.final o) = Gemini.signatureCache st →
      parsedRun cfg up st now r genReq o
  | RunDispatched gReq1 made cache' clock1 gOut st2 clock2 est :
      Gemini.cacheStage cfg up (Gemini.resolveKey cfg r) genReq
        (Gemini.buildGoogleRequest (Gemini.signatureCache st) genReq)
        (Gemini.contextCache st) now = (gReq1, made, cache', clock1) →
      (Gemini.tpmLimiter st = None ∧ gOut = gReq1
       ∨ Gemini.tpmLimiter st ≠ None ∧ gOut = Gemini.withGenerationConfig gReq1) →
      Gemini.signatureCache st2 = Gemini.signatureCache st →
      o = Gemini.dispatch up st2 clock2 made (Gemini.resolveKey cfg r) genReq gOut est →
      parsedRun cfg up st now r genReq o.

End GeminiRequest.


(** ** Concrete runs, with the concrete codec and SHA-256 *)
Module Examples.
Import GoRuntime.

Definition run (cfg : Gemini.Config) (up : Gemini.Upstream) (st : Gemini.State) (now : Z)
    (r : Gemini.HttpRequest) : option Gemini.Outcome :=
  @Gemini.handleProxy jsonCodec hashing cfg up 2 st now r.

Definition freshState : Gemini.State :=
  {| Gemini.signatureCache := ∅;
     Gemini.contextCache := ∅;
     Gemini.throttleUntil := 0;
     Gemini.throttleLastReq := 0;
     Gemini.tpmLimiter := None |}.

Definition plain : Gemini.Config := {| Gemini.cacheMode := false; Gemini.apiKey := "default-key" |}.
Definition caching : Gemini.Config := {| Gemini.cacheMode := true; Gemini.apiKey := "default-key" |}.

(** A request without credential headers. *)
Definition post (body : string) : Gemini.HttpRequest :=
  {| Gemini.Authorization := ""; Gemini.x_api_key := ""; Gemini.Body := js body |}.

(** An upstream that answers 200 to every call: [created] to a cache
    creation, [generatedBody] to a generate call. *)
Definition answering (created generatedBody : string) : Gemini.Upstream :=
  {| Gemini.respond := fun call =>
       match call with
       | Gemini.CallCreateCache _ _ => HttpResponse 200 (js created)
       | Gemini.CallDeleteCache _ _ => HttpResponse 200 ""
       | Gemini.CallGenerate _ _ _ => HttpResponse 200 (js generatedBody)
       end;
     Gemini.latency := fun _ => 1000000%Z;
     Gemini.newRequest := fun _ _ => true |}.

Definition helloAnswer : string :=
  "{'candidates':[{'content':{'parts':[{'text':'hello'}]}}],'usageMetadata':{'promptTokenCount':5,'candidatesTokenCount':1,'totalTokenCount':6}}".

Definition noOutcome : Gemini.Outcome :=
  {| Gemini.reply := HttpError "" 0; Gemini.calls := []; Gemini.final := freshState;
     Gemini.finished := 0 |}.

Definition noRequest : GoogleRequest :=
  {| Contents := []; Tools := []; SystemInstruction := None; CachedContent := "";
     GenerationConfig_ := None |}.

Definition outcomeOf (o : option Gemini.Outcome) : Gemini.Outcome := default noOutcome o.

Definition requestOf (o : option Gemini.Outcome) : GoogleRequest :=
  hd noRequest (generated (Gemini.calls (outcomeOf o))).


(** A conversation that begins and ends with an assistant message, between
    them two user messages in a row and an empty one. *)
Definition resumed : string :=
  "{'model':'m','messages':[{'role':'assistant','content':'resuming'},{'role':'user','content':'a'},{'role':'user','content':''},{'role':'user','content':'b'},{'role':'assistant','content':'c'}]}".

(** A system prompt, a user message and an assistant message. *)
Definition prefilled : string :=
  "{'model':'m','system':'S','messages':[{'role':'user','content':'a'},{'role':'assistant','content':'b'}]}".

Definition cacheCreated : string := "{'name':'cachedContents/c1'}".

(** The two runs: the resumed conversation without [--cache], the prefilled
    one with it. *)
Definition resumedRun : option Gemini.Outcome :=
  run plain (answering cacheCreated helloAnswer) freshState 0 (post resumed).

Definition prefilledRun : option Gemini.Outcome :=
  run caching (answering cacheCreated helloAnswer) freshState 0 (post prefilled).

End Examples.

(** ** A tool round trip, for the signature cache *)
Module RoundTrip.
Import GoRuntime Examples.

(** The upstream answers with a function call that carries a signature. *)
Definition callAnswer : string :=
  "{'candidates':[{'content':{'parts':[{'functionCall':{'name':'bash','args':{'cmd':'ls'}},'thoughtSignature':'SIG'}]}}],'usageMetadata':{'promptTokenCount':7,'candidatesTokenCount':3,'totalTokenCount':10}}".

Definition callPart : GooglePart :=
  {| Text := "";
     FunctionCall := Some {| FC_Name := "bash"; FC_Args := Some [("cmd", JStr "ls")] |};
     FunctionResponse := None; Thought := false; ThoughtSignature := "SIG" |}.



Definition firstTurn : string :=
  "{'model':'m','messages':[{'role':'user','content':'list the files'}]}".

(** The client echoes the tool use without its signature and adds the
    result. *)
Definition secondTurn : string :=
  "{'model':'m','messages':[{'role':'user','content':'list the files'},{'role':'assistant','content':[{'type':'tool_use','id':'call_function_1700000000_1','name':'bash','input':{'cmd':'ls'}}]},{'role':'user','content':[{'type':'tool_result','tool_use_id':'call_function_1700000000_1','content':'file1'}]}]}".

Definition startedAt : Z := 1700000000 * Second.

Definition firstRun : option Gemini.Outcome :=
  run plain (answering cacheCreated callAnswer) freshState startedAt (post firstTurn).

Definition secondRun : option Gemini.Outcome :=
  run plain (answering cacheCreated helloAnswer) (Gemini.final (outcomeOf firstRun))
    (startedAt + 5 * Second) (post secondTurn).







Definition emptyRequest : GenericRequest :=
  {| Req_Model := "m"; Req_System := ""; Req_Messages := []; Req_Tools := [] |}.

Definition echoBlock : ContentBlock :=
  {| Blk_Type := "tool_use"; Blk_Text := ""; Blk_ID := "call_function_1700000000_1";
     Blk_Name := "bash"; Blk_Input := js "{'cmd':'ls'}"; Blk_Signature := "";
     Blk_ToolUseId := ""; Blk_Content := ""; Blk_IsError := false |}.

Definition echoMessage : GenericMessage :=
  {| Msg_Role := "assistant";
     Msg_Content := js "[{'type':'tool_use','id':'call_function_1700000000_1','name':'bash','input':{'cmd':'ls'}}]";
     Msg_ToolCalls := []; Msg_ToolCallID := ""; Msg_Name := "" |}.

End RoundTrip.

(** ** Runs against an existing cache entry *)
Module Cached.
Import GoRuntime Examples.

(** The state the prefilled run leaves: one entry, made of the user turn. *)
Definition seeded : Gemini.State := Gemini.final (outcomeOf prefilledRun).

Definition seededKey : string := @Gemini.computeCacheKey jsonCodec hashing "S" [].

Definition noEntry : Gemini.CacheEntry :=
  {| Gemini.CE_Name := ""; Gemini.ExpireAt := 0; Gemini.CachedCount := 0;
     Gemini.CachedDigest := "" |}.

Definition seededEntry : Gemini.CacheEntry :=
  default noEntry (Gemini.contextCache seeded !! seededKey).



Definition later : Z := 60 * Second.



(** The continued request, decoded. *)
Definition continuedRequest : GenericRequest :=
  let message role content :=
    {| Msg_Role := role; Msg_Content := js content; Msg_ToolCalls := [];
       Msg_ToolCallID := ""; Msg_Name := "" |} in
  {| Req_Model := "m"; Req_System := "S";
     Req_Messages := [message "user" "'a'"; message "assistant" "'b'"; message "user" "'c'"];
     Req_Tools := [] |}.

Definition userTurn (t : string) : GoogleContent :=
  {| Role := "user"; Parts := [Gemini.textPart t] |}.



End Cached.

(** ** A bucket of 900000 tokens per minute, full at instant 0 *)
Module Bucket.

Definition full : TokenBucketLimiter := NewTokenBucketLimiter 900000 0.

Definition admittedAt : Z := 2 * Second.

(** The bucket after a request estimated at 100 tokens is admitted. *)
Definition charged : TokenBucketLimiter := fst (Consume full admittedAt 100).

End Bucket.

(** ** Answers of the upstream, for the decoder *)
Module Answers.
Import GoRuntime.

Definition thought (t : string) : GooglePart :=
  {| Text := t; FunctionCall := None; FunctionResponse := None; Thought := true;
     ThoughtSignature := "" |}.

(** Two thought parts in one candidate. *)
Definition twoThoughts : Candidate :=
  {| Cand_Parts := [thought "first"; thought "second"]; FinishReason := "STOP";
     FinishMessage := "" |}.

(** A candidate that ended in a malformed function call. *)
Definition malformed (parts : list GooglePart) (finishMessage : string) : Candidate :=
  {| Cand_Parts := parts; FinishReason := "MALFORMED_FUNCTION_CALL";
     FinishMessage := finishMessage |}.

Definition bashMessage : string := js "Malformed function call: call:bash(  {'cmd':'ls'})".
Definition feishuMessage : string := js "call:feishu:send_text{msg:'hi'}".

End Answers.

(** ** Requests to the OpenAI relay *)
Module OpenAIExamples.

Definition noKey : OpenAI.Config := {| OpenAI.apiKey := ""; OpenAI.baseURL := "http://upstream/v1/chat/completions" |}.

Definition idle : OpenAI.State := {| OpenAI.tpmLimiter := None; OpenAI.adaptiveRatio := 1 |}.

Definition silent : OpenAI.Upstream :=
  {| OpenAI.respond := fun _ => TransportError "unreachable"; OpenAI.latency := fun _ => 0%Z;
     OpenAI.newRequest := fun _ _ => true;
     OpenAI.lag := fun _ => 1000000%Z |}.

(** A body that is not JSON, without and with a credential header. *)
Definition anonymous : OpenAI.HttpRequest :=
  {| OpenAI.Authorization := ""; OpenAI.x_api_key := ""; OpenAI.Body := "not json" |}.

Definition authorised : OpenAI.HttpRequest :=
  {| OpenAI.Authorization := "Bearer sk-1"; OpenAI.x_api_key := ""; OpenAI.Body := "not json" |}.

End OpenAIExamples.

(** ** Statements about signatures and decoding *)

Definition isCall (p : GooglePart) : bool :=
  match FunctionCall p with Some _ => true | None => false end.

(** The number of function calls among [parts]. *)
Definition countCalls (parts : list GooglePart) : nat := length (List.filter isCall parts).


(** A thought part that carries text. *)
Definition isThoughtText (p : GooglePart) : bool := Thought p && negb (strEmpty (Text p)).

(** The text of the last thought part with text, empty when there is none. *)
Definition lastThought (parts : list GooglePart) : string :=
  match last (List.filter isThoughtText parts) with
  | Some p => Text p
  | None => ""
  end.

Definition isThinking (b : OutBlock) : bool :=
  match b with ThinkingBlock _ _ => true | _ => false end.

(** The request of a hit: the handle, the turns after the cached ones,
    neither system instruction nor tools. *)
Definition hitRequest (gReq : GoogleRequest) (entry : Gemini.CacheEntry) : GoogleRequest :=
  {| Contents := skipn (Gemini.CachedCount entry) (Contents gReq);
     Tools := [];
     SystemInstruction := None;
     CachedContent := Gemini.CE_Name entry;
     GenerationConfig_ := GenerationConfig_ gReq |}.




(** ** Statements about the token bucket *)

(** The level of the bucket at [now], after the refill that [Consume] does
    first. *)
Definition refilled (tb : TokenBucketLimiter) (now : Z) : Q :=
  Qmin (maxCapacity tb)
       (currentTokens tb + Seconds (now - lastUpdateTime tb) * tokensPerSecond tb)%Q.

(** ** The throttle gate under several requests

    A request passes the gate of section 2.1 in one or two critical sections
    of [throttleMu]: on arrival it reads the state and either goes on (marking
    [throttleLastReq] when the throttle is active) or decides how long to
    sleep; the lock is released while it sleeps, and on waking it takes the
    lock again and marks [throttleLastReq].  [Exhausted] is the 429 branch
    that activates the throttle. *)
Inductive GateAction :=
  | Exhausted (now : Z)
  | Arrives (id : nat) (now : Z)
  | Wakes (id : nat) (now : Z).

Record Gate := {
  gateState : Gemini.State;
  gateClock : Z;
  sleeping : list (nat * Z);
  dispatched : list (nat * Z)
}.

Definition actionTime (a : GateAction) : Z :=
  match a with
  | Exhausted now => now
  | Arrives _ now => now
  | Wakes _ now => now
  end.

Definition isSleeper (id : nat) (s : nat * Z) : bool := Nat.eqb (fst s) id.

(** One action on the gate; [None] when the action cannot happen: the clock
    would go back, a request would wake that does not sleep or before its
    sleep is over, or, with [oneAtATime], a request would arrive while
    another one sleeps in the gate. *)
Definition gateAct (oneAtATime : bool) (g : Gate) (a : GateAction) : option Gate :=
  if (actionTime a <? gateClock g)%Z then None
  else
    match a with
    | Exhausted now =>
        Some {| gateState := Gemini.throttleActivate (gateState g) now;
                gateClock := now;
                sleeping := sleeping g;
                dispatched := dispatched g |}
    | Arrives id now =>
        if oneAtATime && (0 <? length (sleeping g))%nat then None
        else if Gemini.throttleActive (gateState g) now then
          let wait := Gemini.throttleWait (gateState g) now in
          if (0 <? wait)%Z then
            Some {| gateState := gateState g;
                    gateClock := now;
                    sleeping := sleeping g ++ [(id, (now + wait)%Z)];
                    dispatched := dispatched g |}
          else
            Some {| gateState := Gemini.throttleMark (gateState g) now;
                    gateClock := now;
                    sleeping := sleeping g;
                    dispatched := dispatched g ++ [(id, now)] |}
        else
          Some {| gateState := gateState g;
                  gateClock := now;
                  sleeping := sleeping g;
                  dispatched := dispatched g ++ [(id, now)] |}
    | Wakes id now =>
        match List.find (isSleeper id) (sleeping g) with
        | Some (_, deadline) =>
            if (now <? deadline)%Z then None
            else
              Some {| gateState := Gemini.throttleMark (gateState g) now;
                      gateClock := now;
                      sleeping := List.filter (fun s => negb (isSleeper id s)) (sleeping g);
                      dispatched := dispatched g ++ [(id, now)] |}
        | None => None
        end
    end.

Fixpoint gateRun (oneAtATime : bool) (g : Gate) (actions : list GateAction) : option Gate :=
  match actions with
  | [] => Some g
  | a :: rest =>
      match gateAct oneAtATime g a with
      | Some g' => gateRun oneAtATime g' rest
      | None => None
      end
  end.

(** The gate right after a 429 with the literal at instant [t]. *)
Definition exhaustedAt (st : Gemini.State) (t : Z) : Gate :=
  {| gateState := Gemini.throttleActivate st t;
     gateClock := t;
     sleeping := [];
     dispatched := [] |}.

(** Dispatches before [horizon] are at least 61 seconds after every earlier
    one. *)
Fixpoint spaced (horizon : Z) (times : list Z) : Prop :=
  match times with
  | [] => True
  | t1 :: later =>
      (∀ t2, In t2 later → (t2 < horizon)%Z → (t1 + 61 * Second ≤ t2)%Z) ∧ spaced horizon later
  end.

(** The race.  The throttle is activated at instant 0.  Two requests arrive
    one and two seconds later; each reads the same [throttleLastReq] and goes
    to sleep until second 61, the lock being free while they sleep.  Both
    wake then and are dispatched one nanosecond apart, within the 30
    minutes. *)
Definition racing : list GateAction :=
  [ Arrives 1 (1 * Second); Arrives 2 (2 * Second);
    Wakes 1 (61 * Second); Wakes 2 (61 * Second + 1) ].


(** What holds of a gate through which requests pass one at a time, [horizon]
    being 30 minutes after the first activation. *)
Record gateInvariant (horizon : Z) (g : Gate) : Prop := {
  inv_until : (horizon ≤ Gemini.throttleUntil (gateState g))%Z;
  inv_clock : (horizon - 30 * Minute ≤ gateClock g)%Z;
  inv_past : ∀ id d, In (id, d) (dispatched g) → (d ≤ gateClock g)%Z;
  inv_marked : ∀ id d, In (id, d) (dispatched g) → (d < horizon)%Z →
               (d ≤ Gemini.throttleLastReq (gateState g))%Z;
  inv_single : (length (sleeping g) ≤ 1)%nat;
  inv_sleep : ∀ id deadline id' d, In (id, deadline) (sleeping g) →
              In (id', d) (dispatched g) → (d < horizon)%Z → (d + 61 * Second ≤ deadline)%Z;
  inv_spaced : spaced horizon (map snd (dispatched g))
}.

(** ** The operations on a token bucket, in sequence *)

(** One call of a method of [TokenBucketLimiter]: [Consume] at an instant,
    [Refund], [ConsumeExtra]. *)
Inductive BucketOp :=
  | OpConsume (now : Z) (tokenCount : Q)
  | OpRefund (amount : Q)
  | OpConsumeExtra (amount : Q).

Definition applyOp (tb : TokenBucketLimiter) (op : BucketOp) : TokenBucketLimiter :=
  match op with
  | OpConsume now tokenCount => fst (Consume tb now tokenCount)
  | OpRefund amount => Refund tb amount
  | OpConsumeExtra amount => ConsumeExtra tb amount
  end.

Definition runOps (tb : TokenBucketLimiter) (ops : list BucketOp) : TokenBucketLimiter :=
  fold_left applyOp ops tb.

(** The amounts the handlers pass to [Consume] and [ConsumeExtra] are not
    negative; [Refund] takes any amount. *)
Definition chargesNonNegative (op : BucketOp) : Prop :=
  match op with
  | OpConsume _ tokenCount => (0 <= tokenCount)%Q
  | OpRefund _ => True
  | OpConsumeExtra amount => (0 <= amount)%Q
  end.

(** A bucket as [main] makes it for [--tpm 600], and the operations of two
    requests on it. *)
Module BucketRuns.

Definition fresh : TokenBucketLimiter := NewTokenBucketLimiter 600 0.

Definition twoRequests : list BucketOp :=
  [ OpConsume (1 * Second) 100; OpConsumeExtra 50; OpConsume (2 * Second) 500;
    OpRefund 700 ].

(** A bucket that holds 100 of its 600 tokens. *)
Definition low : TokenBucketLimiter :=
  {| maxCapacity := 600; tokensPerSecond := 10; currentTokens := 100; lastUpdateTime := 0 |}.

End BucketRuns.

(** ** Statements about the OpenAI request *)

Definition hasRole (role : string) (m : OpenAIMessage) : bool := String.eqb (OM_Role m) role.

Definition fromAssistant (m : GenericMessage) : bool := String.eqb (Msg_Role m) "assistant".

(** Runs of the OpenAI relay with a limiter of 600 tokens per minute. *)
Module OpenAIRuns.
Import GoRuntime.

Definition metered : OpenAI.State :=
  {| OpenAI.tpmLimiter := Some (NewTokenBucketLimiter 600 0); OpenAI.adaptiveRatio := 1 |}.

Definition answering (body : string) : OpenAI.Upstream :=
  {| OpenAI.respond := fun _ => HttpResponse 200 (js body);
     OpenAI.latency := fun _ => 1000000%Z;
     OpenAI.newRequest := fun _ _ => true;
     OpenAI.lag := fun _ => 1000000%Z |}.

Definition hiAnswer : string :=
  "{'choices':[{'message':{'content':'hi'}}],'usage':{'prompt_tokens':20,'completion_tokens':10,'total_tokens':30}}".

Definition ask : OpenAI.HttpRequest :=
  {| OpenAI.Authorization := "Bearer sk-1"; OpenAI.x_api_key := "";
     OpenAI.Body := js "{'model':'m','system':'S','messages':[{'role':'user','content':'hello'}]}" |}.

Definition run : option OpenAI.Outcome :=
  @OpenAI.handleProxy jsonCodec OpenAIExamples.noKey (answering hiAnswer) 2 metered 0 ask.

(** The same request when the bucket is empty: it has to wait. *)
Definition drained : OpenAI.State :=
  {| OpenAI.tpmLimiter := Some (ConsumeExtra (NewTokenBucketLimiter 600 0) 600);
     OpenAI.adaptiveRatio := 1 |}.

Definition waitingRun (fuel : nat) : option OpenAI.Outcome :=
  @OpenAI.handleProxy jsonCodec OpenAIExamples.noKey (answering hiAnswer) fuel drained 0 ask.

End OpenAIRuns.

(** Two requests that pass the gate one after the other, after an
    activation at instant 0: each finds the throttle active and sleeps to the
    61st second after the dispatch before. *)
Definition serial : list GateAction :=
  [ Arrives 1 (1 * Second); Wakes 1 (61 * Second);
    Arrives 2 (62 * Second); Wakes 2 (122 * Second) ].

(** A run that the upstream answers with the 429 of an exhausted quota. *)
Module ThrottleRuns.
Import GoRuntime.

Definition exhausted : Gemini.Upstream :=
  {| Gemini.respond := fun _ =>
       HttpResponse 429 "{'error':{'message':'Resource has been exhausted (e.g. check quota).'}}";
     Gemini.latency := fun _ => 1000000%Z;
     Gemini.newRequest := fun _ _ => true |}.

Definition run : option Gemini.Outcome :=
  Examples.run Examples.plain exhausted Examples.freshState 0 (Examples.post Examples.resumed).

End ThrottleRuns.

(** ** Statements about the decoded reply *)

(** The id of a tool-use block, empty for the other blocks. *)
Definition blockId (b : OutBlock) : string :=
  match b with
  | ToolUseBlock id _ _ _ => id
  | ToolUseRawBlock id _ _ => id
  | _ => ""
  end.

Definition isToolUseOut (b : OutBlock) : bool :=
  match b with
  | ToolUseBlock _ _ _ _ => true
  | ToolUseRawBlock _ _ _ => true
  | _ => false
  end.

Definition isTextOut (b : OutBlock) : bool :=
  match b with TextBlock _ => true | _ => false end.

(** The texts of the parts that are not thoughts, one after the other. *)
Fixpoint plainText (parts : list GooglePart) : string :=
  match parts with
  | [] => ""
  | p :: rest => (if Thought p then "" else Text p) +:+ plainText rest
  end.

(** A candidate with a thought, two texts and a function call between
    them. *)
Module Replies.

Definition mixed : Candidate :=
  {| Cand_Parts := [Answers.thought "plan"; Gemini.textPart "a"; RoundTrip.callPart;
                    Gemini.textPart "b"];
     FinishReason := "STOP"; FinishMessage := "" |}.

End Replies.

(** ** Statements about the names of tools *)

Section ToolNames.
Context {json_lib : EncodingJson}.

(** An assistant message of [messages] announces the function [name] under
    the tool-use [id]: in a [tool_use] block of its content or in one of its
    [tool_calls]. *)
Definition announces (m : GenericMessage) (id name : string) : Prop :=
  Msg_Role m = "assistant"
  ∧ ((∃ blocks block, Unmarshal_ContentBlocks (Msg_Content m) = Some blocks
        ∧ In block blocks ∧ Blk_Type block = "tool_use"
        ∧ Blk_ID block = id ∧ Blk_Name block = name)
     ∨ (∃ tc, In tc (Msg_ToolCalls m) ∧ Call_ID tc = id ∧ Call_FunctionName tc = name)).

Definition announced (messages : list GenericMessage) (id name : string) : Prop :=
  ∃ m, In m messages ∧ announces m id name.

(** What the map of tool names holds: names that are not empty, under ids
    that are not empty, each announced by an assistant message. *)
Definition soundNames (messages : list GenericMessage) (m : gmap string string) : Prop :=
  ∀ id name, m !! id = Some name → id ≠ "" ∧ name ≠ "" ∧ announced messages id name.

End ToolNames.

(** The name a part answers to, empty when it is no function response. *)
Definition responseName (p : GooglePart) : string :=
  match FunctionResponse p with
  | Some fr => FR_Name fr
  | None => ""
  end.

(** ** Statements about the signature cache *)

(** What a signature cache [after] holds beyond [before]: nothing is
    removed, and an entry that is not the old one is a signature that is not
    empty, under a generated id. *)
Definition grownFrom (before after : gmap string string) : Prop :=
  (∀ id, is_Some (before !! id) → is_Some (after !! id))
  ∧ (∀ id sig, after !! id = Some sig →
       before !! id = Some sig
       ∨ (sig ≠ "" ∧ ∃ unix n, id = Gemini.toolCallId unix n ∧ (1 ≤ n)%nat)).


(** A [tool_result] block that answers the tool use of [RoundTrip]. *)
Definition resultBlock : ContentBlock :=
  {| Blk_Type := "tool_result"; Blk_Text := ""; Blk_ID := ""; Blk_Name := "";
     Blk_Input := ""; Blk_Signature := ""; Blk_ToolUseId := "call_function_1700000000_1";
     Blk_Content := GoRuntime.js "'file1'"; Blk_IsError := false |}.

(** ** The clean-up at shutdown *)


(** ** Statements about the cache table *)

(** The request that goes out after a cache was created of all turns but
    the last. *)
Definition createdRequest (gReq : GoogleRequest) (name : string) : GoogleRequest :=
  {| Contents := skipn (length (Contents gReq) - 1) (Contents gReq);
     Tools := [];
     SystemInstruction := None;
     CachedContent := name;
     GenerationConfig_ := GenerationConfig_ gReq |}.

Section CacheStatements.
Context {json_lib : EncodingJson} {hash_lib : Hashing}.

(** The creation call of the cache stage for [gReq]. *)
Definition creationCall (reqKey : string) (genReq : GenericRequest) (gReq : GoogleRequest)
    : Gemini.UpstreamCall :=
  Gemini.CallCreateCache
    (Gemini.createCacheRequest (Req_Model genReq) (SystemInstruction gReq) (Tools gReq)
       (firstn (length (Contents gReq) - 1) (Contents gReq))) reqKey.

(** The entry stored after a creation at [clock]. *)
Definition createdEntry (gReq : GoogleRequest) (name : string) (clock : Z) : Gemini.CacheEntry :=
  {| Gemini.CE_Name := name;
     Gemini.ExpireAt := (clock + 25 * Minute)%Z;
     Gemini.CachedCount := length (firstn (length (Contents gReq) - 1) (Contents gReq));
     Gemini.CachedDigest :=
       Gemini.computeContentsDigest (firstn (length (Contents gReq) - 1) (Contents gReq)) |}.

End CacheStatements.

(** The requests of [Cached], decoded and translated. *)
Module CachedRequests.
Import GoRuntime.

Definition message (role content : string) : GenericMessage :=
  {| Msg_Role := role; Msg_Content := js content; Msg_ToolCalls := [];
     Msg_ToolCallID := ""; Msg_Name := "" |}.

Definition prefilledRequest : GenericRequest :=
  {| Req_Model := "m"; Req_System := "S";
     Req_Messages := [message "user" "'a'"; message "assistant" "'b'"];
     Req_Tools := [] |}.

Definition prefilledGoogle : GoogleRequest :=
  @Gemini.buildGoogleRequest jsonCodec ∅ prefilledRequest.

Definition continuedGoogle : GoogleRequest :=
  @Gemini.buildGoogleRequest jsonCodec ∅ Cached.continuedRequest.

Definition upstream : Gemini.Upstream :=
  Examples.answering Examples.cacheCreated Examples.helloAnswer.

End CachedRequests.

(** A table whose one entry, for the key of the requests of [Cached], was
    made of one turn; and the request that sends that turn again, alone. *)
Module Stale.
Import GoRuntime.

Definition entry : Gemini.CacheEntry :=
  {| Gemini.CE_Name := "cachedContents/c1";
     Gemini.ExpireAt := 25 * Minute;
     Gemini.CachedCount := 1;
     Gemini.CachedDigest := "" |}.




End Stale.

(** ** [fixJSON] as a transducer

    The loop of [fixJSON] with the run of bytes since [keyStart] held in a
    buffer [pending], in place of the index into the input. *)
Fixpoint quoteBareKeys (rest : list ascii) (skip : nat) (prev : option ascii)
    (pending : option string) (inStr : bool) (res : string) : string :=
  match rest with
  | [] =>
      match pending with
      | Some p => res +:+ p
      | None => res
      end
  | b :: rest' =>
      match skip with
      | S skip' =>
          quoteBareKeys rest' skip' (Some b)
            (option_map (fun p => p +:+ String b "") pending) inStr res
      | O =>
          let '(r, size) := Utf8.DecodeRune rest in
          let written := GoStrings.str (Utf8.EncodeRune r) in
          let escaped := match prev with Some p => isBackslash p | None => false end in
          let inStr := if quoteRune r && negb escaped then negb inStr else inStr in
          let '(pending, res) :=
            if negb inStr then
              if keyRune r then
                (Some (match pending with
                       | None => String b ""
                       | Some p => p +:+ String b ""
                       end), res)
              else
                let '(pending, res) :=
                  match pending with
                  | Some p =>
                      if colonRune r then (None, res +:+ quote +:+ p +:+ quote)
                      else if blankRune r then (Some (p +:+ String b ""), res)
                      else (None, res +:+ p)
                  | None => (None, res)
                  end in
                (pending, res +:+ written)
            else
              let res :=
                match pending with
                | Some p => res +:+ p
                | None => res
                end in
              (None, res +:+ written) in
          quoteBareKeys rest' (size - 1) (Some b) pending inStr res
      end
  end.

(** One step of the transducer on an ASCII byte [b], which is a rune of its
    own: the buffer, the flag and the output after it. *)
Definition quoteStep (b : ascii) (prev : option ascii) (pending : option string)
    (inStr : bool) (res : string) : option string * bool * string :=
  let escaped := match prev with Some p => isBackslash p | None => false end in
  let inStr := if isQuote b && negb escaped then negb inStr else inStr in
  let '(pending, res) :=
    if negb inStr then
      if isKeyChar b then
        (Some (match pending with None => String b "" | Some p => p +:+ String b "" end),
         res)
      else
        let '(pending, res) :=
          match pending with
          | Some p =>
              if isColon b then (None, res +:+ quote +:+ p +:+ quote)
              else if isBlank b then (Some (p +:+ String b ""), res)
              else (None, res +:+ p)
          | None => (None, res)
          end in
        (pending, res +:+ String b "")
    else
      let res :=
        match pending with
        | Some p => res +:+ p
        | None => res
        end in
      (None, res +:+ String b "") in
  (pending, inStr, res).

(** What [for _, r := range s] with [WriteRune(r)] writes: the string with
    every byte that is no valid UTF-8 replaced by the encoding of
    [RuneError]. *)
Fixpoint copyRunes (l : list ascii) (skip : nat) : string :=
  match l with
  | [] => ""
  | _ :: t =>
      match skip with
      | S skip' => copyRunes t skip'
      | O =>
          let '(r, size) := Utf8.DecodeRune l in
          GoStrings.str (Utf8.EncodeRune r) +:+ copyRunes t (size - 1)
      end
  end.

Definition isAscii (b : ascii) : bool := (Utf8.byte b <? 128)%N.

(** The buffer [pending] holds the bytes of [pre] from [keyStart] on. *)
Definition pendingSince (pre : list ascii) (keyStart : option nat) (pending : option string)
    : Prop :=
  match keyStart, pending with
  | None, None => True
  | Some k, Some p => (k ≤ length pre)%nat ∧ p = GoStrings.str (skipn k pre)
  | _, _ => False
  end.

Definition allOf (p : ascii -> bool) (s : string) : bool := forallb p (GoStrings.bytes s).

Definition hasColon (s : string) : bool := existsb isColon (GoStrings.bytes s).

(** A byte that neither ends a string literal nor escapes the next byte. *)
Definition isLiteralByte (r : ascii) : bool := negb (isQuote r) && negb (isBackslash r).

(** ** Statements about the replies *)

Section ReplyStatements.
Context {json_lib : EncodingJson}.


End ReplyStatements.

(** The tool-use block of a tool call of the OpenAI-compatible upstream:
    id, name and the arguments as the upstream wrote them. *)
Definition rawToolUse (tc : OpenAIToolCall) : OutBlock :=
  ToolUseRawBlock (OTC_ID tc) (OTC_FunctionName tc) (OTC_FunctionArguments tc).

(** The thinking block and the text block of a choice: one block for a
    [reasoning_content], or a [content], that is there and not empty. *)
Definition thinkingOf (choice : Choice) : list OutBlock :=
  match Ch_ReasoningContent choice with
  | Some t => if strEmpty t then [] else [ThinkingBlock t None]
  | None => []
  end.

Definition textOf (choice : Choice) : list OutBlock :=
  match Ch_Content choice with
  | Some t => if strEmpty t then [] else [TextBlock t]
  | None => []
  end.

(** An upstream whose tool call has arguments that are no JSON text. *)
Module BrokenArguments.
Import GoRuntime.

Definition answer : string :=
  "{'choices':[{'message':{'tool_calls':[{'id':'c1','type':'function','function':{'name':'bash','arguments':'{cmd'}}]}}],'usage':{'prompt_tokens':20,'completion_tokens':10,'total_tokens':30}}".

Definition run : option OpenAI.Outcome :=
  @OpenAI.handleProxy jsonCodec OpenAIExamples.noKey (OpenAIRuns.answering answer) 2
    OpenAIRuns.metered 0 OpenAIRuns.ask.

End BrokenArguments.
(** ** Proofs: turns of the Gemini request *)

Lemma noRepeat_snoc (l : list string) (a b : string) :
  noRepeat (l ++ [a]) → a ≠ b → noRepeat (l ++ [a; b]).
Proof.
  induction l as [|x l IH]; simpl; intros H Hab.
  - auto.
  - destruct l as [|y l]; simpl in *.
    + destruct H as [Hxa _]. auto.
    + destruct H as [Hxy H]. split; [exact Hxy|]. apply IH; assumption.
Qed.






Lemma nonEmptyTurns_skipn (k : nat) (contents : list GoogleContent) :
  nonEmptyTurns contents → nonEmptyTurns (skipn k contents).
Proof. unfold nonEmptyTurns. apply Forall_drop. Qed.

Section TurnProofs.
Context {json_lib : EncodingJson} {hash_lib : Hashing}.

(** The three outcomes of [appendTurn]. *)
Lemma appendTurn_cases (contents : list GoogleContent) (role : string)
    (parts : list GooglePart) :
  (parts = [] ∧ Gemini.appendTurn contents role parts = contents)
  ∨ (parts ≠ [] ∧ ∃ init prev, contents = init ++ [prev] ∧ Role prev = role
       ∧ Gemini.appendTurn contents role parts
         = init ++ [ {| Role := Role prev; Parts := Parts prev ++ parts |} ])
  ∨ (parts ≠ [] ∧ (contents = [] ∨ ∃ init prev, contents = init ++ [prev] ∧ Role prev ≠ role)
       ∧ Gemini.appendTurn contents role parts
         = contents ++ [ {| Role := role; Parts := parts |} ]).
Proof.
  destruct parts as [|p parts]; [left; split; reflexivity|]. right.
  destruct contents as [|c contents] using rev_ind.
  - right. split; [discriminate|]. split; [left; reflexivity|]. reflexivity.
  - clear IHcontents. unfold Gemini.appendTurn. rewrite last_snoc, removelast_last.
    destruct (String.eqb (Role c) role) eqn:E.
    + left. split; [discriminate|]. exists contents, c.
      apply String.eqb_eq in E. auto.
    + right. split; [discriminate|]. split; [|reflexivity].
      right. exists contents, c. apply String.eqb_neq in E. auto.
Qed.

Lemma appendTurn_flat (contents : list GoogleContent) (role : string)
    (parts : list GooglePart) :
  flat_map Parts (Gemini.appendTurn contents role parts) = flat_map Parts contents ++ parts.
Proof.
  destruct (appendTurn_cases contents role parts)
    as [[-> ->]|[(_ & init & prev & -> & _ & ->)|(_ & _ & ->)]].
  - symmetry. apply app_nil_r.
  - rewrite !flat_map_app. simpl. rewrite !app_nil_r, app_assoc. reflexivity.
  - rewrite flat_map_app. simpl. rewrite app_nil_r. reflexivity.
Qed.

Lemma appendTurn_nonEmpty (contents : list GoogleContent) (role : string)
    (parts : list GooglePart) :
  nonEmptyTurns contents → nonEmptyTurns (Gemini.appendTurn contents role parts).
Proof.
  unfold nonEmptyTurns. intros H.
  destruct (appendTurn_cases contents role parts)
    as [[-> ->]|[(Hne & init & prev & -> & _ & ->)|(Hne & _ & ->)]].
  - exact H.
  - apply Forall_app in H as [Hi _]. apply Forall_app. split; [exact Hi|].
    constructor; [|constructor]. simpl. intros E. apply app_eq_nil in E as [_ E]. auto.
  - apply Forall_app. split; [exact H|]. constructor; [|constructor]. exact Hne.
Qed.

Lemma appendTurn_noRepeat (contents : list GoogleContent) (role : string)
    (parts : list GooglePart) :
  noRepeat (map Role contents) → noRepeat (map Role (Gemini.appendTurn contents role parts)).
Proof.
  intros H.
  destruct (appendTurn_cases contents role parts)
    as [[-> ->]|[(_ & init & prev & -> & _ & ->)|(_ & Hc & ->)]].
  - exact H.
  - rewrite map_app in *. exact H.
  - destruct Hc as [->|(init & prev & -> & Hne)]; [simpl; trivial|].
    rewrite !map_app in *. simpl in *. rewrite <- app_assoc. simpl.
    apply noRepeat_snoc; assumption.
Qed.

Lemma translateStep_invariant sigs toolIdToName done contents m :
  loopInvariant sigs toolIdToName done contents →
  loopInvariant sigs toolIdToName (done ++ [m])
    (Gemini.translateStep sigs toolIdToName contents m).
Proof.
  intros [Hr Hp Hf]. unfold Gemini.translateStep.
  assert (Hm : flat_map (messageParts sigs toolIdToName) (done ++ [m])
             = flat_map (messageParts sigs toolIdToName) done
               ++ messageParts sigs toolIdToName m).
  { rewrite flat_map_app. simpl. rewrite app_nil_r. reflexivity. }
  unfold messageParts at 3 in Hm.
  destruct (Gemini.translateMessage sigs toolIdToName m) as [[role parts]|].
  - split.
    + apply appendTurn_noRepeat, Hr.
    + apply appendTurn_nonEmpty, Hp.
    + rewrite appendTurn_flat, Hm, Hf. reflexivity.
  - split; [exact Hr|exact Hp|]. rewrite Hm, app_nil_r. exact Hf.
Qed.

Lemma loop_invariant sigs toolIdToName messages done contents :
  loopInvariant sigs toolIdToName done contents →
  loopInvariant sigs toolIdToName (done ++ messages)
    (fold_left (Gemini.translateStep sigs toolIdToName) messages contents).
Proof.
  revert done contents. induction messages as [|m messages IH]; intros done contents H.
  - rewrite app_nil_r. exact H.
  - simpl. replace (done ++ m :: messages) with ((done ++ [m]) ++ messages)
      by (rewrite <- app_assoc; reflexivity).
    apply IH, translateStep_invariant, H.
Qed.

Lemma loop_from_empty sigs toolIdToName messages :
  loopInvariant sigs toolIdToName messages
    (fold_left (Gemini.translateStep sigs toolIdToName) messages []).
Proof.
  apply (loop_invariant sigs toolIdToName messages [] []).
  split; simpl; [trivial|constructor|reflexivity].
Qed.

Lemma ensureUserFirst_cases (contents : list GoogleContent) :
  (Gemini.ensureUserFirst contents = contents ∧ firstNotModel contents)
  ∨ (Gemini.ensureUserFirst contents = Gemini.continueTurn :: contents
     ∧ ∃ c rest, contents = c :: rest ∧ Role c = "model").
Proof.
  destruct contents as [|c rest]; simpl.
  - left. split; [reflexivity|]. intros c H. discriminate.
  - destruct (String.eqb (Role c) "model") eqn:E.
    + right. split; [reflexivity|]. apply String.eqb_eq in E. eauto.
    + left. split; [reflexivity|]. intros c' H. injection H as <-.
      apply String.eqb_neq in E. exact E.
Qed.


Lemma buildContents_nonEmpty sigs messages :
  nonEmptyTurns (Gemini.buildContents sigs messages).
Proof.
  unfold Gemini.buildContents.
  destruct (loop_from_empty sigs (buildToolIdToName messages) messages) as [_ Hp _].
  set (cs := fold_left _ messages []) in *.
  destruct (ensureUserFirst_cases cs) as [[-> _]|[-> _]]; [exact Hp|].
  constructor; [discriminate|exact Hp].
Qed.


End TurnProofs.

(** ** Proofs: the cache stage and the shape of a handler run *)

Section HandlerProofs.
Context {json_lib : EncodingJson} {hash_lib : Hashing}.

Lemma createOrSkip_shape up reqKey genReq gReq cacheKey cache clock name delta made cache' clock' :
  Gemini.createOrSkip up reqKey genReq gReq cacheKey cache clock
    = (name, delta, made, cache', clock') →
  Forall (cacheCall reqKey) made
  ∧ (delta = [] ∨ delta = skipn (length (Contents gReq) - 1) (Contents gReq)).
Proof.
  unfold Gemini.createOrSkip.
  destruct (1 <? length (Contents gReq))%nat.
  - destruct (Gemini.createCacheWithContents _ _ _ _ _ _); intros E; injection E as <- <- <- <- <-;
      (split; [repeat constructor|]); auto.
  - intros E; injection E as <- <- <- <- <-. split; [constructor|auto].
Qed.

Lemma selectCache_shape up reqKey genReq gReq cache clock name delta made cache' clock' :
  Gemini.selectCache up reqKey genReq gReq cache clock = (name, delta, made, cache', clock') →
  Forall (cacheCall reqKey) made ∧ (delta = [] ∨ ∃ k, delta = skipn k (Contents gReq)).
Proof.
  unfold Gemini.selectCache.
  destruct (Gemini.hasCacheableContext gReq);
    [|intros E; injection E as <- <- <- <- <-; split; [constructor|auto]].
  assert (Hcreate : ∀ c,
    Gemini.createOrSkip up reqKey genReq gReq
      (Gemini.computeCacheKey (Req_System genReq) (Tools gReq)) cache c
      = (name, delta, made, cache', clock') →
    Forall (cacheCall reqKey) made ∧ (delta = [] ∨ ∃ k, delta = skipn k (Contents gReq))).
  { intros c E. apply createOrSkip_shape in E as [H1 [H2|H2]]; split; eauto. }
  destruct (cache !! _) as [entry|]; [|apply Hcreate].
  destruct (clock <? Gemini.ExpireAt entry)%Z; [|apply Hcreate].
  destruct (Gemini.isIncrementalUpdate _ _ _) as [isIncremental startIdx].
  destruct (isIncremental && (startIdx <? length (Contents gReq))%nat).
  - intros E; injection E as <- <- <- <- <-. split; [constructor|eauto].
  - destruct (Gemini.createOrSkip _ _ _ _ _ _ _) as [[[[n d] m] c'] k'] eqn:Ec.
    intros E; injection E as <- <- <- <- <-.
    apply createOrSkip_shape in Ec as [H1 H2]. split.
    + constructor; [split; simpl; auto|exact H1].
    + destruct H2; eauto.
Qed.

(** The request after the cache stage: untouched, or a cache reference with
    a non-empty suffix of the conversation and neither system instruction
    nor tools. *)
Lemma cacheStage_shape cfg up reqKey genReq gReq cache clock gReq' made cache' clock' :
  Gemini.cacheStage cfg up reqKey genReq gReq cache clock = (gReq', made, cache', clock') →
  Forall (cacheCall reqKey) made
  ∧ (gReq' = gReq
     ∨ (CachedContent gReq' ≠ "" ∧ Tools gReq' = [] ∧ SystemInstruction gReq' = None
        ∧ Contents gReq' ≠ [] ∧ ∃ k, Contents gReq' = skipn k (Contents gReq))).
Proof.
  unfold Gemini.cacheStage. destruct (Gemini.cacheMode cfg).
  - destruct (Gemini.selectCache _ _ _ _ _ _) as [[[[name delta] m] c'] k'] eqn:Es.
    intros E; injection E as <- <- <- <-.
    apply selectCache_shape in Es as [H1 H2]. split; [exact H1|].
    unfold Gemini.useCache.
    destruct (negb (strEmpty name)) eqn:En; simpl; [|auto].
    destruct delta as [|d delta]; simpl; [auto|]. right.
    repeat split; try discriminate.
    + intros ->. discriminate.
    + destruct H2 as [H2|H2]; [discriminate|exact H2].
  - intros E; injection E as <- <- <- <-. split; [constructor|auto].
Qed.

Lemma afterGenerate_calls st clock made genReq est answer :
  Gemini.calls (Gemini.afterGenerate st clock made genReq est answer) = made.
Proof.
  unfold Gemini.afterGenerate. destruct answer as [err|status body]; [reflexivity|].
  destruct (negb (status =? 200)%Z).
  - destruct (status =? 429)%Z; reflexivity.
  - destruct (Unmarshal_GoogleResponse body) as [gResp|]; [|reflexivity].
    destruct (Candidates gResp); reflexivity.
Qed.

Lemma dispatch_calls up st clock made reqKey genReq gReq est :
  Gemini.calls (Gemini.dispatch up st clock made reqKey genReq gReq est)
  = if Gemini.newRequest up "POST" (Gemini.generateURL (Req_Model genReq) reqKey)
    then made ++ [Gemini.CallGenerate (Req_Model genReq) reqKey gReq]
    else made.
Proof.
  unfold Gemini.dispatch. destruct (Gemini.throttleGate st clock).
  destruct (Gemini.newRequest up _ _); [apply afterGenerate_calls|reflexivity].
Qed.


Lemma handleProxy_inv cfg up fuel st now r o :
  Gemini.handleProxy cfg up fuel st now r = Some o →
  (Unmarshal_GenericRequest (Gemini.Body r) = None
   ∧ o = {| Gemini.reply := HttpError "Invalid JSON" 400; Gemini.calls := [];
            Gemini.final := st; Gemini.finished := now |})
  ∨ ∃ genReq, Unmarshal_GenericRequest (Gemini.Body r) = Some genReq
              ∧ parsedRun cfg up st now r genReq o.
Proof.
  unfold Gemini.handleProxy.
  destruct (Unmarshal_GenericRequest (Gemini.Body r)) as [genReq|];
    [|intros E; injection E as <-; left; auto].
  intros E. right. exists genReq. split; [reflexivity|].
  destruct (Gemini.cacheStage _ _ _ _ _ _ _) as [[[gReq1 made] cache'] clock1] eqn:Ec.
  simpl in E.
  destruct (Gemini.tpmLimiter st) as [tb|] eqn:Et.
  - destruct (Gemini.awaitTokens _ _ _ _) as [tb' clock2|tb' clock2|]; [| |discriminate];
      injection E as <-.
    + eapply RunDispatched; [exact Ec| | |reflexivity];
        [right; split; [congruence|reflexivity]|reflexivity].
    + eapply RunTooLarge; [exact Ec|congruence|reflexivity|reflexivity|reflexivity].
  - injection E as <-.
    eapply RunDispatched; [exact Ec| | |reflexivity]; [left; auto|reflexivity].
Qed.

Lemma generated_app (a b : list Gemini.UpstreamCall) :
  generated (a ++ b) = generated a ++ generated b.
Proof. unfold generated. apply omap_app. Qed.

Lemma generated_cacheCalls key (made : list Gemini.UpstreamCall) :
  Forall (cacheCall key) made → generated made = [].
Proof.
  induction 1 as [|c made [_ Hc] _ IH]; [reflexivity|].
  destruct c; simpl in Hc; try contradiction; exact IH.
Qed.

End HandlerProofs.

(** ** C1 and C10: the turns of the outgoing request *)

Section OutgoingTurns.
Context {json_lib : EncodingJson} {hash_lib : Hashing}.

(** What a handler run sends to [generateContent]: one request, whose
    contents are the translated conversation or, with a cache reference, a
    non-empty suffix of it. *)
Lemma outgoing_request cfg up fuel st now r o gReq :
  Gemini.handleProxy cfg up fuel st now r = Some o →
  In gReq (generated (Gemini.calls o)) →
  ∃ genReq, Unmarshal_GenericRequest (Gemini.Body r) = Some genReq
    ∧ generated (Gemini.calls o) = [gReq]
    ∧ let conversation :=
        Gemini.buildContents (Gemini.signatureCache st) (Req_Messages genReq) in
      (CachedContent gReq = "" ∧ Contents gReq = conversation)
      ∨ (CachedContent gReq ≠ "" ∧ Contents gReq ≠ []
         ∧ ∃ k, Contents gReq = skipn k conversation).
Proof.
  intros Hrun Hin. apply handleProxy_inv in Hrun as [[_ ->]|(genReq & Hparse & Hrun)].
  { destruct Hin. }
  exists genReq. split; [exact Hparse|].
  destruct Hrun as [gReq1 made cache' clock1 Hc _ _ Hcalls _
                   |gReq1 made cache' clock1 gOut st2 clock2 est Hc Hout _ ->].
  - apply cacheStage_shape in Hc as [Hmade _].
    rewrite Hcalls, (generated_cacheCalls _ _ Hmade) in Hin. destruct Hin.
  - apply cacheStage_shape in Hc as [Hmade Hshape].
    rewrite dispatch_calls in *.
    destruct (Gemini.newRequest up _ _);
      [|rewrite (generated_cacheCalls _ _ Hmade) in Hin; destruct Hin].
    rewrite generated_app, (generated_cacheCalls _ _ Hmade) in *.
    simpl in *. destruct Hin as [<-|[]]. split; [reflexivity|].
    assert (Hsame : Contents gOut = Contents gReq1 ∧ CachedContent gOut = CachedContent gReq1).
    { destruct Hout as [[_ ->]|[_ ->]]; auto. }
    destruct Hsame as [-> ->].
    destruct Hshape as [->|(Hname & _ & _ & Hne & k & Hk)]; [left|right]; auto.
    split; [exact Hname|]. split; [exact Hne|]. exists k. exact Hk.
Qed.


(** A message without parts leaves the id-to-name map as it is. *)
Lemma recordMessage_silent sigs toolIdToName (acc : gmap string string) m :
  messageParts sigs toolIdToName m = [] → recordMessage acc m = acc.
Proof.
  unfold messageParts, Gemini.translateMessage, recordMessage.
  destruct (String.eqb (Msg_Role m) "assistant") eqn:Ea; [|reflexivity].
  apply String.eqb_eq in Ea. rewrite Ea. simpl.
  unfold Gemini.assistantParts. intros H. apply app_eq_nil in H as [Hb Hc].
  apply map_eq_nil in Hc. rewrite Hc. simpl.
  destruct (Unmarshal_ContentBlocks (Msg_Content m)) as [blocks|]; [|reflexivity].
  clear Hc Ea. revert acc. induction blocks as [|b blocks IH]; intros acc; [reflexivity|].
  simpl in Hb. apply app_eq_nil in Hb as [Hb1 Hb2]. simpl. rewrite <- (IH Hb2 acc) at 2.
  f_equal. unfold recordBlock. unfold Gemini.assistantBlockParts in Hb1.
  destruct (String.eqb (Blk_Type b) "tool_use") eqn:Et; [|reflexivity].
  apply String.eqb_eq in Et. rewrite Et in Hb1. simpl in Hb1.
  destruct (negb (strEmpty (Blk_Name b))); [discriminate|].
  rewrite andb_false_r. reflexivity.
Qed.

Lemma translateStep_silent sigs toolIdToName contents m :
  messageParts sigs toolIdToName m = [] →
  Gemini.translateStep sigs toolIdToName contents m = contents.
Proof.
  unfold messageParts, Gemini.translateStep.
  destruct (Gemini.translateMessage sigs toolIdToName m) as [[role parts]|]; [|reflexivity].
  intros ->. reflexivity.
Qed.

(** A message without parts is left out of the conversation altogether. *)
Lemma buildContents_omits sigs before m after :
  messageParts sigs (buildToolIdToName (before ++ m :: after)) m = [] →
  Gemini.buildContents sigs (before ++ m :: after) = Gemini.buildContents sigs (before ++ after).
Proof.
  intros H. unfold Gemini.buildContents.
  assert (Hmap : buildToolIdToName (before ++ m :: after) = buildToolIdToName (before ++ after)).
  { unfold buildToolIdToName. rewrite !fold_left_app. simpl.
    rewrite (recordMessage_silent _ _ _ _ H). reflexivity. }
  rewrite <- Hmap. rewrite !fold_left_app. simpl.
  rewrite (translateStep_silent _ _ _ _ H). reflexivity.
Qed.

Lemma unhandled_blocks sigs toolIdToName (blocks : list ContentBlock) :
  Forall (fun b => Blk_Type b ≠ "text" ∧ Blk_Type b ≠ "tool_use"
                   ∧ Blk_Type b ≠ "tool_result") blocks →
  flat_map (Gemini.userBlockParts toolIdToName) blocks = []
  ∧ flat_map (Gemini.assistantBlockParts sigs) blocks = [].
Proof.
  induction 1 as [|b blocks (Ht & Hu & Hr) _ [IH1 IH2]]; [auto|]. simpl.
  rewrite IH1, IH2. unfold Gemini.userBlockParts, Gemini.assistantBlockParts.
  apply String.eqb_neq in Ht, Hu, Hr. rewrite Ht, Hu, Hr. auto.
Qed.

(** C10.  Every turn of a request sent to the generate endpoint has a
    non-empty parts list, and a client message whose translation yields no
    parts is left out: the conversation is the one built without it.  A
    user message whose content is not a block array and has an empty text,
    and one whose blocks are neither text nor tool results, yield no
    parts. *)
Theorem C10_no_empty_turn cfg up fuel st now r o gReq :
  Gemini.handleProxy cfg up fuel st now r = Some o →
  In gReq (generated (Gemini.calls o)) →
  nonEmptyTurns (Contents gReq)
  ∧ (∀ sigs before m after,
       messageParts sigs (buildToolIdToName (before ++ m :: after)) m = [] →
       Gemini.buildContents sigs (before ++ m :: after)
       = Gemini.buildContents sigs (before ++ after))
  ∧ (∀ sigs toolIdToName m,
       (Msg_Role m = "user" ∨ Msg_Role m = "assistant" ∧ Msg_ToolCalls m = []) →
       Unmarshal_ContentBlocks (Msg_Content m) = None →
       extractText (Msg_Content m) = "" →
       messageParts sigs toolIdToName m = [])
  ∧ (∀ sigs toolIdToName m blocks,
       (Msg_Role m = "user" ∨ Msg_Role m = "assistant" ∧ Msg_ToolCalls m = []) →
       Unmarshal_ContentBlocks (Msg_Content m) = Some blocks →
       Forall (fun b => Blk_Type b ≠ "text" ∧ Blk_Type b ≠ "tool_use"
                        ∧ Blk_Type b ≠ "tool_result") blocks →
       messageParts sigs toolIdToName m = []).
Proof.
  intros Hrun Hin. split; [|split; [|split]].
  - destruct (outgoing_request _ _ _ _ _ _ _ _ Hrun Hin) as (genReq & _ & _ & Hshape).
    simpl in Hshape.
    pose proof (buildContents_nonEmpty (Gemini.signatureCache st) (Req_Messages genReq)) as Hne.
    destruct Hshape as [[_ ->]|(_ & _ & k & ->)]; [exact Hne|].
    apply nonEmptyTurns_skipn, Hne.
  - intros sigs before m after. apply buildContents_omits.
  - intros sigs toolIdToName m Hrole Hblocks Htext.
    unfold messageParts, Gemini.translateMessage.
    destruct Hrole as [->|[-> Hcalls]]; simpl.
    + unfold Gemini.userParts. rewrite Hblocks, Htext. reflexivity.
    + unfold Gemini.assistantParts. rewrite Hblocks, Htext, Hcalls. reflexivity.
  - intros sigs toolIdToName m blocks Hrole Hblocks Hall.
    unfold messageParts, Gemini.translateMessage.
    pose proof (unhandled_blocks sigs toolIdToName blocks Hall) as Hu.
    destruct Hrole as [->|[-> Hcalls]]; simpl.
    + unfold Gemini.userParts. rewrite Hblocks. apply Hu.
    + unfold Gemini.assistantParts. rewrite Hblocks, Hcalls, (proj2 Hu). reflexivity.
Qed.

End OutgoingTurns.

(** ** C1 and C10 on concrete runs *)

Section ConcreteTurns.
#[local] Existing Instance GoRuntime.jsonCodec.
#[local] Existing Instance GoRuntime.hashing.



(** The resumed conversation on the wire: a ["continue"] turn in front, the
    two user messages merged, the empty one left out. *)
Example resumed_on_the_wire :
  Contents (Examples.requestOf Examples.resumedRun)
  = [ {| Role := "user"; Parts := [Gemini.textPart "continue"] |};
      {| Role := "model"; Parts := [Gemini.textPart "resuming"] |};
      {| Role := "user"; Parts := [Gemini.textPart "a"; Gemini.textPart "b"] |};
      {| Role := "model"; Parts := [Gemini.textPart "c"] |} ].
Proof. vm_compute. reflexivity. Qed.

Lemma C10_no_empty_turn_witness :
  nonEmptyTurns (Contents (Examples.requestOf Examples.resumedRun))
  ∧ (∀ sigs before m after,
       messageParts sigs
         (buildToolIdToName (before ++ m :: after)) m = [] →
       Gemini.buildContents sigs (before ++ m :: after)
       = Gemini.buildContents sigs (before ++ after))
  ∧ (∀ sigs toolIdToName m,
       (Msg_Role m = "user" ∨ Msg_Role m = "assistant" ∧ Msg_ToolCalls m = []) →
       Unmarshal_ContentBlocks (Msg_Content m) = None →
       extractText (Msg_Content m) = "" →
       messageParts sigs toolIdToName m = [])
  ∧ (∀ sigs toolIdToName m blocks,
       (Msg_Role m = "user" ∨ Msg_Role m = "assistant" ∧ Msg_ToolCalls m = []) →
       Unmarshal_ContentBlocks (Msg_Content m) = Some blocks →
       Forall (fun b => Blk_Type b ≠ "text" ∧ Blk_Type b ≠ "tool_use"
                        ∧ Blk_Type b ≠ "tool_result") blocks →
       messageParts sigs toolIdToName m = []).
Proof.
  apply (@C10_no_empty_turn GoRuntime.jsonCodec GoRuntime.hashing Examples.plain
           (Examples.answering Examples.cacheCreated Examples.helloAnswer) 2
           Examples.freshState 0 (Examples.post Examples.resumed)
           (Examples.outcomeOf Examples.resumedRun)).
  - vm_compute. reflexivity.
  - vm_compute. left. reflexivity.
Defined.

(** Messages that yield no parts: an empty string as content, for a user and
    for an assistant, and blocks of a type the translation does not handle. *)
Example messages_without_parts :
  let message role content :=
    {| Msg_Role := role; Msg_Content := GoRuntime.js content; Msg_ToolCalls := [];
       Msg_ToolCallID := ""; Msg_Name := "" |} in
  map (messageParts ∅ ∅)
    [ message "user" "''"; message "assistant" "''";
      message "user" "[{'type':'image','source':{}}]";
      message "assistant" "[{'type':'thinking','text':'t'},{'type':'text','text':''}]" ]
  = [ []; []; []; [] ].
Proof. vm_compute. reflexivity. Qed.

End ConcreteTurns.

(** ** C2: thought signatures are stored and reattached *)

Lemma toolCallId_inj (unix : Z) (n m : nat) :
  Gemini.toolCallId unix n = Gemini.toolCallId unix m → n = m.
Proof.
  unfold Gemini.toolCallId. intros H.
  repeat apply String.app_inj in H. apply (inj pretty) in H. exact H.
Qed.

Lemma toolCallId_nonEmpty (unix : Z) (n : nat) : strEmpty (Gemini.toolCallId unix n) = false.
Proof. reflexivity. Qed.

Lemma strEmpty_false (s : string) : s ≠ "" → strEmpty s = false.
Proof. intros H. apply String.eqb_neq, H. Qed.

Lemma strEmpty_true (s : string) : strEmpty s = true → s = "".
Proof. intros H. apply String.eqb_eq, H. Qed.

Section Signatures.
Context {json_lib : EncodingJson} {hash_lib : Hashing}.

Lemma decodePart_counter unix acc part :
  Gemini.toolCallCounter (Gemini.decodePart unix acc part)
  = (Gemini.toolCallCounter acc + (if isCall part then 1 else 0))%nat.
Proof.
  unfold Gemini.decodePart, isCall. destruct (FunctionCall part); simpl; lia.
Qed.

Lemma decodeLoop_counter unix parts acc :
  Gemini.toolCallCounter (fold_left (Gemini.decodePart unix) parts acc)
  = (Gemini.toolCallCounter acc + countCalls parts)%nat.
Proof.
  revert acc. induction parts as [|p parts IH]; intros acc; simpl.
  - unfold countCalls. simpl. lia.
  - rewrite IH, decodePart_counter. unfold countCalls. simpl.
    destruct (isCall p); simpl; lia.
Qed.








Lemma malformedFallback_keeps unix candidate acc :
  Gemini.sigs (Gemini.malformedFallback unix candidate acc) = Gemini.sigs acc
  ∧ Gemini.thinkingText (Gemini.malformedFallback unix candidate acc) = Gemini.thinkingText acc
  ∧ Gemini.thinkingSignature (Gemini.malformedFallback unix candidate acc)
    = Gemini.thinkingSignature acc
  ∧ ∃ more, Gemini.toolCalls (Gemini.malformedFallback unix candidate acc)
            = Gemini.toolCalls acc ++ more.
Proof.
  unfold Gemini.malformedFallback.
  destruct (_ && _); [|repeat split; exists []; symmetry; apply app_nil_r].
  destruct (parseMalformedFunctionCall _) as [name args].
  destruct (_ && _); simpl; repeat split; eauto.
  exists []. symmetry. apply app_nil_r.
Qed.

Lemma contentArr_toolCalls (d : Gemini.Decoded) (b : OutBlock) :
  In b (Gemini.toolCalls d) → In b (Gemini.contentArr d).
Proof.
  intros H. unfold Gemini.contentArr. apply in_or_app. right. apply in_or_app. right. exact H.
Qed.

(** The translation of an echoed [tool_use] block without a signature. *)
Lemma toolUse_reattached (sigs : gmap string string) (b : ContentBlock) (sig : string) :
  Blk_Type b = "tool_use" → Blk_Name b ≠ "" → Blk_Signature b = "" →
  Blk_ID b ≠ "" → sigs !! Blk_ID b = Some sig → sig ≠ "" →
  Gemini.assistantBlockParts sigs b
  = [Gemini.functionCallPart (Blk_Name b) (Gemini.toolUseArgs (Blk_Input b)) sig].
Proof.
  intros Ht Hn Hs Hid Hsig Hne. unfold Gemini.assistantBlockParts, Gemini.toolUseSignature.
  rewrite Ht, Hs. simpl. unfold mapGet. rewrite Hsig. simpl.
  rewrite (strEmpty_false _ Hn), (strEmpty_false _ Hid). simpl.
  rewrite (strEmpty_false _ Hne). reflexivity.
Qed.

Lemma toolUse_sentinel (sigs : gmap string string) (b : ContentBlock) :
  Blk_Type b = "tool_use" → Blk_Name b ≠ "" → Blk_Signature b = "" →
  (Blk_ID b = "" ∨ mapGet sigs (Blk_ID b) = "") →
  Gemini.assistantBlockParts sigs b
  = [Gemini.functionCallPart (Blk_Name b) (Gemini.toolUseArgs (Blk_Input b))
       "skip_thought_signature_validator"].
Proof.
  intros Ht Hn Hs Hid. unfold Gemini.assistantBlockParts, Gemini.toolUseSignature.
  rewrite Ht, Hs. simpl. rewrite (strEmpty_false _ Hn). simpl.
  destruct Hid as [->| ->]; [reflexivity|]. destruct (negb (strEmpty (Blk_ID b))); reflexivity.
Qed.






(** An entry of the signature cache stays, with a non-empty signature,
    through any later handler run. *)
Lemma decodePart_nonEmpty unix acc part id :
  mapGet (Gemini.sigs acc) id ≠ "" → mapGet (Gemini.sigs (Gemini.decodePart unix acc part)) id ≠ "".
Proof.
  unfold Gemini.decodePart. destruct (FunctionCall part); simpl; [|auto].
  destruct (strEmpty (ThoughtSignature part)) eqn:E; simpl; [auto|].
  intros H. unfold mapGet.
  destruct (decide (Gemini.toolCallId unix (S (Gemini.toolCallCounter acc)) = id)) as [<-|Hne].
  - rewrite lookup_insert_eq. simpl. apply String.eqb_neq. exact E.
  - rewrite lookup_insert_ne by exact Hne. exact H.
Qed.

Lemma decodeCandidate_nonEmpty unix sigs0 candidate id :
  mapGet sigs0 id ≠ "" → mapGet (Gemini.sigs (Gemini.decodeCandidate unix sigs0 candidate)) id ≠ "".
Proof.
  intros H. unfold Gemini.decodeCandidate.
  rewrite (proj1 (malformedFallback_keeps _ _ _)). unfold Gemini.decodeParts.
  assert (Hs : mapGet (Gemini.sigs (Gemini.decodeStart sigs0)) id ≠ "") by exact H.
  revert Hs. generalize (Gemini.decodeStart sigs0).
  induction (Cand_Parts candidate) as [|p parts IH]; intros acc Hacc; [exact Hacc|].
  simpl. apply IH, decodePart_nonEmpty, Hacc.
Qed.

Lemma afterGenerate_signature st clock made genReq est answer id :
  mapGet (Gemini.signatureCache st) id ≠ "" →
  mapGet (Gemini.signatureCache
            (Gemini.final (Gemini.afterGenerate st clock made genReq est answer))) id ≠ "".
Proof.
  intros H. unfold Gemini.afterGenerate. destruct answer as [err|status body]; [exact H|].
  destruct (negb (status =? 200)%Z).
  - destruct (status =? 429)%Z; simpl; [|exact H].
    destruct (GoStrings.Contains _ _); exact H.
  - destruct (Unmarshal_GoogleResponse body) as [gResp|]; [|exact H].
    assert (Hst : ∀ st1, Gemini.signatureCache st1 = Gemini.signatureCache st →
              mapGet (Gemini.signatureCache
                (Gemini.final
                   match Candidates gResp with
                   | [] => {| Gemini.reply := HttpError "Gemini returned no candidates" 500;
                              Gemini.calls := made; Gemini.final := st1;
                              Gemini.finished := clock |}
                   | candidate :: _ =>
                       let d := Gemini.decodeCandidate (clock / Second)
                                  (Gemini.signatureCache st1) candidate in
                       {| Gemini.reply := Encoded (Gemini.buildResponse (Req_Model genReq)
                                                     clock gResp d);
                          Gemini.calls := made;
                          Gemini.final := Gemini.withSignatures st1 (Gemini.sigs d);
                          Gemini.finished := clock |}
                   end)) id ≠ "").
    { intros st1 Hst1. destruct (Candidates gResp) as [|candidate rest]; simpl.
      - rewrite Hst1. exact H.
      - rewrite Hst1. apply decodeCandidate_nonEmpty, H. }
    destruct (Gemini.tpmLimiter st); apply Hst; reflexivity.
Qed.

Lemma handleProxy_signature cfg up fuel st now r o id :
  Gemini.handleProxy cfg up fuel st now r = Some o →
  mapGet (Gemini.signatureCache st) id ≠ "" →
  mapGet (Gemini.signatureCache (Gemini.final o)) id ≠ "".
Proof.
  intros Hrun H. apply handleProxy_inv in Hrun as [[_ ->]|(genReq & _ & Hrun)]; [exact H|].
  destruct Hrun as [gReq1 made cache' clock1 _ _ _ _ Hs|
                    gReq1 made cache' clock1 gOut st2 clock2 est _ _ Hs ->].
  - rewrite Hs. exact H.
  - unfold Gemini.dispatch.
    destruct (Gemini.throttleGate st2 clock2) as [st3 clock3] eqn:Eg.
    assert (Hgate : Gemini.signatureCache st3 = Gemini.signatureCache st2).
    { unfold Gemini.throttleGate in Eg. destruct (Gemini.throttleActive st2 clock2);
        injection Eg as <- <-; reflexivity. }
    destruct (Gemini.newRequest up _ _); [apply afterGenerate_signature|simpl];
      rewrite Hgate, Hs; exact H.
Qed.

End Signatures.

(** ** The ways a run of the Gemini handler ends *)

Section HandlerEndings.
Context {json_lib : EncodingJson} {hash_lib : Hashing}.


Lemma afterGenerate_table st clock made genReq est answer :
  Gemini.contextCache (Gemini.final (Gemini.afterGenerate st clock made genReq est answer))
  = Gemini.contextCache st.
Proof.
  unfold Gemini.afterGenerate. destruct answer as [err|status body]; [reflexivity|].
  destruct (negb (status =? 200)%Z).
  - destruct (status =? 429)%Z; simpl; [|reflexivity].
    destruct (GoStrings.Contains _ _); reflexivity.
  - destruct (Unmarshal_GoogleResponse body) as [gResp|]; [|reflexivity].
    destruct (Gemini.tpmLimiter st); destruct (Candidates gResp); reflexivity.
Qed.


End HandlerEndings.

Section Reattachment.
Context {json_lib : EncodingJson} {hash_lib : Hashing}.











End Reattachment.

Section ConcreteRoundTrip.
#[local] Existing Instance GoRuntime.jsonCodec.
#[local] Existing Instance GoRuntime.hashing.



(** The round trip end to end: the first reply carries the minted tool use
    with its signature; the second request, whose echo has no signature,
    goes out with the signature on the function call and with the function
    name on the response. *)
Example round_trip :
  Gemini.reply (Examples.outcomeOf RoundTrip.firstRun)
  = Encoded {| Res_id := Gemini.hex (RoundTrip.startedAt + 1000000);
               Res_model := "m";
               Res_content := [ToolUseBlock "call_function_1700000000_1" "bash"
                                 (Some [("cmd", JStr "ls")]) (Some "SIG")];
               Res_stop_reason := "tool_use";
               Res_input_tokens := 7; Res_output_tokens := 3 |}
  ∧ Contents (Examples.requestOf RoundTrip.secondRun)
    = [ {| Role := "user"; Parts := [Gemini.textPart "list the files"] |};
        {| Role := "model";
           Parts := [Gemini.functionCallPart "bash" (Some [("cmd", JStr "ls")]) "SIG"] |};
        {| Role := "user";
           Parts := [Gemini.functionResponsePart "bash" (Some [("result", JStr "file1")])] |} ].
Proof. split; vm_compute; reflexivity. Qed.

End ConcreteRoundTrip.

(** ** C3: the incremental cache hit *)

Section IncrementalHit.
Context {json_lib : EncodingJson} {hash_lib : Hashing}.

Lemma cacheStage_hit cfg up reqKey genReq gReq cache clock entry :
  Gemini.cacheMode cfg = true →
  Gemini.hasCacheableContext gReq = true →
  cache !! Gemini.computeCacheKey (Req_System genReq) (Tools gReq) = Some entry →
  (clock < Gemini.ExpireAt entry)%Z →
  (Gemini.CachedCount entry < length (Contents gReq))%nat →
  Gemini.computeContentsDigest (firstn (Gemini.CachedCount entry) (Contents gReq))
  = Gemini.CachedDigest entry →
  Gemini.CE_Name entry ≠ "" →
  Gemini.cacheStage cfg up reqKey genReq gReq cache clock
  = (hitRequest gReq entry, [], cache, clock).
Proof.
  intros Hmode Hctx Hentry Hfresh Hcount Hdigest Hname.
  unfold Gemini.cacheStage, Gemini.selectCache, Gemini.isIncrementalUpdate.
  rewrite Hmode, Hctx, Hentry.
  apply Z.ltb_lt in Hfresh. rewrite Hfresh.
  assert ((length (Contents gReq) <? Gemini.CachedCount entry)%nat = false) as ->
    by (apply Nat.ltb_ge; lia).
  rewrite Hdigest, String.eqb_refl.
  assert ((Gemini.CachedCount entry <? length (Contents gReq))%nat = true) as ->
    by (apply Nat.ltb_lt; lia).
  simpl. unfold Gemini.useCache. rewrite (strEmpty_false _ Hname). simpl.
  assert ((0 <? length (skipn (Gemini.CachedCount entry) (Contents gReq)))%nat = true) as ->
    by (apply Nat.ltb_lt; rewrite length_skipn; lia).
  reflexivity.
Qed.


End IncrementalHit.

Section ConcreteCache.
#[local] Existing Instance GoRuntime.jsonCodec.
#[local] Existing Instance GoRuntime.hashing.

(** The entry that the prefilled run stored: the handle, one turn, the
    digest of the user turn, 25 minutes of life after the creation call. *)
Example seeded_entry :
  Gemini.contextCache Cached.seeded !! Cached.seededKey = Some Cached.seededEntry
  ∧ Cached.seededEntry
    = {| Gemini.CE_Name := "cachedContents/c1";
         Gemini.ExpireAt := 1000000 + 25 * Minute;
         Gemini.CachedCount := 1;
         Gemini.CachedDigest := Gemini.computeContentsDigest [Cached.userTurn "a"] |}.
Proof. split; vm_compute; reflexivity. Qed.



End ConcreteCache.

(** ** C4: post-hoc correction of the token bucket (OpenAI relay) *)

Lemma Qgtb_true (x y : Q) : Qgtb x y = true ↔ (y < x)%Q.
Proof.
  unfold Qgtb. rewrite negb_true_iff, <- not_true_iff_false, Qle_bool_iff.
  split; [apply Qnot_le_lt|apply Qlt_not_le].
Qed.

Lemma Qgtb_false (x y : Q) : Qgtb x y = false ↔ (x <= y)%Q.
Proof. unfold Qgtb. rewrite negb_false_iff. apply Qle_bool_iff. Qed.

Lemma Qltb_true (x y : Q) : Qltb x y = true ↔ (x < y)%Q.
Proof. apply Qgtb_true. Qed.

Lemma Qltb_false (x y : Q) : Qltb x y = false ↔ (y <= x)%Q.
Proof. apply Qgtb_false. Qed.

(** What an allowed [Consume] does: the request fits the capacity and the
    refilled level, and the level drops by the estimate. *)
Lemma Consume_allowed tb now e tb1 w :
  Consume tb now e = (tb1, (true, w)) →
  (e <= refilled tb now)%Q
  ∧ tb1 = {| maxCapacity := maxCapacity tb;
             tokensPerSecond := tokensPerSecond tb;
             currentTokens := (refilled tb now - e)%Q;
             lastUpdateTime := now |}
  ∧ w = 0%Q.
Proof.
  unfold Consume. fold (refilled tb now).
  destruct (Qgtb e (maxCapacity tb)); [discriminate|].
  destruct (Qle_bool e (refilled tb now)) eqn:E; [|discriminate].
  intros H; injection H as <- <-. apply Qle_bool_iff in E. auto.
Qed.




Section OpenAIHandler.
Context {json_lib : EncodingJson}.


End OpenAIHandler.

Section ConcreteCorrection.
#[local] Existing Instance GoRuntime.jsonCodec.


End ConcreteCorrection.

(** ** C5: the throttle *)

Section Throttle.
Context {json_lib : EncodingJson} {hash_lib : Hashing}.

(** Activation: a 429 whose body has the literal sets the deadline 30
    minutes ahead and the last request to the instant of the answer. *)
Lemma throttle_activated st clock made genReq est body :
  GoStrings.Contains body "Resource has been exhausted" = true →
  let o := Gemini.afterGenerate st clock made genReq est (HttpResponse 429 body) in
  Gemini.throttleUntil (Gemini.final o) = (clock + 30 * Minute)%Z
  ∧ Gemini.throttleLastReq (Gemini.final o) = clock
  ∧ Gemini.reply o = Forwarded 429 body.
Proof.
  intros H. unfold Gemini.afterGenerate. simpl. rewrite H. auto.
Qed.

(** A 429 without the literal leaves the throttle as it is. *)
Lemma throttle_not_activated st clock made genReq est body :
  GoStrings.Contains body "Resource has been exhausted" = false →
  let o := Gemini.afterGenerate st clock made genReq est (HttpResponse 429 body) in
  Gemini.throttleUntil (Gemini.final o) = Gemini.throttleUntil st
  ∧ Gemini.throttleLastReq (Gemini.final o) = Gemini.throttleLastReq st.
Proof.
  intros H. unfold Gemini.afterGenerate. simpl. rewrite H. auto.
Qed.

(** The gate of the handler is an arrival followed, when the request has to
    sleep, by its waking at the end of the sleep. *)
Lemma throttleGate_as_actions st clock :
  let g := {| gateState := st; gateClock := clock; sleeping := []; dispatched := [] |} in
  let '(st', clock') := Gemini.throttleGate st clock in
  ∃ actions g', (actions = [Arrives 0 clock] ∨ actions = [Arrives 0 clock; Wakes 0 clock'])
    ∧ gateRun true g actions = Some g'
    ∧ gateState g' = st' ∧ dispatched g' = [(0%nat, clock')] ∧ sleeping g' = [].
Proof.
  simpl. unfold Gemini.throttleGate.
  destruct (Gemini.throttleActive st clock) eqn:Ea.
  - destruct (0 <? Gemini.throttleWait st clock)%Z eqn:Ew.
    + exists [Arrives 0 clock; Wakes 0 (clock + Gemini.throttleWait st clock)%Z]. eexists.
      split; [right; reflexivity|]. simpl. unfold gateAct. simpl.
      rewrite Z.ltb_irrefl, Ea, Ew. simpl.
      apply Z.ltb_lt in Ew.
      assert ((clock + Gemini.throttleWait st clock <? clock)%Z = false) as ->
        by (apply Z.ltb_ge; lia).
      rewrite Z.ltb_irrefl. simpl. auto.
    + exists [Arrives 0 clock]. eexists. split; [left; reflexivity|].
      simpl. unfold gateAct. simpl. rewrite Z.ltb_irrefl, Ea, Ew.
      assert (Gemini.throttleWait st clock = 0%Z) as ->.
      { unfold Gemini.throttleWait in *.
        destruct (clock - Gemini.throttleLastReq st <? 61 * Second)%Z eqn:E; [|reflexivity].
        apply Z.ltb_lt in E. apply Z.ltb_ge in Ew. lia. }
      rewrite Z.add_0_r. auto.
  - exists [Arrives 0 clock]. eexists. split; [left; reflexivity|].
    simpl. unfold gateAct. simpl. rewrite Z.ltb_irrefl, Ea. auto.
Qed.

End Throttle.

(** C5 fails on the code when two requests are in the gate together: both
    requests of [racing] are dispatched within the 30 minutes after the
    activation, one nanosecond apart. *)
Lemma C5_two_sleepers_wake_together :
  ∃ g, gateRun false (exhaustedAt Examples.freshState 0) racing = Some g
    ∧ dispatched g = [ (1%nat, 61 * Second); (2%nat, 61 * Second + 1) ]%Z
    ∧ (61 * Second < 61 * Second + 1 ≤ 0 + 30 * Minute)%Z
    ∧ ((61 * Second + 1) - 61 * Second < 61 * Second)%Z.
Proof.
  eexists. split; [vm_compute; reflexivity|]. split; [reflexivity|].
  split; vm_compute; repeat split; intros H; discriminate H.
Qed.

(** *** Requests that pass the gate one at a time are spaced *)

Lemma spaced_snoc (horizon : Z) (times : list Z) (x : Z) :
  spaced horizon times →
  ((x < horizon)%Z → ∀ d, In d times → (d + 61 * Second ≤ x)%Z) →
  spaced horizon (times ++ [x]).
Proof.
  induction times as [|t times IH]; simpl; intros Hs Hx.
  - split; [intros t2 []|trivial].
  - destruct Hs as [Ht Hs]. split.
    + intros t2 Hin Hlt. apply in_app_or in Hin as [Hin|[<-|[]]]; [apply Ht; assumption|].
      apply Hx; auto.
    + apply IH; [exact Hs|]. intros Hlt d Hd. apply Hx; auto.
Qed.

Lemma spaced_pairs (horizon : Z) (times : list Z) (t1 t2 : Z) :
  spaced horizon times → In t1 times → In t2 times →
  (t1 < t2)%Z → (t2 < horizon)%Z → (t1 + 61 * Second ≤ t2)%Z.
Proof.
  induction times as [|t times IH]; simpl; intros Hs H1 H2 Hlt Hh; [destruct H1|].
  destruct Hs as [Ht Hs]. destruct H1 as [->|H1], H2 as [->|H2].
  - lia.
  - apply Ht; assumption.
  - assert (t2 + 61 * Second ≤ t1)%Z by (apply Ht; [assumption|lia]).
    unfold Second in *. lia.
  - apply IH; assumption.
Qed.

Lemma in_snoc_pair (l : list (nat * Z)) (x : nat * Z) (id : nat) (d : Z) :
  In (id, d) (l ++ [x]) → In (id, d) l ∨ x = (id, d).
Proof. intros H. apply in_app_or in H as [H|[H|[]]]; auto. Qed.

Lemma gateAct_invariant (horizon : Z) (g g' : Gate) (a : GateAction) :
  gateInvariant horizon g → gateAct true g a = Some g' → gateInvariant horizon g'.
Proof.
  intros [Hu Hc Hp Hm H1 Hsl Hsp]. unfold gateAct.
  destruct (actionTime a <? gateClock g)%Z eqn:Et; [discriminate|].
  apply Z.ltb_ge in Et. destruct a as [now|id now|id now]; simpl in Et.
  - (* activation *)
    intros H; injection H as <-. split; simpl.
    + lia.
    + lia.
    + intros id d Hin. specialize (Hp id d Hin). lia.
    + intros id d Hin _. specialize (Hp id d Hin). lia.
    + exact H1.
    + exact Hsl.
    + exact Hsp.
  - (* arrival *)
    destruct (sleeping g) as [|s rest] eqn:Es; simpl; [|discriminate].
    destruct (Gemini.throttleActive (gateState g) now) eqn:Ea.
    + unfold Gemini.throttleActive in Ea. apply Z.ltb_lt in Ea.
      unfold Gemini.throttleWait.
      destruct (now - Gemini.throttleLastReq (gateState g) <? 61 * Second)%Z eqn:Ew.
      * apply Z.ltb_lt in Ew.
        assert ((0 <? 61 * Second - (now - Gemini.throttleLastReq (gateState g)))%Z = true)
          as -> by (apply Z.ltb_lt; lia).
        intros H; injection H as <-. split; simpl.
        -- exact Hu.
        -- lia.
        -- intros id' d Hin. specialize (Hp id' d Hin). lia.
        -- exact Hm.
        -- lia.
        -- intros id' deadline id'' d [Hin|[]] Hd Hlt. injection Hin as _ <-.
           specialize (Hm id'' d Hd Hlt). lia.
        -- exact Hsp.
      * apply Z.ltb_ge in Ew. simpl.
        intros H; injection H as <-. split; simpl.
        -- exact Hu.
        -- lia.
        -- intros id' d Hin. apply in_snoc_pair in Hin as [Hin|Hin].
           ++ specialize (Hp id' d Hin). lia.
           ++ injection Hin as _ <-. lia.
        -- intros id' d Hin _. apply in_snoc_pair in Hin as [Hin|Hin].
           ++ specialize (Hp id' d Hin). lia.
           ++ injection Hin as _ <-. lia.
        -- lia.
        -- intros ? ? ? ? [].
        -- rewrite map_app. simpl. apply spaced_snoc; [exact Hsp|].
           intros Hlt d Hd. apply in_map_iff in Hd as ([id' d'] & <- & Hd). simpl.
           assert (d' ≤ gateClock g)%Z by (eapply Hp; eauto).
           assert (d' ≤ Gemini.throttleLastReq (gateState g))%Z by (eapply Hm; eauto; lia).
           lia.
    + unfold Gemini.throttleActive in Ea. apply Z.ltb_ge in Ea.
      intros H; injection H as <-. split; simpl.
      * exact Hu.
      * lia.
      * intros id' d Hin. apply in_snoc_pair in Hin as [Hin|Hin].
        -- specialize (Hp id' d Hin). lia.
        -- injection Hin as _ <-. lia.
      * intros id' d Hin Hlt. apply in_snoc_pair in Hin as [Hin|Hin].
        -- apply (Hm id' d Hin Hlt).
        -- injection Hin as _ <-. lia.
      * lia.
      * intros ? ? ? ? [].
      * rewrite map_app. simpl. apply spaced_snoc; [exact Hsp|]. intros Hlt. lia.
  - (* waking *)
    destruct (List.find (isSleeper id) (sleeping g)) as [[id0 deadline]|] eqn:Ef;
      [|discriminate].
    destruct (now <? deadline)%Z eqn:Ed; [discriminate|]. apply Z.ltb_ge in Ed.
    apply find_some in Ef as [Hin Hid].
    assert (Hgone : List.filter (fun s => negb (isSleeper id s)) (sleeping g) = []).
    { destruct (sleeping g) as [|s [|s' rest]]; simpl in *; [reflexivity| |lia].
      destruct Hin as [->|[]]. rewrite Hid. reflexivity. }
    intros H; injection H as <-. split; simpl.
    + exact Hu.
    + lia.
    + intros id' d Hd. apply in_snoc_pair in Hd as [Hd|Hd].
      * specialize (Hp id' d Hd). lia.
      * injection Hd as _ <-. lia.
    + intros id' d Hd _. apply in_snoc_pair in Hd as [Hd|Hd].
      * specialize (Hp id' d Hd). lia.
      * injection Hd as _ <-. lia.
    + rewrite Hgone. simpl. lia.
    + rewrite Hgone. intros ? ? ? ? [].
    + rewrite map_app. simpl. apply spaced_snoc; [exact Hsp|].
      intros Hlt d Hd. apply in_map_iff in Hd as ([id' d'] & <- & Hd). simpl.
      assert (d' ≤ gateClock g)%Z by (eapply Hp; eauto).
      assert (d' + 61 * Second ≤ deadline)%Z by (eapply Hsl; eauto; lia).
      lia.
Qed.

Lemma gateRun_invariant (horizon : Z) (actions : list GateAction) (g g' : Gate) :
  gateInvariant horizon g → gateRun true g actions = Some g' → gateInvariant horizon g'.
Proof.
  revert g. induction actions as [|a actions IH]; simpl; intros g Hg Hrun.
  - injection Hrun as <-. exact Hg.
  - destruct (gateAct true g a) as [g1|] eqn:Ea; [|discriminate].
    eapply IH; [|exact Hrun]. eapply gateAct_invariant; eauto.
Qed.

Lemma exhaustedAt_invariant (st : Gemini.State) (t : Z) :
  gateInvariant (t + 30 * Minute) (exhaustedAt st t).
Proof.
  split; simpl; try lia; try (intros; contradiction); trivial.
Qed.

(** X9.  After an activation at [t], requests that pass the gate one at a
    time and are dispatched before [t + 30min] are at least 61 seconds
    apart. *)
Theorem throttle_spacing_one_at_a_time st t actions g id1 t1 id2 t2 :
  gateRun true (exhaustedAt st t) actions = Some g →
  In (id1, t1) (dispatched g) → In (id2, t2) (dispatched g) →
  (t1 < t2)%Z → (t2 < t + 30 * Minute)%Z →
  (61 * Second ≤ t2 - t1)%Z.
Proof.
  intros Hrun H1 H2 Hlt Hh.
  pose proof (gateRun_invariant _ _ _ _ (exhaustedAt_invariant st t) Hrun) as [_ _ _ _ _ _ Hsp].
  assert (t1 + 61 * Second ≤ t2)%Z; [|lia].
  apply (spaced_pairs (t + 30 * Minute) (map snd (dispatched g))); auto.
  - apply in_map_iff. exists (id1, t1). auto.
  - apply in_map_iff. exists (id2, t2). auto.
Qed.

(** ** C6 and C8: decoding the answer of the upstream *)

Section Decoding.
Context {json_lib : EncodingJson} {hash_lib : Hashing}.

Lemma decodePart_thinking unix acc part :
  Gemini.thinkingText (Gemini.decodePart unix acc part)
  = if isThoughtText part then Text part else Gemini.thinkingText acc.
Proof. unfold Gemini.decodePart, isThoughtText. destruct (FunctionCall part); reflexivity. Qed.

Lemma decodeLoop_thinking unix parts acc :
  Gemini.thinkingText (fold_left (Gemini.decodePart unix) parts acc)
  = match last (List.filter isThoughtText parts) with
    | Some p => Text p
    | None => Gemini.thinkingText acc
    end.
Proof.
  revert acc. induction parts as [|p parts IH]; intros acc; [reflexivity|].
  simpl. rewrite IH, decodePart_thinking.
  destruct (isThoughtText p); [|reflexivity].
  rewrite last_cons. destruct (last (List.filter isThoughtText parts)); reflexivity.
Qed.

Lemma decodeCandidate_thinking unix sigs0 candidate :
  Gemini.thinkingText (Gemini.decodeCandidate unix sigs0 candidate)
  = lastThought (Cand_Parts candidate).
Proof.
  unfold Gemini.decodeCandidate.
  destruct (malformedFallback_keeps unix candidate
              (Gemini.decodeParts unix sigs0 (Cand_Parts candidate))) as (_ & -> & _).
  unfold Gemini.decodeParts. rewrite decodeLoop_thinking. reflexivity.
Qed.

Lemma decodePart_toolUses unix acc part :
  Forall (fun b => isThinking b = false) (Gemini.toolCalls acc) →
  Forall (fun b => isThinking b = false) (Gemini.toolCalls (Gemini.decodePart unix acc part)).
Proof.
  intros H. unfold Gemini.decodePart. destruct (FunctionCall part); simpl; [|exact H].
  apply Forall_app. split; [exact H|]. repeat constructor.
Qed.

Lemma decodeCandidate_toolUses unix sigs0 candidate :
  Forall (fun b => isThinking b = false)
    (Gemini.toolCalls (Gemini.decodeCandidate unix sigs0 candidate)).
Proof.
  unfold Gemini.decodeCandidate, Gemini.decodeParts.
  assert (H : Forall (fun b => isThinking b = false)
                (Gemini.toolCalls (fold_left (Gemini.decodePart unix) (Cand_Parts candidate)
                                     (Gemini.decodeStart sigs0)))).
  { assert (H0 : Forall (fun b => isThinking b = false)
                   (Gemini.toolCalls (Gemini.decodeStart sigs0))) by constructor.
    revert H0. generalize (Gemini.decodeStart sigs0).
    induction (Cand_Parts candidate) as [|p parts IH]; intros acc Hacc; [exact Hacc|].
    simpl. apply IH, decodePart_toolUses, Hacc. }
  unfold Gemini.malformedFallback.
  destruct (_ && _); [|exact H].
  destruct (parseMalformedFunctionCall _) as [name args].
  destruct (_ && _); simpl; [|exact H].
  apply Forall_app. split; [exact H|]. repeat constructor.
Qed.

(** C8, as amended.  The thinking text that the decoder keeps is the text of
    the last part of the first candidate that is a thought with a non-empty
    text.  When there is such a part, the content of the reply begins with
    the thinking block carrying that text; when there is none, the content
    has no thinking block. *)
Theorem C8_thinking_is_last_thought unix sigs0 candidate :
  let d := Gemini.decodeCandidate unix sigs0 candidate in
  let text := lastThought (Cand_Parts candidate) in
  Gemini.thinkingText d = text
  ∧ (text ≠ "" →
     hd_error (Gemini.contentArr d)
     = Some (ThinkingBlock text (Gemini.optSignature (Gemini.thinkingSignature d))))
  ∧ (text = "" → Forall (fun b => isThinking b = false) (Gemini.contentArr d)).
Proof.
  simpl. pose proof (decodeCandidate_thinking unix sigs0 candidate) as Ht.
  split; [exact Ht|]. unfold Gemini.contentArr. rewrite Ht. split.
  - intros Hne. rewrite (strEmpty_false _ Hne). reflexivity.
  - intros ->. simpl. apply Forall_app. split.
    + destruct (0 <? String.length _)%nat; repeat constructor.
    + apply decodeCandidate_toolUses.
Qed.

(** A malformed function call that parses becomes one more tool use. *)
Lemma malformed_call_emitted unix sigs0 candidate name args :
  FinishReason candidate = "MALFORMED_FUNCTION_CALL" →
  FinishMessage candidate ≠ "" →
  parseMalformedFunctionCall (FinishMessage candidate) = (name, Some args) →
  name ≠ "" →
  let d := Gemini.decodeCandidate unix sigs0 candidate in
  Gemini.toolCalls d
  = Gemini.toolCalls (Gemini.decodeParts unix sigs0 (Cand_Parts candidate))
    ++ [ToolUseBlock (Gemini.toolCallId unix (S (countCalls (Cand_Parts candidate))))
          name (Some args) None]
  ∧ Gemini.stopReason d = "tool_use"
  ∧ last (Gemini.contentArr d)
    = Some (ToolUseBlock (Gemini.toolCallId unix (S (countCalls (Cand_Parts candidate))))
              name (Some args) None).
Proof.
  intros Hr Hm Hp Hn. simpl.
  unfold Gemini.decodeCandidate, Gemini.malformedFallback.
  rewrite Hr, Hp, (strEmpty_false _ Hm), (strEmpty_false _ Hn). simpl.
  assert (Hc : Gemini.toolCallCounter
                 (Gemini.decodeParts unix sigs0 (Cand_Parts candidate))
               = countCalls (Cand_Parts candidate)).
  { unfold Gemini.decodeParts. rewrite decodeLoop_counter. reflexivity. }
  rewrite Hc. split; [reflexivity|]. split.
  - unfold Gemini.stopReason. simpl. rewrite length_app. simpl.
    assert ((0 <? length (Gemini.toolCalls
                (Gemini.decodeParts unix sigs0 (Cand_Parts candidate))) + 1)%nat = true) as ->
      by (apply Nat.ltb_lt; lia).
    reflexivity.
  - unfold Gemini.contentArr. simpl. rewrite !app_assoc. apply last_snoc.
Qed.

End Decoding.

Section ConcreteDecoding.
#[local] Existing Instance GoRuntime.jsonCodec.
#[local] Existing Instance GoRuntime.hashing.

(** The claim C8 as stated fails with two thought parts: the thinking block
    carries the text of the second, not of the first. *)
Lemma C8_second_thought_wins :
  Cand_Parts Answers.twoThoughts = [Answers.thought "first"; Answers.thought "second"]
  ∧ Gemini.contentArr (Gemini.decodeCandidate 0 ∅ Answers.twoThoughts)
    = [ThinkingBlock "second" None].
Proof. split; vm_compute; reflexivity. Qed.

(** C6.  [parseMalformedFunctionCall] returns the name [bash] and the
    arguments [{"cmd":"ls"}] for the first finish message, and the name
    [feishu_send_text] and the arguments [{"msg":"hi"}] for the second, whose
    arguments are not JSON until [fixJSON] has put the bare key in quotes.
    For each, whatever the parts of the candidate, the decoder appends a
    tool-use block with that name and input, without signature, and the stop
    reason is [tool_use]. *)
Theorem C6_malformed_call_recovery :
  parseMalformedFunctionCall Answers.bashMessage = ("bash", Some [("cmd", JStr "ls")])
  ∧ parseMalformedFunctionCall Answers.feishuMessage
    = ("feishu_send_text", Some [("msg", JStr "hi")])
  ∧ Unmarshal_map (GoRuntime.js "{msg:'hi'}") = None
  ∧ fixJSON (GoRuntime.js "{msg:'hi'}") = GoRuntime.js "{'msg':'hi'}"
  ∧ (∀ unix sigs0 parts,
       let d := Gemini.decodeCandidate unix sigs0 (Answers.malformed parts Answers.bashMessage) in
       let block := ToolUseBlock (Gemini.toolCallId unix (S (countCalls parts))) "bash"
                      (Some [("cmd", JStr "ls")]) None in
       Gemini.toolCalls d = Gemini.toolCalls (Gemini.decodeParts unix sigs0 parts) ++ [block]
       ∧ Gemini.stopReason d = "tool_use"
       ∧ last (Gemini.contentArr d) = Some block)
  ∧ (∀ unix sigs0 parts,
       let d := Gemini.decodeCandidate unix sigs0
                  (Answers.malformed parts Answers.feishuMessage) in
       let block := ToolUseBlock (Gemini.toolCallId unix (S (countCalls parts)))
                      "feishu_send_text" (Some [("msg", JStr "hi")]) None in
       Gemini.toolCalls d = Gemini.toolCalls (Gemini.decodeParts unix sigs0 parts) ++ [block]
       ∧ Gemini.stopReason d = "tool_use"
       ∧ last (Gemini.contentArr d) = Some block).
Proof.
  assert (Hb : parseMalformedFunctionCall Answers.bashMessage
               = ("bash", Some [("cmd", JStr "ls")])) by (vm_compute; reflexivity).
  assert (Hf : parseMalformedFunctionCall Answers.feishuMessage
               = ("feishu_send_text", Some [("msg", JStr "hi")])) by (vm_compute; reflexivity).
  split; [exact Hb|]. split; [exact Hf|].
  split; [vm_compute; reflexivity|]. split; [vm_compute; reflexivity|]. split.
  - intros unix sigs0 parts.
    apply (malformed_call_emitted unix sigs0 (Answers.malformed parts Answers.bashMessage));
      [reflexivity|vm_compute; discriminate|exact Hb|discriminate].
  - intros unix sigs0 parts.
    apply (malformed_call_emitted unix sigs0 (Answers.malformed parts Answers.feishuMessage));
      [reflexivity|vm_compute; discriminate|exact Hf|discriminate].
Qed.

End ConcreteDecoding.

(** ** C7: a body that is not JSON *)

Section InvalidJson.
Context {json_lib : EncodingJson} {hash_lib : Hashing}.

(** C7, as amended.  For a body that does not decode as a generic request,
    the Gemini handler replies 400 [Invalid JSON] whatever the credential
    headers are, and the OpenAI handler replies 400 [Invalid JSON] when a
    credential is resolved from the headers or the [--key] flag and 401
    [Missing API Key] when none is; in every case no upstream call is made
    and the state is unchanged. *)
Theorem C7_invalid_json body :
  Unmarshal_GenericRequest body = None →
  (∀ cfg up fuel st now authorization key,
     Gemini.handleProxy cfg up fuel st now
       {| Gemini.Authorization := authorization; Gemini.x_api_key := key;
          Gemini.Body := body |}
     = Some {| Gemini.reply := HttpError "Invalid JSON" 400; Gemini.calls := [];
               Gemini.final := st; Gemini.finished := now |})
  ∧ (∀ cfg up fuel st now authorization key,
       let r := {| OpenAI.Authorization := authorization; OpenAI.x_api_key := key;
                   OpenAI.Body := body |} in
       OpenAI.handleProxy cfg up fuel st now r
       = Some {| OpenAI.reply :=
                   match OpenAI.resolveKey cfg r with
                   | Some _ => HttpError "Invalid JSON" 400
                   | None => HttpError "Missing API Key" 401
                   end;
                 OpenAI.calls := []; OpenAI.final := st; OpenAI.finished := now |}).
Proof.
  intros Hbody. split.
  - intros. unfold Gemini.handleProxy. simpl. rewrite Hbody. reflexivity.
  - intros. unfold OpenAI.handleProxy. subst r. simpl.
    destruct (OpenAI.resolveKey cfg _); [rewrite Hbody|]; reflexivity.
Qed.

End InvalidJson.

Section ConcreteInvalidJson.
#[local] Existing Instance GoRuntime.jsonCodec.
#[local] Existing Instance GoRuntime.hashing.

(** The claim C7 as stated fails on the OpenAI relay: without a credential
    header and without [--key], a body that is not JSON gets 401. *)
Lemma C7_openai_replies_401_first :
  Unmarshal_GenericRequest (OpenAI.Body OpenAIExamples.anonymous) = None
  ∧ OpenAI.handleProxy OpenAIExamples.noKey OpenAIExamples.silent 2 OpenAIExamples.idle 0
      OpenAIExamples.anonymous
    = Some {| OpenAI.reply := HttpError "Missing API Key" 401; OpenAI.calls := [];
              OpenAI.final := OpenAIExamples.idle; OpenAI.finished := 0 |}.
Proof. split; vm_compute; reflexivity. Qed.

Lemma C7_invalid_json_witness :
  Gemini.handleProxy Examples.plain
    (Examples.answering Examples.cacheCreated Examples.helloAnswer) 2 Examples.freshState 0
    {| Gemini.Authorization := ""; Gemini.x_api_key := ""; Gemini.Body := "not json" |}
  = Some {| Gemini.reply := HttpError "Invalid JSON" 400; Gemini.calls := [];
            Gemini.final := Examples.freshState; Gemini.finished := 0 |}
  ∧ OpenAI.reply
      (default {| OpenAI.reply := HttpError "" 0; OpenAI.calls := [];
                  OpenAI.final := OpenAIExamples.idle; OpenAI.finished := 0 |}
         (OpenAI.handleProxy OpenAIExamples.noKey OpenAIExamples.silent 2
            OpenAIExamples.idle 0 OpenAIExamples.authorised))
    = HttpError "Invalid JSON" 400.
Proof.
  assert (Hbody : Unmarshal_GenericRequest "not json" = None) by (vm_compute; reflexivity).
  destruct (C7_invalid_json "not json" Hbody) as [Hg Ho]. split.
  - apply Hg.
  - cbv zeta in Ho. unfold OpenAIExamples.authorised.
    rewrite (Ho OpenAIExamples.noKey OpenAIExamples.silent 2%nat OpenAIExamples.idle 0%Z
               "Bearer sk-1" ""). reflexivity.
Defined.

End ConcreteInvalidJson.

(** ** The admission loop of the Gemini relay ends *)





(** ** C9: the credential of the Gemini relay *)

Section DefaultKey.
Context {json_lib : EncodingJson} {hash_lib : Hashing}.







End DefaultKey.

Section ConcreteDefaultKey.
#[local] Existing Instance GoRuntime.jsonCodec.
#[local] Existing Instance GoRuntime.hashing.


End ConcreteDefaultKey.

(** ** More on the token bucket *)

(** X1.  Conservation.  [Consume] of a non-negative amount at instant [now]
    keeps capacity and rate.  An amount above the capacity is refused with
    wait -1 and the bucket untouched.  Otherwise the bucket is stamped [now]
    and its level is at most the refilled level, the smaller of the capacity
    and the old level plus the elapsed time times the rate: exactly that
    level less the amount, and not negative, when the request is allowed,
    and exactly that level, below the amount, when it is refused. *)
Theorem Consume_conservation tb now e :
  (0 <= e)%Q →
  let '(tb', (allowed, waitTime)) := Consume tb now e in
  maxCapacity tb' = maxCapacity tb
  ∧ tokensPerSecond tb' = tokensPerSecond tb
  ∧ (if Qgtb e (maxCapacity tb)
     then tb' = tb ∧ allowed = false ∧ waitTime = (-1)%Q
     else lastUpdateTime tb' = now
          ∧ (currentTokens tb' <= refilled tb now)%Q
          ∧ (refilled tb now <= maxCapacity tb)%Q
          ∧ (if allowed
             then currentTokens tb' = (refilled tb now - e)%Q ∧ (0 <= currentTokens tb')%Q
             else currentTokens tb' = refilled tb now ∧ (currentTokens tb' < e)%Q)).
Proof.
  intros He. unfold Consume. fold (refilled tb now).
  destruct (Qgtb e (maxCapacity tb)) eqn:Ecap; [auto|].
  assert (Hcap : (refilled tb now <= maxCapacity tb)%Q) by apply Q.le_min_l.
  destruct (Qle_bool e (refilled tb now)) eqn:Efit; simpl.
  - apply Qle_bool_iff in Efit. repeat split; trivial; lra.
  - assert (Hlow : (refilled tb now < e)%Q).
    { apply Qnot_le_lt. intros Hle. apply Qle_bool_iff in Hle. congruence. }
    repeat split; trivial; lra.
Qed.

Lemma Consume_conservation_witness :
  (currentTokens (fst (Consume BucketRuns.low (5 * Second) 120))
   <= refilled BucketRuns.low (5 * Second))%Q.
Proof.
  assert (H0 : (0 <= 120)%Q) by (unfold Qle; simpl; lia).
  pose proof (Consume_conservation BucketRuns.low (5 * Second) 120 H0) as H.
  destruct (Consume BucketRuns.low (5 * Second) 120) as [tb' [allowed waitTime]].
  destruct H as (_ & _ & H).
  change (Qgtb 120 (maxCapacity BucketRuns.low)) with false in H.
  destruct H as (_ & H & _). exact H.
Defined.

Lemma applyOp_invariant tb op :
  (currentTokens tb <= maxCapacity tb)%Q → chargesNonNegative op →
  (currentTokens (applyOp tb op) <= maxCapacity (applyOp tb op))%Q
  ∧ maxCapacity (applyOp tb op) = maxCapacity tb
  ∧ tokensPerSecond (applyOp tb op) = tokensPerSecond tb.
Proof.
  intros Hinv Hop. destruct op as [now e|a|a]; simpl in *.
  - unfold Consume. fold (refilled tb now).
    assert (Hcap : (refilled tb now <= maxCapacity tb)%Q) by apply Q.le_min_l.
    destruct (Qgtb e (maxCapacity tb)); [auto|].
    destruct (Qle_bool e (refilled tb now)); simpl; (split; [lra|auto]).
  - split; [apply Q.le_min_l|auto].
  - split; [lra|auto].
Qed.

(** X2.  A bucket whose level is at most its capacity stays so under any
    sequence of [Consume], [Refund] and [ConsumeExtra] whose charges are not
    negative, at whatever instants; capacity and rate never change. *)
Theorem bucket_never_exceeds_capacity tb ops :
  (currentTokens tb <= maxCapacity tb)%Q →
  Forall chargesNonNegative ops →
  (currentTokens (runOps tb ops) <= maxCapacity tb)%Q
  ∧ maxCapacity (runOps tb ops) = maxCapacity tb
  ∧ tokensPerSecond (runOps tb ops) = tokensPerSecond tb.
Proof.
  intros Hinv Hops. revert tb Hinv.
  induction Hops as [|op ops Hop _ IH]; intros tb Hinv; simpl.
  - split; [exact Hinv|auto].
  - destruct (applyOp_invariant tb op Hinv Hop) as (H1 & H2 & H3).
    destruct (IH (applyOp tb op) H1) as (IH1 & IH2 & IH3).
    rewrite H2 in IH1, IH2. rewrite H3 in IH3. auto.
Qed.

Lemma bucket_never_exceeds_capacity_witness :
  (currentTokens (runOps BucketRuns.fresh BucketRuns.twoRequests) <= 600)%Q
  ∧ maxCapacity (runOps BucketRuns.fresh BucketRuns.twoRequests) = 600%Q.
Proof.
  destruct (bucket_never_exceeds_capacity BucketRuns.fresh BucketRuns.twoRequests)
    as (H1 & H2 & _).
  - unfold Qle. simpl. lia.
  - unfold BucketRuns.twoRequests.
    repeat (apply List.Forall_cons; [simpl; try exact I; unfold Qle; simpl; lia|]).
    apply List.Forall_nil.
  - split; [exact H1|exact H2].
Defined.



(** X4.  What a request costs on the Gemini relay: after an allowed
    [Consume] of the estimate, the correction with the upstream's total
    leaves the refilled level less the larger of estimate and total; an
    over-estimate is not given back.  With no total reported the estimate
    stays charged. *)
Theorem gemini_charges_the_larger tb now e tb1 (total : Z) :
  Consume tb now e = (tb1, (true, 0%Q)) →
  (currentTokens (Gemini.correctEstimate tb1 e total)
   == refilled tb now - (if (0 <? total)%Z then Qmax e (inject_Z total) else e))%Q
  ∧ (currentTokens (Gemini.correctEstimate tb1 e total) <= currentTokens tb1)%Q.
Proof.
  intros Hc. apply Consume_allowed in Hc as (Hle & -> & _).
  unfold Gemini.correctEstimate. destruct (0 <? total)%Z; [|simpl; split; lra].
  destruct (Qgtb (inject_Z total) e) eqn:Eg.
  - apply Qgtb_true in Eg. simpl.
    rewrite (Q.max_r e (inject_Z total)) by lra. split; lra.
  - apply Qgtb_false in Eg. simpl.
    rewrite (Q.max_l e (inject_Z total)) by lra. split; lra.
Qed.

Lemma gemini_charges_the_larger_witness :
  (currentTokens (Gemini.correctEstimate (fst (Consume BucketRuns.low (5 * Second) 120)) 120 90)
   == refilled BucketRuns.low (5 * Second)
      - (if (0 <? 90)%Z then Qmax 120 (inject_Z 90) else 120))%Q.
Proof.
  apply (gemini_charges_the_larger BucketRuns.low (5 * Second) 120
           (fst (Consume BucketRuns.low (5 * Second) 120)) 90).
  vm_compute. reflexivity.
Defined.

(** ** More on the OpenAI relay *)

Lemma Seconds_le (a b : Z) : (a ≤ b)%Z → (Seconds a <= Seconds b)%Q.
Proof. intros H. unfold Seconds, Qle. simpl. lia. Qed.

Lemma truncate_nonneg (q : Q) : (0 <= q)%Q → (0 ≤ truncate q)%Z.
Proof.
  intros Hq. unfold truncate.
  assert (Qltb q 0 = false) as -> by (apply Qltb_false; exact Hq).
  change 0%Z with (Qfloor 0). apply Qfloor_resp_le, Hq.
Qed.

(** A refusal with a wait: the request fits the capacity, the refilled level
    is below the estimate, and the bucket is left at the refilled level. *)
Lemma Consume_wait tb clock e tb' wait :
  (0 < tokensPerSecond tb)%Q →
  Consume tb clock e = (tb', (false, wait)) →
  Qltb wait 0 = false →
  (e <= maxCapacity tb)%Q
  ∧ (refilled tb clock < e)%Q
  ∧ (0 <= wait)%Q
  ∧ tb' = {| maxCapacity := maxCapacity tb;
             tokensPerSecond := tokensPerSecond tb;
             currentTokens := refilled tb clock;
             lastUpdateTime := clock |}.
Proof.
  intros Hrate. unfold Consume. fold (refilled tb clock).
  destruct (Qgtb e (maxCapacity tb)) eqn:Ecap.
  { intros H; injection H as <- <-. intros Hw. discriminate Hw. }
  apply Qgtb_false in Ecap.
  destruct (Qle_bool e (refilled tb clock)) eqn:Efit; [discriminate|].
  intros H; injection H as <- <-. intros Hw. apply Qltb_false in Hw.
  split; [exact Ecap|]. split; [|split; [exact Hw|reflexivity]].
  apply Qnot_le_lt. intros Hle. apply Qle_bool_iff in Hle. congruence.
Qed.

(** The admission loop of the OpenAI relay ends when every reading of the
    clock after a sleep comes at least [delta] later than the end of the
    sleep: every round with a wait brings the level [delta] seconds of
    refill closer to the estimate. *)
Lemma openai_awaitTokens_ends up (delta : Z) e :
  (0 < delta)%Z → (∀ t, (delta ≤ OpenAI.lag up t)%Z) →
  ∀ (n fuel : nat) tb clock,
    (n < fuel)%nat → (0 < tokensPerSecond tb)%Q →
    (e - refilled tb clock
     <= inject_Z (Z.of_nat n) * (Seconds delta * tokensPerSecond tb))%Q →
    OpenAI.awaitTokens up fuel tb clock e ≠ OpenAI.StillWaiting.
Proof.
  intros Hdelta Hlag. induction n as [|n IH]; intros fuel tb clock Hfuel Hrate Hn;
    (destruct fuel as [|fuel]; [lia|]); cbn [OpenAI.awaitTokens];
    destruct (Consume tb clock e) as [tb' [allowed wait]] eqn:Ec;
    (destruct allowed; [discriminate|]);
    (destruct (Qltb wait 0) eqn:Ew; [discriminate|]);
    destruct (Consume_wait _ _ _ _ _ Hrate Ec Ew) as (Hcap & Hlow & Hwait & ->).
  - exfalso. change (inject_Z (Z.of_nat 0)) with 0%Q in Hn. rewrite Qmult_0_l in Hn. lra.
  - apply IH; [lia|exact Hrate|]. simpl tokensPerSecond.
    set (woken := (clock + truncate (wait * 1000) * Millisecond)%Z).
    set (rate := tokensPerSecond tb) in *.
    set (level := refilled tb clock) in *.
    assert (Hslept : (Seconds delta <= Seconds (woken + OpenAI.lag up woken - clock))%Q).
    { apply Seconds_le. pose proof (Hlag woken) as Hl.
      assert (0 ≤ truncate (wait * 1000))%Z by (apply truncate_nonneg; lra).
      unfold woken, Millisecond in *. lia. }
    assert (Hgain : (Seconds delta * rate
                     <= Seconds (woken + OpenAI.lag up woken - clock) * rate)%Q).
    { apply Qmult_le_compat_r; [exact Hslept|apply Qlt_le_weak, Hrate]. }
    assert (Hstep : (0 < Seconds delta * rate)%Q).
    { apply Qmult_lt_0_compat; [|exact Hrate]. unfold Seconds, Qlt. simpl. lia. }
    assert (Hrest : (0 <= inject_Z (Z.of_nat n) * (Seconds delta * rate))%Q).
    { apply Qmult_le_0_compat; [|apply Qlt_le_weak, Hstep].
      change 0%Q with (inject_Z 0). rewrite <- Zle_Qle. lia. }
    assert (Hsucc : (inject_Z (Z.of_nat (S n)) * (Seconds delta * rate)
                     == inject_Z (Z.of_nat n) * (Seconds delta * rate)
                        + Seconds delta * rate)%Q).
    { rewrite Nat2Z.inj_succ. unfold Z.succ. rewrite inject_Z_plus. ring. }
    rewrite Hsucc in Hn. unfold refilled. simpl.
    set (gained := (Seconds (woken + OpenAI.lag up woken - clock) * rate)%Q) in *.
    destruct (Q.min_spec (maxCapacity tb) (level + gained)%Q) as [[_ Hm]|[_ Hm]];
      rewrite Hm; lra.
Qed.

Lemma rounds_exist (d c : Q) : (0 < c)%Q → ∃ n : nat, (d <= inject_Z (Z.of_nat n) * c)%Q.
Proof.
  intros Hc. exists (Z.to_nat (Qceiling (d / c))).
  pose proof (Qle_ceiling (d / c)) as H1.
  assert (H2 : (inject_Z (Qceiling (d / c))
                <= inject_Z (Z.of_nat (Z.to_nat (Qceiling (d / c)))))%Q).
  { rewrite <- Zle_Qle. lia. }
  assert (H3 : (d == d / c * c)%Q) by (field; lra).
  rewrite H3 at 1. apply Qmult_le_compat_r; lra.
Qed.

Section OpenAIProofs.
Context {json_lib : EncodingJson}.

(** The runs of the handler: one that ends before any call, with an error of
    the relay's own, or one that dispatches the translated request. *)
Lemma openai_handleProxy_inv cfg up fuel st now r o :
  OpenAI.handleProxy cfg up fuel st now r = Some o →
  (OpenAI.calls o = [] ∧ OpenAI.adaptiveRatio (OpenAI.final o) = OpenAI.adaptiveRatio st
   ∧ ∃ msg status, OpenAI.reply o = HttpError msg status
                   ∧ (status = 401 ∨ status = 400 ∨ status = 429)%Z)
  ∨ ∃ reqKey genReq st1 clock e raw,
      OpenAI.resolveKey cfg r = Some reqKey
      ∧ Unmarshal_GenericRequest (OpenAI.Body r) = Some genReq
      ∧ OpenAI.adaptiveRatio st1 = OpenAI.adaptiveRatio st
      ∧ (OpenAI.tpmLimiter st = None ∧ st1 = st ∧ raw = 0%Q
         ∨ OpenAI.tpmLimiter st ≠ None ∧ OpenAI.tpmLimiter st1 ≠ None
           ∧ raw = OpenAI.rawEstimateOf (OpenAI.Body r))
      ∧ o = OpenAI.dispatch cfg up st1 clock reqKey genReq (OpenAI.buildOpenAIRequest genReq)
              e raw.
Proof.
  unfold OpenAI.handleProxy. intros Hrun.
  destruct (OpenAI.resolveKey cfg r) as [reqKey|];
    [|injection Hrun as <-; left; simpl; eauto 10].
  destruct (Unmarshal_GenericRequest (OpenAI.Body r)) as [genReq|];
    [|injection Hrun as <-; left; simpl; eauto 10].
  destruct (OpenAI.tpmLimiter st) as [tb|] eqn:Et.
  - destruct (OpenAI.awaitTokens _ _ _ _ _) as [tb1 clock1|tb1 clock1|];
      [|injection Hrun as <-; left; simpl; eauto 10|discriminate].
    injection Hrun as <-. right.
    exists reqKey, genReq,
      {| OpenAI.tpmLimiter := Some tb1; OpenAI.adaptiveRatio := OpenAI.adaptiveRatio st |},
      clock1, (OpenAI.rawEstimateOf (OpenAI.Body r) * OpenAI.adaptiveRatio st)%Q,
      (OpenAI.rawEstimateOf (OpenAI.Body r)).
    split; [reflexivity|]. split; [reflexivity|]. split; [reflexivity|].
    split; [right; repeat split; discriminate|reflexivity].
  - injection Hrun as <-. right. exists reqKey, genReq, st, now, 0%Q, 0%Q.
    split; [reflexivity|]. split; [reflexivity|]. split; [reflexivity|].
    split; [left; auto|reflexivity].
Qed.

Lemma openai_afterChat_calls st clock made genReq e raw answer :
  OpenAI.calls (OpenAI.afterChat st clock made genReq e raw answer) = made.
Proof.
  unfold OpenAI.afterChat. destruct answer as [err|status body]; [reflexivity|].
  destruct (negb (status =? 200)%Z); [reflexivity|].
  destruct (Unmarshal_OpenAIResponse body) as [oaiResp|]; [|reflexivity].
  destruct (Choices oaiResp); reflexivity.
Qed.

(** The two ends of a dispatch: the panic, or the call and its answer. *)
Lemma openai_dispatch_cases cfg up st clock reqKey genReq oaiReq e raw :
  let o := OpenAI.dispatch cfg up st clock reqKey genReq oaiReq e raw in
  let call := OpenAI.CallChat (OpenAI.baseURL cfg) reqKey oaiReq in
  (OpenAI.newRequest up "POST" (OpenAI.baseURL cfg) = false
   ∧ o = {| OpenAI.reply := Aborted; OpenAI.calls := []; OpenAI.final := st;
            OpenAI.finished := clock |})
  ∨ (OpenAI.newRequest up "POST" (OpenAI.baseURL cfg) = true
     ∧ OpenAI.calls o = [call]
     ∧ o = OpenAI.afterChat st (clock + OpenAI.latency up call)%Z [call] genReq e raw
             (OpenAI.respond up call)).
Proof.
  simpl. unfold OpenAI.dispatch.
  destruct (OpenAI.newRequest up _ _); [right|left; auto].
  split; [reflexivity|]. split; [apply openai_afterChat_calls|reflexivity].
Qed.

(** A request handled alone gets its reply: the handler ends for every
    limiter of positive rate. *)
Lemma openai_handleProxy_ends cfg up st now r (delta : Z) :
  (0 < delta)%Z → (∀ t, (delta ≤ OpenAI.lag up t)%Z) →
  (∀ tb, OpenAI.tpmLimiter st = Some tb → (0 < tokensPerSecond tb)%Q) →
  ∃ fuel0, ∀ fuel, (fuel0 ≤ fuel)%nat →
    ∃ o, OpenAI.handleProxy cfg up fuel st now r = Some o.
Proof.
  intros Hdelta Hlag Hrate. unfold OpenAI.handleProxy.
  destruct (OpenAI.resolveKey cfg r) as [reqKey|]; [|exists 0%nat; eauto].
  destruct (Unmarshal_GenericRequest (OpenAI.Body r)) as [genReq|]; [|exists 0%nat; eauto].
  destruct (OpenAI.tpmLimiter st) as [tb|]; [|exists 0%nat; eauto].
  specialize (Hrate tb eq_refl).
  set (e := (OpenAI.rawEstimateOf (OpenAI.Body r) * OpenAI.adaptiveRatio st)%Q).
  assert (Hstep : (0 < Seconds delta * tokensPerSecond tb)%Q).
  { apply Qmult_lt_0_compat; [|exact Hrate]. unfold Seconds, Qlt. simpl. lia. }
  destruct (rounds_exist (e - refilled tb now) _ Hstep) as [n Hn].
  exists (S n). intros fuel Hfuel.
  pose proof (openai_awaitTokens_ends up delta e Hdelta Hlag n fuel tb now
                ltac:(lia) Hrate Hn) as Hends.
  destruct (OpenAI.awaitTokens up fuel tb now e); [eauto|eauto|contradiction].
Qed.

(** X5.  A request handled alone gets its reply, also when it has to wait
    for tokens: for a limiter of positive rate, and readings of the clock
    that come at least [delta] after the end of a sleep, the handler ends
    for every bound on the rounds of the admission loop from some bound on.
    A run makes at most one upstream call, to the configured URL, with the
    resolved credential and the translation of the request.  A run without
    a call ends with an error 401, 400 or 429 of the relay's own, or, when
    [http.NewRequest] does not build a request for the configured URL, with
    the panic on that request. *)
Theorem openai_at_most_one_call cfg up st now r (delta : Z) :
  (0 < delta)%Z → (∀ t, (delta ≤ OpenAI.lag up t)%Z) →
  (∀ tb, OpenAI.tpmLimiter st = Some tb → (0 < tokensPerSecond tb)%Q) →
  (∃ fuel0, ∀ fuel, (fuel0 ≤ fuel)%nat →
     ∃ o, OpenAI.handleProxy cfg up fuel st now r = Some o)
  ∧ ∀ fuel o, OpenAI.handleProxy cfg up fuel st now r = Some o →
      (OpenAI.calls o = []
       ∧ ((∃ msg status, OpenAI.reply o = HttpError msg status
                         ∧ (status = 401 ∨ status = 400 ∨ status = 429)%Z)
          ∨ (OpenAI.reply o = Aborted
             ∧ OpenAI.newRequest up "POST" (OpenAI.baseURL cfg) = false)))
      ∨ ∃ reqKey genReq,
          OpenAI.resolveKey cfg r = Some reqKey
          ∧ Unmarshal_GenericRequest (OpenAI.Body r) = Some genReq
          ∧ OpenAI.newRequest up "POST" (OpenAI.baseURL cfg) = true
          ∧ OpenAI.calls o
            = [OpenAI.CallChat (OpenAI.baseURL cfg) reqKey
                 (OpenAI.buildOpenAIRequest genReq)].
Proof.
  intros Hdelta Hlag Hrate.
  split; [exact (openai_handleProxy_ends cfg up st now r delta Hdelta Hlag Hrate)|].
  intros fuel o Hrun.
  apply openai_handleProxy_inv in Hrun
    as [(Hc & _ & Hr)|(reqKey & genReq & st1 & clock & e & raw & Hk & Hb & _ & _ & ->)].
  - left. auto.
  - destruct (openai_dispatch_cases cfg up st1 clock reqKey genReq
                (OpenAI.buildOpenAIRequest genReq) e raw) as [[Hn ->]|(Hn & Hc & _)].
    + left. simpl. auto.
    + right. exists reqKey, genReq. auto.
Qed.

Lemma updateRatio_formula ratio raw actual :
  (0 < raw)%Q →
  (OpenAI.updateRatio ratio raw actual == (8 # 10) * ratio + (2 # 10) * (actual / raw))%Q.
Proof.
  intros Hraw. unfold OpenAI.updateRatio.
  assert (Qgtb raw 0 = true) as -> by (apply Qgtb_true; exact Hraw). reflexivity.
Qed.

Lemma rawEstimateOf_nonneg body : (0 <= OpenAI.rawEstimateOf body)%Q.
Proof.
  unfold OpenAI.rawEstimateOf. apply Qle_shift_div_l; [reflexivity|].
  rewrite Qmult_0_l. rewrite <- (Zle_Qle 0). lia.
Qed.

(** What the answer does to the ratio: an answer 200 that parses and reports
    a positive total, with a limiter and a positive raw estimate, sets it by
    the formula; any other leaves it. *)
Lemma openai_afterChat_ratio st clock made genReq e raw answer :
  let o := OpenAI.afterChat st clock made genReq e raw answer in
  (∀ body oaiResp,
     answer = HttpResponse 200 body → Unmarshal_OpenAIResponse body = Some oaiResp →
     OpenAI.tpmLimiter st ≠ None → (0 < TotalTokens oaiResp)%Z → (0 < raw)%Q →
     OpenAI.adaptiveRatio (OpenAI.final o)
     = OpenAI.updateRatio (OpenAI.adaptiveRatio st) raw (inject_Z (TotalTokens oaiResp)))
  ∧ (OpenAI.adaptiveRatio (OpenAI.final o) = OpenAI.adaptiveRatio st
     ∨ ∃ body oaiResp,
         answer = HttpResponse 200 body ∧ Unmarshal_OpenAIResponse body = Some oaiResp
         ∧ OpenAI.tpmLimiter st ≠ None ∧ (0 < TotalTokens oaiResp)%Z ∧ (0 < raw)%Q).
Proof.
  simpl. unfold OpenAI.afterChat. split.
  - intros body oaiResp -> Hparse Hl Ht Hr. simpl. rewrite Hparse.
    assert (Hc : OpenAI.adaptiveRatio (OpenAI.correct st e raw (TotalTokens oaiResp))
                 = OpenAI.updateRatio (OpenAI.adaptiveRatio st) raw
                     (inject_Z (TotalTokens oaiResp))).
    { unfold OpenAI.correct. destruct (OpenAI.tpmLimiter st); [|contradiction].
      apply Z.ltb_lt in Ht. rewrite Ht. reflexivity. }
    destruct (Choices oaiResp); exact Hc.
  - destruct answer as [err|status body]; [left; reflexivity|].
    destruct (status =? 200)%Z eqn:Es; simpl; [|left; reflexivity].
    apply Z.eqb_eq in Es. subst status.
    destruct (Unmarshal_OpenAIResponse body) as [oaiResp|] eqn:Ep; [|left; reflexivity].
    assert (Hc : OpenAI.adaptiveRatio (OpenAI.correct st e raw (TotalTokens oaiResp))
                 = OpenAI.adaptiveRatio st
                 ∨ OpenAI.tpmLimiter st ≠ None ∧ (0 < TotalTokens oaiResp)%Z ∧ (0 < raw)%Q).
    { unfold OpenAI.correct. destruct (OpenAI.tpmLimiter st) as [tb|]; [|left; reflexivity].
      destruct (0 <? TotalTokens oaiResp)%Z eqn:Et; [|left; reflexivity].
      apply Z.ltb_lt in Et. simpl. unfold OpenAI.updateRatio.
      destruct (Qgtb raw 0) eqn:Er; [|left; reflexivity].
      apply Qgtb_true in Er. right. repeat split; trivial. discriminate. }
    destruct Hc as [Hc|Hc].
    + left. destruct (Choices oaiResp); exact Hc.
    + right. exists body, oaiResp. tauto.
Qed.

(** X6.  The adaptive ratio, as an exact number; the [float64] of the code
    is this number up to the rounding of each operation.  When the one call
    of a run with a limiter is answered 200 with a body that parses and reports a
    positive total, for a request body of positive raw estimate, the run
    leaves the ratio 0.8 times the old ratio plus 0.2 times the observed
    ratio of the reported total to the raw estimate.  Every other run leaves
    the ratio as it is.  A positive ratio stays positive. *)
Theorem adaptive_ratio_update cfg up fuel st now r o :
  OpenAI.handleProxy cfg up fuel st now r = Some o →
  let ratio := OpenAI.adaptiveRatio st in
  let ratio' := OpenAI.adaptiveRatio (OpenAI.final o) in
  let raw := OpenAI.rawEstimateOf (OpenAI.Body r) in
  (∀ call body oaiResp,
     OpenAI.calls o = [call] → OpenAI.respond up call = HttpResponse 200 body →
     Unmarshal_OpenAIResponse body = Some oaiResp →
     OpenAI.tpmLimiter st ≠ None → (0 < TotalTokens oaiResp)%Z → (0 < raw)%Q →
     (ratio' == (8 # 10) * ratio + (2 # 10) * (inject_Z (TotalTokens oaiResp) / raw))%Q)
  ∧ (ratio' = ratio
     ∨ ∃ call body oaiResp,
         OpenAI.calls o = [call] ∧ OpenAI.respond up call = HttpResponse 200 body
         ∧ Unmarshal_OpenAIResponse body = Some oaiResp
         ∧ OpenAI.tpmLimiter st ≠ None ∧ (0 < TotalTokens oaiResp)%Z ∧ (0 < raw)%Q)
  ∧ ((0 < ratio)%Q → (0 < ratio')%Q).
Proof.
  intros Hrun. cbv zeta.
  apply openai_handleProxy_inv in Hrun
    as [(Hc & Hr & _)|(reqKey & genReq & st1 & clock & e & raw & _ & _ & Hst & Hraw & ->)].
  { split; [intros call body oaiResp H; rewrite Hc in H; discriminate H|].
    split; [left; exact Hr|]. rewrite Hr. auto. }
  destruct (openai_dispatch_cases cfg up st1 clock reqKey genReq
              (OpenAI.buildOpenAIRequest genReq) e raw) as [[Hn ->]|(Hn & Hc & ->)].
  { simpl. split; [intros call body oaiResp H; discriminate H|].
    split; [left; exact Hst|]. rewrite Hst. auto. }
  set (call := OpenAI.CallChat (OpenAI.baseURL cfg) reqKey
                 (OpenAI.buildOpenAIRequest genReq)) in *.
  rewrite openai_afterChat_calls.
  destruct (openai_afterChat_ratio st1 (clock + OpenAI.latency up call)%Z [call] genReq e raw
              (OpenAI.respond up call)) as [Hset Hkeep]. simpl in Hset, Hkeep.
  assert (Hraw' : OpenAI.tpmLimiter st ≠ None →
                  OpenAI.tpmLimiter st1 ≠ None
                  ∧ raw = OpenAI.rawEstimateOf (OpenAI.Body r)).
  { intros Hl. destruct Hraw as [(Hnone & _)|(_ & H1 & H2)]; [contradiction|auto]. }
  assert (Hback : OpenAI.tpmLimiter st1 ≠ None → (0 < raw)%Q →
                  OpenAI.tpmLimiter st ≠ None
                  ∧ raw = OpenAI.rawEstimateOf (OpenAI.Body r)).
  { intros Hl Hr. destruct Hraw as [(_ & _ & ->)|(H0 & _ & H2)]; [|auto].
    exfalso. apply (Qlt_irrefl 0), Hr. }
  split; [|split].
  - intros call' body oaiResp Hcall Hanswer Hparse Hl Ht Hr.
    injection Hcall as <-. destruct (Hraw' Hl) as [Hl1 Hr1].
    rewrite (Hset body oaiResp Hanswer Hparse Hl1 Ht ltac:(rewrite Hr1; exact Hr)).
    rewrite Hst, Hr1. apply updateRatio_formula, Hr.
  - destruct Hkeep as [Hk|(body & oaiResp & Ha & Hp & Hl & Ht & Hr)].
    + left. rewrite Hk. exact Hst.
    + right. destruct (Hback Hl Hr) as [Hl0 Hr0]. exists call, body, oaiResp.
      rewrite <- Hr0. auto 10.
  - intros Hpos. destruct Hkeep as [Hk|(body & oaiResp & Ha & Hp & Hl & Ht & Hr)].
    + rewrite Hk, Hst. exact Hpos.
    + rewrite (Hset body oaiResp Ha Hp Hl Ht Hr), Hst, (updateRatio_formula _ _ _ Hr).
      assert (Hobs : (0 < inject_Z (TotalTokens oaiResp) / raw)%Q).
      { apply Qlt_shift_div_l; [exact Hr|]. rewrite Qmult_0_l.
        rewrite <- (Zlt_Qlt 0). exact Ht. }
      lra.
Qed.

Lemma assistantMessage_role m : OM_Role (OpenAI.assistantMessage m) = "assistant".
Proof.
  unfold OpenAI.assistantMessage.
  destruct (Unmarshal_ContentBlocks (Msg_Content m)); reflexivity.
Qed.

(** The roles of the messages a client message becomes. *)
Lemma openai_translateMessage_roles toolIdToName m :
  Forall (fun out => OM_Role out = "user" ∨ OM_Role out = "assistant" ∨ OM_Role out = "tool")
    (OpenAI.translateMessage toolIdToName m).
Proof.
  unfold OpenAI.translateMessage.
  destruct (String.eqb (Msg_Role m) "system"); [constructor|].
  destruct (String.eqb (Msg_Role m) "user").
  { unfold OpenAI.userMessages.
    destruct (Unmarshal_ContentBlocks (Msg_Content m)) as [blocks|].
    - apply Forall_app. split.
      + apply List.Forall_forall. intros out Hin. apply in_map_iff in Hin as (tr & <- & _).
        simpl. auto.
      + destruct (0 <? length _)%nat; [|constructor].
        constructor; [left; reflexivity|constructor].
    - destruct (strEmpty _); [constructor|].
      constructor; [left; reflexivity|constructor]. }
  destruct (String.eqb (Msg_Role m) "assistant").
  { constructor; [|constructor]. right; left. apply assistantMessage_role. }
  destruct (String.eqb (Msg_Role m) "tool"); [|constructor].
  constructor; [right; right; reflexivity|constructor].
Qed.

(** X7.  The roles of the outgoing messages are [system], [user],
    [assistant] and [tool].  A [system] message is the first message only,
    and there is one exactly when the request has a system prompt, which is
    its content: the client's own messages of role [system] are dropped. *)
Theorem openai_system_message_first genReq :
  let out := OReq_Messages (OpenAI.buildOpenAIRequest genReq) in
  Forall (fun m => OM_Role m = "system" ∨ OM_Role m = "user" ∨ OM_Role m = "assistant"
                   ∨ OM_Role m = "tool") out
  ∧ (∀ i m, out !! i = Some m → OM_Role m = "system" →
       i = 0%nat ∧ Req_System genReq ≠ ""
       ∧ m = OpenAI.plainMessage "system" (Req_System genReq))
  ∧ (Req_System genReq ≠ "" →
     out !! 0%nat = Some (OpenAI.plainMessage "system" (Req_System genReq))).
Proof.
  simpl.
  set (rest := flat_map _ (Req_Messages genReq)).
  assert (Hrest : Forall (fun out => OM_Role out = "user" ∨ OM_Role out = "assistant"
                                     ∨ OM_Role out = "tool") rest).
  { unfold rest. clear rest. generalize (buildToolIdToName (Req_Messages genReq)).
    intros toolIdToName.
    induction (Req_Messages genReq) as [|m ms IH]; simpl; [constructor|].
    apply Forall_app. split; [apply openai_translateMessage_roles|exact IH]. }
  assert (Hnot : ∀ i m, rest !! i = Some m → OM_Role m ≠ "system").
  { intros i m Hi Hs. rewrite Forall_lookup in Hrest.
    destruct (Hrest i m Hi) as [H|[H|H]]; rewrite Hs in H; discriminate H. }
  destruct (strEmpty (Req_System genReq)) eqn:Es.
  - apply strEmpty_true in Es. simpl. split; [|split].
    + eapply Forall_impl; [exact Hrest|]. tauto.
    + intros i m Hi Hs. exfalso. exact (Hnot i m Hi Hs).
    + intros H. contradiction.
  - simpl. split; [|split].
    + constructor; [left; reflexivity|]. eapply Forall_impl; [exact Hrest|]. tauto.
    + intros [|i] m Hi Hs; simpl in Hi.
      * injection Hi as <-. split; [reflexivity|]. split; [|reflexivity].
        intros E. rewrite E in Es. discriminate Es.
      * exfalso. exact (Hnot i m Hi Hs).
    + reflexivity.
Qed.

Lemma filter_hasRole_none role (l : list OpenAIMessage) :
  Forall (fun m => OM_Role m ≠ role) l → List.filter (hasRole role) l = [].
Proof.
  induction 1 as [|m l Hm _ IH]; [reflexivity|]. simpl. unfold hasRole at 1.
  destruct (String.eqb_spec (OM_Role m) role); [contradiction|exact IH].
Qed.

(** X8.  Every assistant message of the client becomes exactly one outgoing
    assistant message, in order, also when it has neither text nor tool
    calls; no other message becomes one. *)
Theorem openai_assistant_one_to_one genReq :
  List.filter (hasRole "assistant") (OReq_Messages (OpenAI.buildOpenAIRequest genReq))
  = map OpenAI.assistantMessage (List.filter fromAssistant (Req_Messages genReq)).
Proof.
  simpl. rewrite List.filter_app.
  assert (List.filter (hasRole "assistant")
            (if strEmpty (Req_System genReq) then []
             else [OpenAI.plainMessage "system" (Req_System genReq)]) = []) as ->
    by (destruct (strEmpty _); reflexivity).
  simpl. generalize (buildToolIdToName (Req_Messages genReq)). intros toolIdToName.
  induction (Req_Messages genReq) as [|m ms IH]; [reflexivity|].
  simpl. rewrite List.filter_app, IH. unfold fromAssistant at 2.
  unfold OpenAI.translateMessage.
  destruct (String.eqb_spec (Msg_Role m) "system") as [Hs|_].
  { rewrite Hs. reflexivity. }
  destruct (String.eqb_spec (Msg_Role m) "user") as [Hu|_].
  { rewrite Hu. simpl. rewrite filter_hasRole_none; [reflexivity|].
    unfold OpenAI.userMessages.
    destruct (Unmarshal_ContentBlocks (Msg_Content m)) as [blocks|].
    - apply Forall_app. split.
      + apply List.Forall_forall. intros out Hin. apply in_map_iff in Hin as (tr & <- & _).
        discriminate.
      + destruct (0 <? length _)%nat; [|constructor].
        constructor; [discriminate|constructor].
    - destruct (strEmpty _); [constructor|].
      constructor; [discriminate|constructor]. }
  destruct (String.eqb (Msg_Role m) "assistant") eqn:Ea.
  { simpl. unfold hasRole at 1. rewrite assistantMessage_role. reflexivity. }
  destruct (String.eqb (Msg_Role m) "tool"); reflexivity.
Qed.

End OpenAIProofs.

Section ConcreteOpenAI.
#[local] Existing Instance GoRuntime.jsonCodec.

Lemma openai_at_most_one_call_witness :
  ∃ o, OpenAIRuns.waitingRun 3 = Some o
       ∧ (2 * Second < OpenAI.finished o)%Z
       ∧ length (OpenAI.calls o) = 1%nat.
Proof.
  destruct (openai_at_most_one_call OpenAIExamples.noKey
              (OpenAIRuns.answering OpenAIRuns.hiAnswer) OpenAIRuns.drained 0
              OpenAIRuns.ask 1000000) as [_ Hshape].
  - lia.
  - intros t. simpl. lia.
  - intros tb H. injection H as <-. reflexivity.
  - destruct (OpenAIRuns.waitingRun 3) as [o|] eqn:E; [|vm_compute in E; discriminate E].
    exists o. split; [reflexivity|]. split.
    + vm_compute in E. injection E as <-. vm_compute. reflexivity.
    + destruct (Hshape 3%nat o E)
        as [(_ & [(msg & status & Hr & _)|(Hr & _)])|(reqKey & genReq & _ & _ & _ & ->)];
        [| |reflexivity]; exfalso; vm_compute in E; injection E as <-; discriminate Hr.
Defined.

Lemma adaptive_ratio_update_witness :
  ∃ o, OpenAIRuns.run = Some o ∧ (0 < OpenAI.adaptiveRatio (OpenAI.final o))%Q.
Proof.
  destruct OpenAIRuns.run as [o|] eqn:E; [|vm_compute in E; discriminate E].
  exists o. split; [reflexivity|].
  apply (adaptive_ratio_update _ _ _ _ _ _ _ E). reflexivity.
Defined.

End ConcreteOpenAI.

(** ** More on the throttle *)

Lemma throttle_spacing_one_at_a_time_witness :
  (61 * Second ≤ 122 * Second - 61 * Second)%Z.
Proof.
  eapply (throttle_spacing_one_at_a_time Examples.freshState 0 serial _ 1%nat _ 2%nat _).
  - vm_compute. reflexivity.
  - simpl. left. reflexivity.
  - simpl. right. left. reflexivity.
  - reflexivity.
  - reflexivity.
Defined.

(** X10.  The gate delays a request by 61 seconds at most, and not at all
    when the throttle is not active; it never moves the deadline.  A request
    that finds the throttle active is dispatched 61 seconds or more after the
    request marked before it, and is the one marked then. *)
Theorem throttleGate_delay st clock :
  (Gemini.throttleLastReq st ≤ clock)%Z →
  let '(st', clock') := Gemini.throttleGate st clock in
  (clock ≤ clock' ≤ clock + 61 * Second)%Z
  ∧ Gemini.throttleUntil st' = Gemini.throttleUntil st
  ∧ (if Gemini.throttleActive st clock
     then Gemini.throttleLastReq st' = clock'
          ∧ (Gemini.throttleLastReq st + 61 * Second ≤ clock')%Z
          ∧ (clock' = clock ∨ clock' = Gemini.throttleLastReq st + 61 * Second)%Z
     else st' = st ∧ clock' = clock).
Proof.
  intros Hpast. unfold Gemini.throttleGate.
  destruct (Gemini.throttleActive st clock); [|unfold Second; split; [lia|auto]].
  unfold Gemini.throttleWait. simpl.
  destruct (clock - Gemini.throttleLastReq st <? 61 * Second)%Z eqn:E; unfold Second in *.
  - apply Z.ltb_lt in E. repeat split; lia.
  - apply Z.ltb_ge in E. repeat split; lia.
Qed.

Lemma throttleGate_delay_witness :
  snd (Gemini.throttleGate (Gemini.throttleActivate Examples.freshState 0) (1 * Second))
  = (61 * Second)%Z.
Proof.
  pose proof (throttleGate_delay (Gemini.throttleActivate Examples.freshState 0)
                (1 * Second)) as H.
  destruct (Gemini.throttleGate _ _) as [st' clock'].
  assert (H0 : (Gemini.throttleLastReq (Gemini.throttleActivate Examples.freshState 0)
                ≤ 1 * Second)%Z) by (vm_compute; discriminate).
  destruct (H H0) as (_ & _ & H1).
  change (Gemini.throttleActive _ _) with true in H1.
  destruct H1 as (_ & Hlow & [Hc|Hc]); simpl; [|exact Hc].
  exfalso. rewrite Hc in Hlow. vm_compute in Hlow. apply Hlow. reflexivity.
Defined.

Section ThrottleHandler.
Context {json_lib : EncodingJson} {hash_lib : Hashing}.

(** What the answer of the upstream does to the throttle. *)
Lemma afterGenerate_throttle st clock made genReq est answer :
  let o := Gemini.afterGenerate st clock made genReq est answer in
  (Gemini.throttleUntil (Gemini.final o) = Gemini.throttleUntil st
   ∧ Gemini.throttleLastReq (Gemini.final o) = Gemini.throttleLastReq st)
  ∨ ∃ body, answer = HttpResponse 429 body
      ∧ GoStrings.Contains body "Resource has been exhausted" = true
      ∧ Gemini.reply o = Forwarded 429 body
      ∧ Gemini.throttleUntil (Gemini.final o) = (clock + 30 * Minute)%Z
      ∧ Gemini.throttleLastReq (Gemini.final o) = clock
      ∧ Gemini.finished o
        = match Gemini.tpmLimiter st with
          | Some _ => (clock + 61 * Second)%Z
          | None => clock
          end.
Proof.
  unfold Gemini.afterGenerate. destruct answer as [err|status body]; [left; auto|].
  destruct (status =? 200)%Z eqn:E200; simpl.
  - destruct (Unmarshal_GoogleResponse body) as [gResp|]; [|left; auto].
    destruct (Gemini.tpmLimiter st); destruct (Candidates gResp); left; auto.
  - destruct (status =? 429)%Z eqn:E429; simpl; [|left; auto].
    apply Z.eqb_eq in E429. subst status.
    destruct (GoStrings.Contains body "Resource has been exhausted") eqn:Ec; [|left; auto].
    right. exists body. auto 10.
Qed.

(** The state a run hands to the gate has the throttle of the state the run
    began with. *)
Lemma handleProxy_gate cfg up fuel st now r o :
  Gemini.handleProxy cfg up fuel st now r = Some o →
  (Gemini.throttleUntil (Gemini.final o) = Gemini.throttleUntil st
   ∧ Gemini.throttleLastReq (Gemini.final o) = Gemini.throttleLastReq st
   ∧ ∃ msg status, Gemini.reply o = HttpError msg status)
  ∨ ∃ st2 clock2 made reqKey genReq gOut est,
      Gemini.throttleUntil st2 = Gemini.throttleUntil st
      ∧ Gemini.throttleLastReq st2 = Gemini.throttleLastReq st
      ∧ o = Gemini.dispatch up st2 clock2 made reqKey genReq gOut est.
Proof.
  unfold Gemini.handleProxy.
  destruct (Unmarshal_GenericRequest (Gemini.Body r)) as [genReq|];
    [|intros E; injection E as <-; left; simpl; eauto].
  destruct (Gemini.cacheStage _ _ _ _ _ _ _) as [[[gReq1 made] cache'] clock1].
  simpl. destruct (Gemini.tpmLimiter st) as [tb|].
  - destruct (Gemini.awaitTokens _ _ _ _) as [tb' clock2|tb' clock2|]; [| |discriminate];
      intros E; injection E as <-.
    + right. eexists _, _, _, _, _, _, _. split; [|split; [|reflexivity]]; reflexivity.
    + left. simpl. eauto.
  - intros E; injection E as <-. right.
    eexists _, _, _, _, _, _, _. split; [|split; [|reflexivity]]; reflexivity.
Qed.

(** X11.  Only an upstream answer 429 whose body has the literal moves the
    deadline of the throttle: after any run the deadline is the one before,
    or the answer forwarded to the client is such a 429 and the deadline is
    30 minutes after the instant [t] of the answer, which is also the last
    request marked; with a limiter the reply is held back 61 seconds more. *)
Theorem throttle_deadline_moves_on_exhaustion_only cfg up fuel st now r o :
  Gemini.handleProxy cfg up fuel st now r = Some o →
  Gemini.throttleUntil (Gemini.final o) = Gemini.throttleUntil st
  ∨ ∃ body t,
      Gemini.reply o = Forwarded 429 body
      ∧ GoStrings.Contains body "Resource has been exhausted" = true
      ∧ Gemini.throttleUntil (Gemini.final o) = (t + 30 * Minute)%Z
      ∧ Gemini.throttleLastReq (Gemini.final o) = t
      ∧ (Gemini.finished o = t ∨ Gemini.finished o = (t + 61 * Second)%Z).
Proof.
  intros Hrun.
  apply handleProxy_gate in Hrun
    as [(H & _)|(st2 & clock2 & made & reqKey & genReq & gOut & est & Hu & _ & ->)];
    [left; exact H|].
  unfold Gemini.dispatch.
  assert (Hsame : Gemini.throttleUntil (fst (Gemini.throttleGate st2 clock2))
                  = Gemini.throttleUntil st2).
  { unfold Gemini.throttleGate. destruct (Gemini.throttleActive st2 clock2); reflexivity. }
  destruct (Gemini.throttleGate st2 clock2) as [st3 clock3]. simpl in Hsame.
  destruct (Gemini.newRequest up _ _); [|left; simpl; rewrite Hsame; exact Hu].
  set (call := Gemini.CallGenerate (Req_Model genReq) reqKey gOut).
  destruct (afterGenerate_throttle st3 (clock3 + Gemini.latency up call)%Z (made ++ [call])
              genReq est (Gemini.respond up call))
    as [(H & _)|(body & _ & Hc & Hr & H1 & H2 & H3)].
  - left. rewrite H, Hsame. exact Hu.
  - right. exists body, (clock3 + Gemini.latency up call)%Z.
    split; [exact Hr|]. split; [exact Hc|]. split; [exact H1|]. split; [exact H2|].
    rewrite H3. destruct (Gemini.tpmLimiter st3); auto.
Qed.

End ThrottleHandler.

Lemma throttle_deadline_moves_on_exhaustion_only_witness :
  ∃ o, ThrottleRuns.run = Some o
       ∧ Gemini.throttleUntil (Gemini.final o) = (1000000 + 30 * Minute)%Z.
Proof.
  destruct ThrottleRuns.run as [o|] eqn:E; [|vm_compute in E; discriminate E].
  exists o. split; [reflexivity|].
  destruct (throttle_deadline_moves_on_exhaustion_only _ _ _ _ _ _ _ E)
    as [H|(body & t & _ & _ & H & _)].
  - vm_compute in E. injection E as <-. vm_compute. reflexivity.
  - vm_compute in E. injection E as <-. vm_compute. reflexivity.
Defined.

(** ** More on the decoding of the upstream answer *)

Lemma append_cons (c : ascii) (s t : string) : String c s +:+ t = String c (s +:+ t).
Proof. reflexivity. Qed.

Lemma append_nil_r (s : string) : s +:+ "" = s.
Proof.
  induction s as [|c s IH]; [reflexivity|]. rewrite append_cons, IH. reflexivity.
Qed.

Lemma append_assoc (a b c : string) : (a +:+ b) +:+ c = a +:+ (b +:+ c).
Proof.
  induction a as [|x a IH]; [reflexivity|]. rewrite !append_cons, IH. reflexivity.
Qed.

Lemma strEmpty_length (s : string) : strEmpty s = negb (0 <? String.length s)%nat.
Proof. destruct s; reflexivity. Qed.

Section Decoding.
Context {json_lib : EncodingJson} {hash_lib : Hashing}.

(** The ids of the tool-use blocks collected so far are the ids numbered 1
    to the counter. *)
Lemma decodePart_ids unix acc part :
  map blockId (Gemini.toolCalls acc)
  = map (Gemini.toolCallId unix) (seq 1 (Gemini.toolCallCounter acc)) →
  map blockId (Gemini.toolCalls (Gemini.decodePart unix acc part))
  = map (Gemini.toolCallId unix)
      (seq 1 (Gemini.toolCallCounter (Gemini.decodePart unix acc part))).
Proof.
  intros H. unfold Gemini.decodePart. cbv zeta.
  destruct (FunctionCall part); cbn [Gemini.toolCalls Gemini.toolCallCounter]; [|exact H].
  rewrite map_app, H, seq_S, map_app. reflexivity.
Qed.

Lemma decodeCandidate_ids unix sigs0 candidate :
  let d := Gemini.decodeCandidate unix sigs0 candidate in
  map blockId (Gemini.toolCalls d)
  = map (Gemini.toolCallId unix) (seq 1 (Gemini.toolCallCounter d))
  ∧ Forall (fun b => isToolUseOut b = true) (Gemini.toolCalls d).
Proof.
  simpl. unfold Gemini.decodeCandidate, Gemini.decodeParts.
  assert (Hloop : ∀ parts acc,
    map blockId (Gemini.toolCalls acc)
    = map (Gemini.toolCallId unix) (seq 1 (Gemini.toolCallCounter acc))
    ∧ Forall (fun b => isToolUseOut b = true) (Gemini.toolCalls acc) →
    let d := fold_left (Gemini.decodePart unix) parts acc in
    map blockId (Gemini.toolCalls d)
    = map (Gemini.toolCallId unix) (seq 1 (Gemini.toolCallCounter d))
    ∧ Forall (fun b => isToolUseOut b = true) (Gemini.toolCalls d)).
  { induction parts as [|p parts IH]; intros acc [H1 H2]; [auto|].
    simpl. apply IH. split; [apply decodePart_ids, H1|].
    unfold Gemini.decodePart. destruct (FunctionCall p); simpl; [|exact H2].
    apply Forall_app. split; [exact H2|]. repeat constructor. }
  destruct (Hloop (Cand_Parts candidate) (Gemini.decodeStart sigs0)) as [H1 H2].
  { split; [reflexivity|constructor]. }
  set (d := fold_left _ _ _) in *.
  unfold Gemini.malformedFallback.
  destruct (String.eqb _ _ && negb (strEmpty (FinishMessage candidate))); [|auto].
  destruct (parseMalformedFunctionCall (FinishMessage candidate)) as [name args].
  destruct (negb (strEmpty name) && negb (Gemini.isNilMap args));
    cbn [Gemini.toolCalls Gemini.toolCallCounter]; [|auto].
  split.
  - rewrite map_app, H1, seq_S, map_app. reflexivity.
  - apply Forall_app. split; [exact H2|]. repeat constructor.
Qed.

(** The text collected from the parts. *)
Lemma decodeLoop_text unix parts acc :
  Gemini.textBuf (fold_left (Gemini.decodePart unix) parts acc)
  = Gemini.textBuf acc +:+ plainText parts.
Proof.
  revert acc. induction parts as [|p parts IH]; intros acc; simpl.
  - symmetry. apply append_nil_r.
  - rewrite IH. rewrite <- append_assoc. f_equal.
    unfold Gemini.decodePart.
    assert (Htext : (if negb (strEmpty (Text p)) && negb (Thought p)
                     then Gemini.textBuf acc +:+ Text p else Gemini.textBuf acc)
                    = Gemini.textBuf acc +:+ (if Thought p then "" else Text p)).
    { destruct (Thought p); simpl.
      - rewrite andb_false_r. symmetry. apply append_nil_r.
      - rewrite andb_true_r. destruct (strEmpty (Text p)) eqn:E; simpl; [|reflexivity].
        apply strEmpty_true in E. rewrite E. symmetry. apply append_nil_r. }
    destruct (FunctionCall p); simpl; exact Htext.
Qed.

(** An encoded reply is the translation of the first candidate of an
    answer 200. *)
Lemma afterGenerate_encoded st clock made genReq est answer res :
  Gemini.reply (Gemini.afterGenerate st clock made genReq est answer) = Encoded res →
  ∃ body gResp candidate rest,
    answer = HttpResponse 200 body
    ∧ Unmarshal_GoogleResponse body = Some gResp
    ∧ Candidates gResp = candidate :: rest
    ∧ res = Gemini.buildResponse (Req_Model genReq) clock gResp
              (Gemini.decodeCandidate (clock / Second) (Gemini.signatureCache st) candidate).
Proof.
  unfold Gemini.afterGenerate. destruct answer as [err|status body]; [discriminate|].
  destruct (status =? 200)%Z eqn:E; simpl.
  - apply Z.eqb_eq in E. subst status.
    destruct (Unmarshal_GoogleResponse body) as [gResp|] eqn:Eu; [|discriminate].
    destruct (Candidates gResp) as [|candidate rest] eqn:Ecand; [discriminate|].
    simpl. intros H; injection H as <-. exists body, gResp, candidate, rest.
    split; [reflexivity|]. split; [exact Eu|]. split; [exact Ecand|].
    destruct (Gemini.tpmLimiter st); reflexivity.
  - destruct (status =? 429)%Z; discriminate.
Qed.

Lemma handleProxy_encoded cfg up fuel st now r o res :
  Gemini.handleProxy cfg up fuel st now r = Some o →
  Gemini.reply o = Encoded res →
  ∃ genReq clock gResp candidate rest,
    Unmarshal_GenericRequest (Gemini.Body r) = Some genReq
    ∧ Candidates gResp = candidate :: rest
    ∧ res = Gemini.buildResponse (Req_Model genReq) clock gResp
              (Gemini.decodeCandidate (clock / Second) (Gemini.signatureCache st) candidate).
Proof.
  intros Hrun Hres.
  apply handleProxy_inv in Hrun as [[_ ->]|(genReq & Hbody & Hrun)]; [discriminate|].
  destruct Hrun as [gReq1 made cache' clock1 _ _ Hr _ _
                   |gReq1 made cache' clock1 gOut st2 clock2 est _ _ Hs ->].
  - rewrite Hr in Hres. discriminate.
  - unfold Gemini.dispatch in Hres.
    assert (Hsame : Gemini.signatureCache (fst (Gemini.throttleGate st2 clock2))
                    = Gemini.signatureCache st2).
    { unfold Gemini.throttleGate. destruct (Gemini.throttleActive st2 clock2); reflexivity. }
    destruct (Gemini.throttleGate st2 clock2) as [st3 clock3]. simpl in Hsame.
    destruct (Gemini.newRequest up _ _); [|discriminate Hres].
    apply afterGenerate_encoded in Hres as (body & gResp & candidate & rest & _ & _ & Hc & ->).
    eexists genReq, _, gResp, candidate, rest. rewrite Hsame, Hs. auto.
Qed.

(** X12.  The tool-use blocks of an encoded reply carry the ids
    [call_function_<unix>_<n>] with [n] counting from 1 in the order of the
    blocks, the call recovered from a malformed finish message included; so
    the ids of one reply are pairwise different. *)
Theorem tool_use_ids_are_numbered cfg up fuel st now r o res :
  Gemini.handleProxy cfg up fuel st now r = Some o →
  Gemini.reply o = Encoded res →
  let uses := List.filter isToolUseOut (Res_content res) in
  (∃ unix, map blockId uses = map (Gemini.toolCallId unix) (seq 1 (length uses)))
  ∧ NoDup (map blockId uses).
Proof.
  intros Hrun Hres.
  destruct (handleProxy_encoded _ _ _ _ _ _ _ _ Hrun Hres)
    as (genReq & clock & gResp & candidate & rest & _ & _ & ->).
  simpl. set (d := Gemini.decodeCandidate _ _ _).
  destruct (decodeCandidate_ids (clock / Second) (Gemini.signatureCache st) candidate)
    as [Hids Hall]. fold d in Hids, Hall.
  assert (Huses : List.filter isToolUseOut (Gemini.contentArr d) = Gemini.toolCalls d).
  { unfold Gemini.contentArr. rewrite !List.filter_app.
    assert (List.filter isToolUseOut
              (if strEmpty (Gemini.thinkingText d) then []
               else [ThinkingBlock (Gemini.thinkingText d)
                       (Gemini.optSignature (Gemini.thinkingSignature d))]) = []) as ->
      by (destruct (strEmpty _); reflexivity).
    assert (List.filter isToolUseOut
              (if (0 <? String.length (Gemini.textBuf d))%nat
               then [TextBlock (Gemini.textBuf d)] else []) = []) as ->
      by (destruct (0 <? _)%nat; reflexivity).
    simpl. clear Hids. induction Hall as [|b l Hb _ IH]; [reflexivity|].
    simpl. rewrite Hb, IH. reflexivity. }
  rewrite Huses.
  assert (Hlen : length (Gemini.toolCalls d) = Gemini.toolCallCounter d).
  { rewrite <- (length_map blockId), Hids, length_map, length_seq. reflexivity. }
  rewrite Hlen. split; [exists (clock / Second)%Z; exact Hids|].
  rewrite Hids. apply (NoDup_fmap_2_strong (Gemini.toolCallId (clock / Second))).
  - intros x y _ _. apply toolCallId_inj.
  - apply NoDup_seq.
Qed.

(** X13.  The shape of an encoded reply: at most one thinking block, then at
    most one text block, then the tool-use blocks; the stop reason is
    [tool_use] exactly when there is a tool-use block and [end_turn]
    otherwise; the token counts are the upstream's. *)
Theorem reply_shape cfg up fuel st now r o res :
  Gemini.handleProxy cfg up fuel st now r = Some o →
  Gemini.reply o = Encoded res →
  (∃ thinking text uses,
     Res_content res = thinking ++ text ++ uses
     ∧ (thinking = [] ∨ ∃ t sig, t ≠ "" ∧ thinking = [ThinkingBlock t sig])
     ∧ (text = [] ∨ ∃ t, t ≠ "" ∧ text = [TextBlock t])
     ∧ Forall (fun b => isToolUseOut b = true) uses
     ∧ Res_stop_reason res = (if (0 <? length uses)%nat then "tool_use" else "end_turn"))
  ∧ (Res_stop_reason res = "tool_use"
     ↔ ∃ b, In b (Res_content res) ∧ isToolUseOut b = true).
Proof.
  intros Hrun Hres.
  destruct (handleProxy_encoded _ _ _ _ _ _ _ _ Hrun Hres)
    as (genReq & clock & gResp & candidate & rest & _ & _ & ->).
  simpl. set (d := Gemini.decodeCandidate _ _ _).
  destruct (decodeCandidate_ids (clock / Second) (Gemini.signatureCache st) candidate)
    as [_ Hall]. fold d in Hall.
  assert (Hthinking :
    (if strEmpty (Gemini.thinkingText d) then []
     else [ThinkingBlock (Gemini.thinkingText d)
             (Gemini.optSignature (Gemini.thinkingSignature d))]) = []
    ∨ ∃ t sig, t ≠ "" ∧
        (if strEmpty (Gemini.thinkingText d) then []
         else [ThinkingBlock (Gemini.thinkingText d)
                 (Gemini.optSignature (Gemini.thinkingSignature d))])
        = [ThinkingBlock t sig]).
  { destruct (strEmpty (Gemini.thinkingText d)) eqn:E; [left; reflexivity|right].
    eexists _, _. split; [|reflexivity]. intros H. rewrite H in E. discriminate E. }
  assert (Htext :
    (if (0 <? String.length (Gemini.textBuf d))%nat then [TextBlock (Gemini.textBuf d)]
     else []) = []
    ∨ ∃ t, t ≠ "" ∧
        (if (0 <? String.length (Gemini.textBuf d))%nat then [TextBlock (Gemini.textBuf d)]
         else []) = [TextBlock t]).
  { destruct (0 <? String.length (Gemini.textBuf d))%nat eqn:E; [right|left; reflexivity].
    eexists. split; [|reflexivity]. intros H. rewrite H in E. discriminate E. }
  split.
  - eexists _, _, _. split; [reflexivity|]. split; [exact Hthinking|].
    split; [exact Htext|]. split; [exact Hall|reflexivity].
  - unfold Gemini.stopReason. split.
    + destruct (Gemini.toolCalls d) as [|b l] eqn:Ed; simpl; [discriminate|]. intros _.
      exists b. split.
      * apply contentArr_toolCalls. rewrite Ed. left. reflexivity.
      * inversion Hall; assumption.
    + intros (b & Hin & Hb). unfold Gemini.contentArr in Hin.
      apply in_app_or in Hin as [Hin|Hin].
      { destruct (strEmpty _); [destruct Hin|].
        destruct Hin as [<-|[]]. discriminate Hb. }
      apply in_app_or in Hin as [Hin|Hin].
      { destruct (0 <? String.length _)%nat; [|destruct Hin].
        destruct Hin as [<-|[]]. discriminate Hb. }
      destruct (Gemini.toolCalls d); [destruct Hin|reflexivity].
Qed.

(** X14.  The text of the reply.  Unless the candidate ended as a malformed
    function call, the text block of an encoded reply holds the texts of the
    parts that are not thoughts, joined without a separator in the order of
    the parts, and there is no text block when that text is empty. *)
Theorem reply_text_concatenates unix sigs0 candidate :
  FinishReason candidate ≠ "MALFORMED_FUNCTION_CALL" →
  let d := Gemini.decodeCandidate unix sigs0 candidate in
  Gemini.textBuf d = plainText (Cand_Parts candidate)
  ∧ List.filter isTextOut (Gemini.contentArr d)
    = (if strEmpty (plainText (Cand_Parts candidate)) then []
       else [TextBlock (plainText (Cand_Parts candidate))]).
Proof.
  intros Hreason. simpl. unfold Gemini.decodeCandidate, Gemini.malformedFallback.
  assert (String.eqb (FinishReason candidate) "MALFORMED_FUNCTION_CALL" = false) as ->
    by (apply String.eqb_neq, Hreason).
  simpl. unfold Gemini.decodeParts.
  pose proof (decodeLoop_text unix (Cand_Parts candidate) (Gemini.decodeStart sigs0)) as Ht.
  change (Gemini.textBuf (Gemini.decodeStart sigs0) +:+ plainText (Cand_Parts candidate))
    with (plainText (Cand_Parts candidate)) in Ht.
  destruct (decodeCandidate_ids unix sigs0
              {| Cand_Parts := Cand_Parts candidate; FinishReason := "";
                 FinishMessage := "" |}) as [_ Hall].
  unfold Gemini.decodeCandidate, Gemini.malformedFallback, Gemini.decodeParts in Hall.
  simpl in Hall.
  set (d := fold_left _ _ _) in *. split; [exact Ht|].
  unfold Gemini.contentArr. rewrite !List.filter_app, Ht.
  assert (List.filter isTextOut
            (if strEmpty (Gemini.thinkingText d) then []
             else [ThinkingBlock (Gemini.thinkingText d)
                     (Gemini.optSignature (Gemini.thinkingSignature d))]) = []) as ->
    by (destruct (strEmpty _); reflexivity).
  assert (List.filter isTextOut (Gemini.toolCalls d) = []) as ->.
  { induction Hall as [|b l Hb _ IH]; [reflexivity|]. simpl. rewrite IH.
    destruct b; try discriminate Hb; reflexivity. }
  rewrite strEmpty_length.
  destruct (0 <? String.length (plainText (Cand_Parts candidate)))%nat; reflexivity.
Qed.

End Decoding.

Section ConcreteDecoding.
#[local] Existing Instance GoRuntime.jsonCodec.
#[local] Existing Instance GoRuntime.hashing.

Lemma tool_use_ids_are_numbered_witness :
  ∃ o res, RoundTrip.firstRun = Some o ∧ Gemini.reply o = Encoded res
           ∧ NoDup (map blockId (List.filter isToolUseOut (Res_content res))).
Proof.
  destruct RoundTrip.firstRun as [o|] eqn:E; [|vm_compute in E; discriminate E].
  destruct (Gemini.reply o) as [msg status|status body|res| |] eqn:Er.
  - exfalso. vm_compute in E. injection E as <-. simpl in Er. discriminate Er.
  - exfalso. vm_compute in E. injection E as <-. simpl in Er. discriminate Er.
  - exists o, res. split; [reflexivity|]. split; [exact Er|].
    apply (tool_use_ids_are_numbered _ _ _ _ _ _ _ _ E Er).
  - exfalso. vm_compute in E. injection E as <-. simpl in Er. discriminate Er.
  - exfalso. vm_compute in E. injection E as <-. simpl in Er. discriminate Er.
Defined.

Lemma reply_shape_witness :
  ∃ o res, RoundTrip.firstRun = Some o ∧ Gemini.reply o = Encoded res
           ∧ (Res_stop_reason res = "tool_use"
              ↔ ∃ b, In b (Res_content res) ∧ isToolUseOut b = true).
Proof.
  destruct RoundTrip.firstRun as [o|] eqn:E; [|vm_compute in E; discriminate E].
  destruct (Gemini.reply o) as [msg status|status body|res| |] eqn:Er.
  - exfalso. vm_compute in E. injection E as <-. simpl in Er. discriminate Er.
  - exfalso. vm_compute in E. injection E as <-. simpl in Er. discriminate Er.
  - exists o, res. split; [reflexivity|]. split; [exact Er|].
    apply (reply_shape _ _ _ _ _ _ _ _ E Er).
  - exfalso. vm_compute in E. injection E as <-. simpl in Er. discriminate Er.
  - exfalso. vm_compute in E. injection E as <-. simpl in Er. discriminate Er.
Defined.

Lemma reply_text_concatenates_witness :
  Gemini.textBuf (Gemini.decodeCandidate 0 ∅ Replies.mixed) = plainText (Cand_Parts Replies.mixed)
  ∧ plainText (Cand_Parts Replies.mixed) = "ab".
Proof.
  split; [|reflexivity].
  apply (reply_text_concatenates 0 ∅ Replies.mixed). discriminate.
Defined.

End ConcreteDecoding.

(** ** More on the signature cache and the names of tools *)

Section SignatureCache.
Context {json_lib : EncodingJson} {hash_lib : Hashing}.

Lemma grownFrom_refl (m : gmap string string) : grownFrom m m.
Proof. split; auto. Qed.

Lemma grownFrom_trans (a b c : gmap string string) :
  grownFrom a b → grownFrom b c → grownFrom a c.
Proof.
  intros [H1 H2] [H3 H4]. split; [auto|].
  intros id sig Hc. destruct (H4 id sig Hc) as [Hb|Hnew]; [|auto].
  apply H2, Hb.
Qed.

Lemma decodePart_grows unix acc part :
  grownFrom (Gemini.sigs acc) (Gemini.sigs (Gemini.decodePart unix acc part)).
Proof.
  unfold Gemini.decodePart. cbv zeta.
  destruct (FunctionCall part); cbn [Gemini.sigs]; [|apply grownFrom_refl].
  destruct (strEmpty (ThoughtSignature part)) eqn:E; simpl; [apply grownFrom_refl|].
  set (id0 := Gemini.toolCallId unix (S (Gemini.toolCallCounter acc))).
  split.
  - intros id Hid. destruct (decide (id0 = id)) as [<-|Hne].
    + rewrite lookup_insert_eq. eauto.
    + rewrite lookup_insert_ne by exact Hne. exact Hid.
  - intros id sig. destruct (decide (id0 = id)) as [<-|Hne].
    + rewrite lookup_insert_eq. intros H; injection H as <-. right. split.
      * intros H. rewrite H in E. discriminate E.
      * exists unix, (S (Gemini.toolCallCounter acc)). split; [reflexivity|lia].
    + rewrite lookup_insert_ne by exact Hne. auto.
Qed.

Lemma decodeCandidate_grows unix sigs0 candidate :
  grownFrom sigs0 (Gemini.sigs (Gemini.decodeCandidate unix sigs0 candidate)).
Proof.
  unfold Gemini.decodeCandidate. rewrite (proj1 (malformedFallback_keeps _ _ _)).
  unfold Gemini.decodeParts.
  change sigs0 with (Gemini.sigs (Gemini.decodeStart sigs0)) at 1.
  generalize (Gemini.decodeStart sigs0).
  induction (Cand_Parts candidate) as [|p parts IH]; intros acc; [apply grownFrom_refl|].
  simpl. eapply grownFrom_trans; [apply decodePart_grows|apply IH].
Qed.

Lemma afterGenerate_grows st clock made genReq est answer :
  grownFrom (Gemini.signatureCache st)
    (Gemini.signatureCache
       (Gemini.final (Gemini.afterGenerate st clock made genReq est answer))).
Proof.
  unfold Gemini.afterGenerate. destruct answer as [err|status body]; [apply grownFrom_refl|].
  destruct (negb (status =? 200)%Z).
  - destruct (status =? 429)%Z; simpl; [|apply grownFrom_refl].
    destruct (GoStrings.Contains _ _); apply grownFrom_refl.
  - destruct (Unmarshal_GoogleResponse body) as [gResp|]; [|apply grownFrom_refl].
    destruct (Gemini.tpmLimiter st); destruct (Candidates gResp); simpl;
      try apply grownFrom_refl; apply decodeCandidate_grows.
Qed.

(** X15.  The signature cache only grows.  A run removes no entry, and an
    entry it leaves that is not the one it found is a signature that is not
    empty, stored under a generated id [call_function_<unix>_<n>] with [n]
    from 1 on. *)
Theorem signature_cache_only_grows cfg up fuel st now r o :
  Gemini.handleProxy cfg up fuel st now r = Some o →
  (∀ id, is_Some (Gemini.signatureCache st !! id) →
         is_Some (Gemini.signatureCache (Gemini.final o) !! id))
  ∧ (∀ id sig, Gemini.signatureCache (Gemini.final o) !! id = Some sig →
       Gemini.signatureCache st !! id = Some sig
       ∨ (sig ≠ "" ∧ ∃ unix n, id = Gemini.toolCallId unix n ∧ (1 ≤ n)%nat)).
Proof.
  intros Hrun. change (grownFrom (Gemini.signatureCache st)
                         (Gemini.signatureCache (Gemini.final o))).
  apply handleProxy_inv in Hrun as [[_ ->]|(genReq & _ & Hrun)]; [apply grownFrom_refl|].
  destruct Hrun as [gReq1 made cache' clock1 _ _ _ _ Hs
                   |gReq1 made cache' clock1 gOut st2 clock2 est _ _ Hs ->].
  - rewrite Hs. apply grownFrom_refl.
  - unfold Gemini.dispatch.
    assert (Hsame : Gemini.signatureCache (fst (Gemini.throttleGate st2 clock2))
                    = Gemini.signatureCache st2).
    { unfold Gemini.throttleGate. destruct (Gemini.throttleActive st2 clock2); reflexivity. }
    destruct (Gemini.throttleGate st2 clock2) as [st3 clock3]. simpl in Hsame.
    rewrite <- Hs, <- Hsame.
    destruct (Gemini.newRequest up _ _); [apply afterGenerate_grows|apply grownFrom_refl].
Qed.

End SignatureCache.

Section ToolNameProofs.
Context {json_lib : EncodingJson} {hash_lib : Hashing}.

Lemma strEmpty_neq (s : string) : strEmpty s = false → s ≠ "".
Proof. intros E H. rewrite H in E. discriminate E. Qed.

Lemma recordMessage_sound messages msg m :
  In msg messages → soundNames messages m → soundNames messages (recordMessage m msg).
Proof.
  intros Hin Hm. unfold recordMessage.
  destruct (String.eqb_spec (Msg_Role msg) "assistant") as [Hrole|_]; [|exact Hm].
  assert (Hblocks : soundNames messages
            match Unmarshal_ContentBlocks (Msg_Content msg) with
            | Some contentBlocks => fold_left recordBlock contentBlocks m
            | None => m
            end).
  { destruct (Unmarshal_ContentBlocks (Msg_Content msg)) as [blocks|] eqn:Eb; [|exact Hm].
    assert (Hloop : ∀ done m0, (∀ b, In b done → In b blocks) → soundNames messages m0 →
                               soundNames messages (fold_left recordBlock done m0)).
    { induction done as [|b done IH]; intros m0 Hsub Hm0; [exact Hm0|].
      simpl. apply IH; [intros b' Hb'; apply Hsub; right; exact Hb'|].
      unfold recordBlock.
      destruct (String.eqb_spec (Blk_Type b) "tool_use") as [Ht|_]; [|exact Hm0].
      destruct (strEmpty (Blk_ID b)) eqn:Ei; [exact Hm0|].
      destruct (strEmpty (Blk_Name b)) eqn:En; [exact Hm0|]. simpl.
      intros id name. destruct (decide (Blk_ID b = id)) as [<-|Hne].
      - rewrite lookup_insert_eq. intros H; injection H as <-.
        split; [apply strEmpty_neq, Ei|]. split; [apply strEmpty_neq, En|].
        exists msg. split; [exact Hin|]. split; [exact Hrole|]. left.
        exists blocks, b. repeat split; trivial. apply Hsub. left. reflexivity.
      - rewrite lookup_insert_ne by exact Hne. apply Hm0. }
    apply Hloop; auto. }
  revert Hblocks. generalize (match Unmarshal_ContentBlocks (Msg_Content msg) with
                              | Some contentBlocks => fold_left recordBlock contentBlocks m
                              | None => m
                              end).
  assert (Hloop : ∀ done m0, (∀ tc, In tc done → In tc (Msg_ToolCalls msg)) →
                             soundNames messages m0 →
                             soundNames messages (fold_left recordCall done m0)).
  { induction done as [|tc done IH]; intros m0 Hsub Hm0; [exact Hm0|].
    simpl. apply IH; [intros tc' Htc'; apply Hsub; right; exact Htc'|].
    unfold recordCall.
    destruct (strEmpty (Call_ID tc)) eqn:Ei; [exact Hm0|].
    destruct (strEmpty (Call_FunctionName tc)) eqn:En; [exact Hm0|]. simpl.
    intros id name. destruct (decide (Call_ID tc = id)) as [<-|Hne].
    - rewrite lookup_insert_eq. intros H; injection H as <-.
      split; [apply strEmpty_neq, Ei|]. split; [apply strEmpty_neq, En|].
      exists msg. split; [exact Hin|]. split; [exact Hrole|]. right.
      exists tc. repeat split; trivial. apply Hsub. left. reflexivity.
    - rewrite lookup_insert_ne by exact Hne. apply Hm0. }
  intros m1 Hm1. apply Hloop; auto.
Qed.

Lemma buildToolIdToName_sound messages : soundNames messages (buildToolIdToName messages).
Proof.
  unfold buildToolIdToName.
  assert (Hloop : ∀ done m0, (∀ msg, In msg done → In msg messages) →
                             soundNames messages m0 →
                             soundNames messages (fold_left recordMessage done m0)).
  { induction done as [|msg done IH]; intros m0 Hsub Hm0; [exact Hm0|].
    simpl. apply IH; [intros msg' H'; apply Hsub; right; exact H'|].
    apply recordMessage_sound; [apply Hsub; left; reflexivity|exact Hm0]. }
  apply Hloop; [auto|]. intros id name H. rewrite lookup_empty in H. discriminate H.
Qed.

(** An id in the map stays in it. *)
Lemma recordBlock_keeps m (b : ContentBlock) id :
  is_Some (m !! id) → is_Some (recordBlock m b !! id).
Proof.
  intros H. unfold recordBlock. destruct (_ && _); [|exact H].
  destruct (decide (Blk_ID b = id)) as [->|Hne];
    [rewrite lookup_insert_eq; eauto|rewrite lookup_insert_ne by exact Hne; exact H].
Qed.

Lemma recordCall_keeps m (tc : ToolCall) id :
  is_Some (m !! id) → is_Some (recordCall m tc !! id).
Proof.
  intros H. unfold recordCall. destruct (_ && _); [|exact H].
  destruct (decide (Call_ID tc = id)) as [->|Hne];
    [rewrite lookup_insert_eq; eauto|rewrite lookup_insert_ne by exact Hne; exact H].
Qed.

Lemma recordBlocks_keep (blocks : list ContentBlock) m id :
  is_Some (m !! id) → is_Some (fold_left recordBlock blocks m !! id).
Proof.
  revert m. induction blocks as [|b blocks IH]; intros m H; [exact H|].
  simpl. apply IH, recordBlock_keeps, H.
Qed.

Lemma recordCalls_keep (calls : list ToolCall) m id :
  is_Some (m !! id) → is_Some (fold_left recordCall calls m !! id).
Proof.
  revert m. induction calls as [|tc calls IH]; intros m H; [exact H|].
  simpl. apply IH, recordCall_keeps, H.
Qed.

Lemma recordMessage_keeps m msg id :
  is_Some (m !! id) → is_Some (recordMessage m msg !! id).
Proof.
  intros H. unfold recordMessage. destruct (String.eqb _ _); [|exact H].
  apply recordCalls_keep. destruct (Unmarshal_ContentBlocks _); [|exact H].
  apply recordBlocks_keep, H.
Qed.

(** The message that announces a name under an id puts the id in the
    map. *)
Lemma recordMessage_announces m msg id name :
  announces msg id name → id ≠ "" → name ≠ "" → is_Some (recordMessage m msg !! id).
Proof.
  intros [Hrole Hann] Hid Hname. unfold recordMessage. rewrite Hrole. simpl.
  destruct Hann as [(blocks & b & Hblocks & Hin & Ht & Hb & Hn)|(tc & Hin & Hc & Hn)].
  - apply recordCalls_keep. rewrite Hblocks. clear Hblocks. revert m.
    induction blocks as [|b' blocks IH]; intros m; [destruct Hin|]. simpl.
    destruct Hin as [->|Hin]; [|apply IH, Hin].
    apply recordBlocks_keep. unfold recordBlock.
    rewrite Ht, Hb, Hn, (strEmpty_false _ Hid), (strEmpty_false _ Hname). simpl.
    rewrite lookup_insert_eq. eauto.
  - generalize (match Unmarshal_ContentBlocks (Msg_Content msg) with
                | Some contentBlocks => fold_left recordBlock contentBlocks m
                | None => m
                end).
    induction (Msg_ToolCalls msg) as [|tc' calls IH]; intros m1; [destruct Hin|]. simpl.
    destruct Hin as [->|Hin]; [|apply IH, Hin].
    apply recordCalls_keep. unfold recordCall.
    rewrite Hc, Hn, (strEmpty_false _ Hid), (strEmpty_false _ Hname). simpl.
    rewrite lookup_insert_eq. eauto.
Qed.

Lemma buildToolIdToName_complete messages id name :
  announced messages id name → id ≠ "" → name ≠ "" →
  is_Some (buildToolIdToName messages !! id).
Proof.
  intros (msg & Hin & Hann) Hid Hname. unfold buildToolIdToName.
  generalize (∅ : gmap string string).
  induction messages as [|msg' messages IH]; intros m; [destruct Hin|]. simpl.
  destruct Hin as [->|Hin]; [|apply IH, Hin].
  assert (Hkeep : ∀ rest m0, is_Some (m0 !! id) →
                             is_Some (fold_left recordMessage rest m0 !! id)).
  { induction rest as [|x rest IHr]; intros m0 H; [exact H|].
    simpl. apply IHr, recordMessage_keeps, H. }
  apply Hkeep. eapply recordMessage_announces; eauto.
Qed.

(** X16.  The name of a function response.  A [tool_result] block of a user
    message becomes one [functionResponse] part.  When an assistant message
    of the same request announces a function name that is not empty under
    the block's [tool_use_id], which is not empty, the name of the part is
    such an announced name; when none does, it is the [tool_use_id]
    itself. *)
Theorem function_response_name messages block :
  Blk_Type block = "tool_result" →
  let id := Blk_ToolUseId block in
  ∃ part, Gemini.userBlockParts (buildToolIdToName messages) block = [part]
    ∧ FunctionResponse part
      = Some {| FR_Name := responseName part;
                FR_Response := Gemini.toolResultResponse (Blk_Content block) |}
    ∧ ((∃ name, id ≠ "" ∧ name ≠ "" ∧ announced messages id name) →
       responseName part ≠ "" ∧ announced messages id (responseName part))
    ∧ ((∀ name, announced messages id name → id = "" ∨ name = "") →
       responseName part = id).
Proof.
  intros Ht. unfold Gemini.userBlockParts. rewrite Ht. simpl.
  eexists. split; [reflexivity|]. unfold responseName. simpl. split; [reflexivity|].
  unfold mapGet. split.
  - intros (name & Hid & Hname & Hann).
    destruct (buildToolIdToName_complete messages _ _ Hann Hid Hname) as [name' El].
    rewrite El. simpl.
    destruct (buildToolIdToName_sound messages _ _ El) as (_ & Hname' & Hann').
    rewrite (strEmpty_false _ Hname'). auto.
  - intros Hnone.
    destruct (buildToolIdToName messages !! Blk_ToolUseId block) as [name|] eqn:El;
      simpl; [|reflexivity].
    destruct (buildToolIdToName_sound messages _ _ El) as (Hid & Hname & Hann).
    destruct (Hnone name Hann); contradiction.
Qed.

(** The names of the declarations, for both relays. *)
Lemma toolDeclaration_toolDef (t : GenericTool) :
  option_map FD_Name (Gemini.toolDeclaration t)
  = option_map OTD_FunctionName (OpenAI.toolDef t)
  ∧ (∀ d, Gemini.toolDeclaration t = Some d → FD_Name d ≠ "").
Proof.
  unfold Gemini.toolDeclaration, OpenAI.toolDef.
  destruct (String.eqb (Tool_Type t) "function" && negb (strEmpty (Tool_FunctionName t)))
    eqn:E1.
  - split; [reflexivity|]. intros d H; injection H as <-. simpl.
    apply andb_prop in E1 as [_ E1]. apply negb_true_iff in E1. apply strEmpty_neq, E1.
  - destruct (strEmpty (Tool_Name t)) eqn:E2; simpl; [split; [reflexivity|discriminate]|].
    split; [reflexivity|]. intros d H; injection H as <-. simpl. apply strEmpty_neq, E2.
Qed.

(** X17.  The tools of the request.  The Gemini relay sends no tool, or one
    tool that holds a declaration for every client tool with a usable name,
    in the order of the client; no declaration has an empty name; and the
    OpenAI relay declares the functions of the same names in the same
    order. *)
Theorem tools_are_declared_once (tools : list GenericTool) :
  let declarations := flat_map FunctionDeclarations (Gemini.buildTools tools) in
  declarations = omap Gemini.toolDeclaration tools
  ∧ (length (Gemini.buildTools tools) ≤ 1)%nat
  ∧ (Gemini.buildTools tools = [] ↔ declarations = [])
  ∧ Forall (fun d => FD_Name d ≠ "") declarations
  ∧ map FD_Name declarations = map OTD_FunctionName (omap OpenAI.toolDef tools).
Proof.
  simpl.
  assert (Hflat : flat_map FunctionDeclarations (Gemini.buildTools tools)
                  = omap Gemini.toolDeclaration tools).
  { unfold Gemini.buildTools. destruct (omap Gemini.toolDeclaration tools); [reflexivity|].
    simpl. rewrite app_nil_r. reflexivity. }
  rewrite Hflat. clear Hflat. split; [reflexivity|]. split; [|split; [|split]].
  - unfold Gemini.buildTools. destruct (omap Gemini.toolDeclaration tools); simpl; lia.
  - unfold Gemini.buildTools. destruct (omap Gemini.toolDeclaration tools);
      split; intros H; try reflexivity; discriminate H.
  - induction tools as [|t tools IH]; [constructor|]. simpl.
    destruct (Gemini.toolDeclaration t) as [d|] eqn:E; simpl; [|exact IH].
    constructor; [|exact IH]. apply (proj2 (toolDeclaration_toolDef t)), E.
  - induction tools as [|t tools IH]; [reflexivity|]. simpl.
    pose proof (proj1 (toolDeclaration_toolDef t)) as H.
    destruct (Gemini.toolDeclaration t) as [d|]; destruct (OpenAI.toolDef t) as [d'|];
      simpl in *; try discriminate H; [|exact IH].
    injection H as ->. f_equal. exact IH.
Qed.

End ToolNameProofs.

Section ConcreteNames.
#[local] Existing Instance GoRuntime.jsonCodec.
#[local] Existing Instance GoRuntime.hashing.

Lemma signature_cache_only_grows_witness :
  ∃ o, RoundTrip.firstRun = Some o
    ∧ ∀ id sig, Gemini.signatureCache (Gemini.final o) !! id = Some sig →
        Gemini.signatureCache Examples.freshState !! id = Some sig
        ∨ (sig ≠ "" ∧ ∃ unix n, id = Gemini.toolCallId unix n ∧ (1 ≤ n)%nat).
Proof.
  destruct RoundTrip.firstRun as [o|] eqn:E; [|vm_compute in E; discriminate E].
  exists o. split; [reflexivity|].
  exact (proj2 (signature_cache_only_grows _ _ _ _ _ _ _ E)).
Defined.

Lemma function_response_name_witness :
  ∃ part, Gemini.userBlockParts (buildToolIdToName [RoundTrip.echoMessage]) resultBlock = [part]
    ∧ responseName part = "bash"
    ∧ announced [RoundTrip.echoMessage] "call_function_1700000000_1" (responseName part).
Proof.
  destruct (function_response_name [RoundTrip.echoMessage] resultBlock eq_refl)
    as (part & Hp & _ & Hused & _).
  exists part. split; [exact Hp|]. split.
  - vm_compute in Hp. injection Hp as <-. reflexivity.
  - apply Hused. exists "bash". split; [discriminate|]. split; [discriminate|].
    exists RoundTrip.echoMessage. split; [left; reflexivity|]. split; [reflexivity|].
    left. exists [RoundTrip.echoBlock], RoundTrip.echoBlock.
    split; [vm_compute; reflexivity|]. split; [left; reflexivity|]. auto.
Defined.

End ConcreteNames.

(** ** More on the context cache *)

Section CacheProofs.
Context {json_lib : EncodingJson} {hash_lib : Hashing}.

(** The creation branch when the upstream creates the cache. *)
Lemma createOrSkip_creates up reqKey genReq gReq cacheKey cache clock body :
  (1 < length (Contents gReq))%nat →
  Gemini.respond up (creationCall reqKey genReq gReq) = HttpResponse 200 body →
  let clock' := (clock + Gemini.latency up (creationCall reqKey genReq gReq))%Z in
  Gemini.createOrSkip up reqKey genReq gReq cacheKey cache clock
  = (Decode_CreateCacheName body,
     skipn (length (Contents gReq) - 1) (Contents gReq),
     [creationCall reqKey genReq gReq],
     <[ cacheKey := createdEntry gReq (Decode_CreateCacheName body) clock' ]> cache,
     clock').
Proof.
  intros Hlen Hanswer. simpl. unfold Gemini.createOrSkip.
  apply Nat.ltb_lt in Hlen. rewrite Hlen.
  unfold Gemini.createCacheWithContents. fold (creationCall reqKey genReq gReq).
  rewrite Hanswer. reflexivity.
Qed.

Lemma selectCache_creates up reqKey genReq gReq cache clock body :
  Gemini.hasCacheableContext gReq = true →
  match cache !! Gemini.computeCacheKey (Req_System genReq) (Tools gReq) with
  | Some old => (Gemini.ExpireAt old ≤ clock)%Z
  | None => True
  end →
  (1 < length (Contents gReq))%nat →
  Gemini.respond up (creationCall reqKey genReq gReq) = HttpResponse 200 body →
  let clock' := (clock + Gemini.latency up (creationCall reqKey genReq gReq))%Z in
  Gemini.selectCache up reqKey genReq gReq cache clock
  = (Decode_CreateCacheName body,
     skipn (length (Contents gReq) - 1) (Contents gReq),
     [creationCall reqKey genReq gReq],
     <[ Gemini.computeCacheKey (Req_System genReq) (Tools gReq)
        := createdEntry gReq (Decode_CreateCacheName body) clock' ]> cache,
     clock').
Proof.
  intros Hctx Hold Hlen Hanswer. simpl. unfold Gemini.selectCache. rewrite Hctx.
  destruct (cache !! Gemini.computeCacheKey (Req_System genReq) (Tools gReq)) as [old|];
    [|apply createOrSkip_creates; assumption].
  assert ((clock <? Gemini.ExpireAt old)%Z = false) as -> by (apply Z.ltb_ge; exact Hold).
  apply createOrSkip_creates; assumption.
Qed.

(** X18.  A cache is created and then used.  With [--cache], a request with
    a system instruction or tools and more than one turn, for whose key the
    table has no entry, or an expired one: when the upstream answers the
    creation with 200 and a name, the cache stage makes that one call, sends
    only the last turn with the name as [cachedContent], and stores an entry
    for all turns but the last that lives 25 minutes.  A later request with
    the same key whose conversation begins with the cached turns and is
    longer, arriving before the entry expires, makes no cache call and is
    sent with the same name and the turns after the cached ones. *)
Theorem cache_created_then_hit cfg up reqKey genReq gReq cache now body
    reqKey2 genReq2 gReq2 now2 :
  Gemini.cacheMode cfg = true →
  Gemini.hasCacheableContext gReq = true →
  let cacheKey := Gemini.computeCacheKey (Req_System genReq) (Tools gReq) in
  match cache !! cacheKey with
  | Some old => (Gemini.ExpireAt old ≤ now)%Z
  | None => True
  end →
  (1 < length (Contents gReq))%nat →
  Gemini.respond up (creationCall reqKey genReq gReq) = HttpResponse 200 body →
  Decode_CreateCacheName body ≠ "" →
  Gemini.hasCacheableContext gReq2 = true →
  Gemini.computeCacheKey (Req_System genReq2) (Tools gReq2) = cacheKey →
  firstn (length (Contents gReq) - 1) (Contents gReq2)
  = firstn (length (Contents gReq) - 1) (Contents gReq) →
  (length (Contents gReq) - 1 < length (Contents gReq2))%nat →
  let name := Decode_CreateCacheName body in
  let clock1 := (now + Gemini.latency up (creationCall reqKey genReq gReq))%Z in
  let entry := createdEntry gReq name clock1 in
  let cache1 := <[ cacheKey := entry ]> cache in
  (now2 < clock1 + 25 * Minute)%Z →
  Gemini.cacheStage cfg up reqKey genReq gReq cache now
  = (createdRequest gReq name, [creationCall reqKey genReq gReq], cache1, clock1)
  ∧ Contents (createdRequest gReq name) = [List.last (Contents gReq) Gemini.continueTurn]
  ∧ Gemini.cacheStage cfg up reqKey2 genReq2 gReq2 cache1 now2
    = (hitRequest gReq2 entry, [], cache1, now2)
  ∧ CachedContent (hitRequest gReq2 entry) = name
  ∧ Contents (hitRequest gReq2 entry)
    = skipn (length (Contents gReq) - 1) (Contents gReq2).
Proof.
  intros Hmode Hctx cacheKey Hold Hlen Hanswer Hname Hctx2 Hkey2 Hprefix Hlonger
    name clock1 entry cache1 Hfresh.
  assert (Hcount : length (firstn (length (Contents gReq) - 1) (Contents gReq))
                   = (length (Contents gReq) - 1)%nat).
  { rewrite length_firstn. lia. }
  split; [|split; [|split; [|split]]].
  - unfold Gemini.cacheStage. rewrite Hmode.
    rewrite (selectCache_creates up reqKey genReq gReq cache now body Hctx Hold Hlen Hanswer).
    unfold Gemini.useCache, createdRequest.
    rewrite (strEmpty_false _ Hname). simpl.
    assert ((0 <? length (skipn (length (Contents gReq) - 1) (Contents gReq)))%nat = true)
      as -> by (apply Nat.ltb_lt; rewrite length_skipn; lia).
    reflexivity.
  - simpl. clear -Hlen. induction (Contents gReq) as [|a l IH]; [simpl in Hlen; lia|].
    destruct l as [|b l]; [simpl in Hlen; lia|].
    destruct l as [|c l]; [reflexivity|].
    change (length (a :: b :: c :: l) - 1)%nat with (S (length (b :: c :: l) - 1)).
    change (skipn (S (length (b :: c :: l) - 1)) (a :: b :: c :: l))
      with (skipn (length (b :: c :: l) - 1) (b :: c :: l)).
    rewrite IH by (simpl; lia). reflexivity.
  - apply cacheStage_hit; trivial.
    + rewrite Hkey2. unfold cache1. apply lookup_insert_eq.
    + simpl. rewrite Hcount. exact Hlonger.
    + simpl. rewrite Hcount, Hprefix. reflexivity.
  - reflexivity.
  - simpl. rewrite Hcount. reflexivity.
Qed.


(** The table of the cache stage keeps every key it had. *)
Lemma cacheStage_keeps_keys cfg up reqKey genReq gReq cache clock out made cache' clock' key :
  Gemini.cacheStage cfg up reqKey genReq gReq cache clock = (out, made, cache', clock') →
  is_Some (cache !! key) → is_Some (cache' !! key).
Proof.
  assert (Hcreate : ∀ cacheKey c name delta created cache1 clock1,
    Gemini.createOrSkip up reqKey genReq gReq cacheKey cache c
    = (name, delta, created, cache1, clock1) →
    is_Some (cache !! key) → is_Some (cache1 !! key)).
  { intros cacheKey c name delta created cache1 clock1. unfold Gemini.createOrSkip.
    destruct (1 <? length (Contents gReq))%nat; [|intros E; injection E as <- <- <- <- <-; auto].
    destruct (Gemini.createCacheWithContents _ _ _ _ _ _);
      intros E; injection E as <- <- <- <- <-; [|auto].
    intros Hk. unfold Gemini.saveCacheEntry.
    destruct (decide (cacheKey = key)) as [->|Hne].
    - rewrite lookup_insert_eq. eauto.
    - rewrite lookup_insert_ne by exact Hne. exact Hk. }
  unfold Gemini.cacheStage. destruct (Gemini.cacheMode cfg);
    [|intros E; injection E as <- <- <- <-; auto].
  destruct (Gemini.selectCache _ _ _ _ _ _) as [[[[name delta] m] c'] k'] eqn:Es.
  intros E; injection E as <- <- <- <-. revert Es. unfold Gemini.selectCache.
  destruct (Gemini.hasCacheableContext gReq);
    [|intros E; injection E as <- <- <- <- <-; auto].
  destruct (cache !! Gemini.computeCacheKey _ _) as [entry|]; [|apply Hcreate].
  destruct (clock <? Gemini.ExpireAt entry)%Z; [|apply Hcreate].
  destruct (Gemini.isIncrementalUpdate _ _ _) as [isIncremental startIdx].
  destruct (isIncremental && _); [intros E; injection E as <- <- <- <- <-; auto|].
  destruct (Gemini.createOrSkip _ _ _ _ _ _ _) as [[[[n d] cr] ca] cl] eqn:Ec.
  intros E; injection E as <- <- <- <- <-. eapply Hcreate, Ec.
Qed.

Lemma dispatch_table up st clock made reqKey genReq gReq est :
  Gemini.contextCache (Gemini.final (Gemini.dispatch up st clock made reqKey genReq gReq est))
  = Gemini.contextCache st.
Proof.
  unfold Gemini.dispatch.
  assert (Hsame : Gemini.contextCache (fst (Gemini.throttleGate st clock))
                  = Gemini.contextCache st).
  { unfold Gemini.throttleGate. destruct (Gemini.throttleActive st clock); reflexivity. }
  destruct (Gemini.throttleGate st clock) as [st1 clock1]. simpl in Hsame.
  destruct (Gemini.newRequest up _ _); [rewrite afterGenerate_table|]; exact Hsame.
Qed.

(** The table a run leaves is the table its cache stage leaves, and the
    calls of the run are those of the cache stage and at most the generate
    call. *)
Lemma handleProxy_table cfg up fuel st now r o :
  Gemini.handleProxy cfg up fuel st now r = Some o →
  (Gemini.calls o = [] ∧ Gemini.contextCache (Gemini.final o) = Gemini.contextCache st)
  ∨ ∃ genReq gReq1 made clock1,
      Unmarshal_GenericRequest (Gemini.Body r) = Some genReq
      ∧ Gemini.cacheStage cfg up (Gemini.resolveKey cfg r) genReq
          (Gemini.buildGoogleRequest (Gemini.signatureCache st) genReq)
          (Gemini.contextCache st) now
        = (gReq1, made, Gemini.contextCache (Gemini.final o), clock1)
      ∧ (Gemini.calls o = made
         ∨ ∃ gOut, Gemini.calls o
                   = made ++ [Gemini.CallGenerate (Req_Model genReq)
                                (Gemini.resolveKey cfg r) gOut]
             ∧ Contents gOut = Contents gReq1
             ∧ CachedContent gOut = CachedContent gReq1).
Proof.
  unfold Gemini.handleProxy.
  destruct (Unmarshal_GenericRequest (Gemini.Body r)) as [genReq|];
    [|intros E; injection E as <-; left; auto].
  destruct (Gemini.cacheStage _ _ _ _ _ _ _) as [[[gReq1 made] cache'] clock1] eqn:Ec.
  intros E. right. exists genReq, gReq1, made, clock1. split; [reflexivity|].
  simpl in E. destruct (Gemini.tpmLimiter st) as [tb|].
  - destruct (Gemini.awaitTokens _ _ _ _) as [tb' clock2|tb' clock2|]; [| |discriminate];
      injection E as <-.
    + rewrite dispatch_table, dispatch_calls. simpl. split; [exact Ec|].
      destruct (Gemini.newRequest up _ _); [|left; reflexivity].
      right. eexists. split; [reflexivity|]. auto.
    + simpl. split; [exact Ec|]. auto.
  - injection E as <-. rewrite dispatch_table, dispatch_calls. simpl.
    split; [exact Ec|].
    destruct (Gemini.newRequest up _ _); [|left; reflexivity].
    right. eexists. split; [reflexivity|]. auto.
Qed.

(** X20.  No run removes a key from the table of context caches, also not a
    run that deletes the handle upstream; without [--cache] the table is
    left as it is and the only call is the generate call, which carries no
    [cachedContent]. *)
Theorem context_cache_never_shrinks cfg up fuel st now r o :
  Gemini.handleProxy cfg up fuel st now r = Some o →
  (∀ key, is_Some (Gemini.contextCache st !! key) →
          is_Some (Gemini.contextCache (Gemini.final o) !! key))
  ∧ (Gemini.cacheMode cfg = false →
     Gemini.contextCache (Gemini.final o) = Gemini.contextCache st
     ∧ (Gemini.calls o = []
        ∨ ∃ model gOut, Gemini.calls o = [Gemini.CallGenerate model (Gemini.resolveKey cfg r) gOut]
            ∧ CachedContent gOut = "")).
Proof.
  intros Hrun.
  apply handleProxy_table in Hrun
    as [[Hcalls Hsame]|(genReq & gReq1 & made & clock1 & _ & Hstage & Hcalls)].
  - split; [intros key; rewrite Hsame; auto|]. intros _. auto.
  - split; [intros key; eapply cacheStage_keeps_keys, Hstage|].
    intros Hoff. unfold Gemini.cacheStage in Hstage. rewrite Hoff in Hstage.
    injection Hstage as <- <- Hsame _. split; [symmetry; exact Hsame|].
    destruct Hcalls as [->|(gOut & -> & _ & Hc)]; [left; reflexivity|right].
    exists (Req_Model genReq), gOut. split; [reflexivity|exact Hc].
Qed.


End CacheProofs.

Section ConcreteCaches.
#[local] Existing Instance GoRuntime.jsonCodec.
#[local] Existing Instance GoRuntime.hashing.

Lemma cache_created_then_hit_witness :
  ∃ out cache1,
    Gemini.cacheStage Examples.caching CachedRequests.upstream "default-key"
      Cached.continuedRequest CachedRequests.continuedGoogle cache1 Cached.later
    = (out, [], cache1, Cached.later)
    ∧ CachedContent out = "cachedContents/c1".
Proof.
  pose proof (cache_created_then_hit Examples.caching CachedRequests.upstream "default-key"
                CachedRequests.prefilledRequest CachedRequests.prefilledGoogle ∅ 0
                (GoRuntime.js Examples.cacheCreated)
                "default-key" Cached.continuedRequest CachedRequests.continuedGoogle
                Cached.later) as H.
  cbv zeta in H.
  destruct H as (_ & _ & Hsecond & Hname & _).
  - reflexivity.
  - reflexivity.
  - rewrite lookup_empty. exact I.
  - vm_compute. lia.
  - reflexivity.
  - vm_compute. discriminate.
  - reflexivity.
  - reflexivity.
  - vm_compute. reflexivity.
  - vm_compute. lia.
  - vm_compute. reflexivity.
  - eexists _, _. split; [exact Hsecond|exact Hname].
Defined.


Lemma context_cache_never_shrinks_witness :
  ∃ o, Examples.resumedRun = Some o
    ∧ Gemini.contextCache (Gemini.final o) = Gemini.contextCache Examples.freshState.
Proof.
  destruct Examples.resumedRun as [o|] eqn:E; [|vm_compute in E; discriminate E].
  exists o. split; [reflexivity|].
  apply (context_cache_never_shrinks _ _ _ _ _ _ _ E). reflexivity.
Defined.

End ConcreteCaches.

(** ** More on the repair of malformed calls *)

Lemma bytes_str (l : list ascii) : GoStrings.bytes (GoStrings.str l) = l.
Proof. apply list_ascii_of_string_of_list_ascii. Qed.

Lemma str_bytes (s : string) : GoStrings.str (GoStrings.bytes s) = s.
Proof. apply string_of_list_ascii_of_string. Qed.

Lemma str_app (a b : list ascii) :
  GoStrings.str (a ++ b) = GoStrings.str a +:+ GoStrings.str b.
Proof.
  induction a as [|c a IH]; [reflexivity|].
  simpl. rewrite append_cons. f_equal. exact IH.
Qed.

Lemma bytes_app (a b : string) :
  GoStrings.bytes (a +:+ b) = GoStrings.bytes a ++ GoStrings.bytes b.
Proof.
  induction a as [|c a IH]; [reflexivity|].
  rewrite append_cons. simpl. f_equal. exact IH.
Qed.

Lemma substring_bytes (k n : nat) (s : string) :
  String.substring k n s = GoStrings.str (firstn n (skipn k (GoStrings.bytes s))).
Proof.
  revert k n. induction s as [|c s IH]; intros k n.
  - destruct k, n; reflexivity.
  - destruct k as [|k].
    + destruct n as [|n]; [reflexivity|]. simpl. f_equal. apply (IH 0%nat n).
    + simpl. apply IH.
Qed.

Lemma slice_of_prefix (pre rest : list ascii) (k : nat) :
  (k ≤ length pre)%nat →
  GoStrings.slice (GoStrings.str (pre ++ rest)) k (length pre) = GoStrings.str (skipn k pre).
Proof.
  intros Hk. unfold GoStrings.slice. rewrite substring_bytes, bytes_str.
  rewrite skipn_app. replace (k - length pre)%nat with 0%nat by lia. simpl.
  rewrite firstn_app, length_skipn.
  replace (length pre - k - (length pre - k))%nat with 0%nat by lia.
  rewrite firstn_all2 by (rewrite length_skipn; lia).
  simpl. rewrite app_nil_r. reflexivity.
Qed.

Lemma length_bytes (s : string) : length (GoStrings.bytes s) = String.length s.
Proof. induction s as [|c s IH]; [reflexivity|]. simpl. f_equal. exact IH. Qed.

Lemma sliceFrom_of_whole (pre : list ascii) (k : nat) :
  GoStrings.sliceFrom (GoStrings.str pre) k = GoStrings.str (skipn k pre).
Proof.
  unfold GoStrings.sliceFrom. rewrite substring_bytes, bytes_str.
  rewrite firstn_all2; [reflexivity|].
  rewrite length_skipn, <- length_bytes, bytes_str. lia.
Qed.

Lemma pendingSince_extend (pre : list ascii) (k : nat) (r : ascii) :
  (k ≤ length pre)%nat →
  pendingSince (pre ++ [r]) (Some k)
    (Some (GoStrings.str (skipn k pre) +:+ String r "")).
Proof.
  intros Hk. simpl. split; [rewrite length_app; lia|].
  rewrite skipn_app. replace (k - length pre)%nat with 0%nat by lia.
  rewrite str_app. reflexivity.
Qed.

Lemma pendingSince_start (pre : list ascii) (r : ascii) :
  pendingSince (pre ++ [r]) (Some (length pre)) (Some (String r "")).
Proof.
  simpl. split; [rewrite length_app; lia|].
  rewrite skipn_app, skipn_all, Nat.sub_diag. reflexivity.
Qed.


(** *** UTF-8 *)


Lemma N_le_lor_l (a b : N) : (a <= N.lor a b)%N.
Proof.
  apply N.ldiff_le. apply N.bits_inj. intros n.
  rewrite N.ldiff_spec, N.lor_spec, N.bits_0.
  destruct (N.testbit a n), (N.testbit b n); reflexivity.
Qed.

Lemma N_le_lor_r (a b : N) : (b <= N.lor a b)%N.
Proof. rewrite N.lor_comm. apply N_le_lor_l. Qed.

Lemma byte_chr (b : ascii) : Utf8.chr (Utf8.byte b) = b.
Proof. apply ascii_N_embedding. Qed.

Lemma DecodeRune_ascii (b : ascii) (rest : list ascii) :
  isAscii b = true → Utf8.DecodeRune (b :: rest) = (Utf8.byte b, 1%nat).
Proof.
  unfold isAscii. intros H. unfold Utf8.DecodeRune, Utf8.first.
  change (Utf8.at_ (b :: rest) 0) with (Utf8.byte b). rewrite H. reflexivity.
Qed.

Lemma EncodeRune_ascii (b : ascii) :
  isAscii b = true → GoStrings.str (Utf8.EncodeRune (Utf8.byte b)) = String b "".
Proof.
  unfold isAscii. intros H. apply N.ltb_lt in H. unfold Utf8.EncodeRune.
  assert ((Utf8.byte b <=? 127)%N = true) as -> by (apply N.leb_le; lia).
  simpl. rewrite byte_chr. reflexivity.
Qed.

(** What a leading byte announces: a sequence has 2, 3 or 4 bytes, and its
    second byte is no ASCII byte. *)
Lemma first_seq (s0 : N) sz lo hi :
  Utf8.first s0 = Utf8.Seq sz lo hi →
  (sz = 2 ∨ sz = 3 ∨ sz = 4)%nat ∧ (128 <= lo)%N ∧ (128 <= s0)%N.
Proof.
  unfold Utf8.first.
  destruct (N.ltb_spec s0 128); [discriminate|].
  repeat match goal with
         | |- context [if ?c then _ else _] => destruct c
         end; intros E; try discriminate E; injection E as <- <- <-;
    (split; [auto|split; [lia|assumption]]).
Qed.

Lemma outside_ascii lo hi (q : N) : (128 <= lo)%N → (q < 128)%N → Utf8.outside lo hi q = true.
Proof.
  intros Hlo Hq. unfold Utf8.outside. apply orb_true_iff. left. apply N.ltb_lt. lia.
Qed.

Lemma land_low (a : N) (k : N) (m : N) :
  m = N.ones k → N.land a m = (a mod 2 ^ k)%N.
Proof. intros ->. apply N.land_ones. Qed.
Lemma first_seq_range (s0 : N) sz lo hi :
  Utf8.first s0 = Utf8.Seq sz lo hi →
  (hi <= 191)%N
  ∧ ((sz = 2%nat ∧ 194 <= s0 < 224)%N
     ∨ (sz = 3%nat ∧ (s0 = 224 ∧ lo = 160 ∨ 225 <= s0 < 240))%N
     ∨ (sz = 4%nat ∧ (s0 = 240 ∧ lo = 144 ∨ 241 <= s0 <= 244))%N).
Proof.
  unfold Utf8.first.
  destruct (N.ltb_spec s0 128); [discriminate|].
  destruct (N.ltb_spec s0 194); [discriminate|].
  destruct (N.ltb_spec s0 224);
    [intros E; injection E as <- _ <-; split; [lia|left; lia]|].
  destruct (N.eqb_spec s0 224);
    [intros E; injection E as <- <- <-; split; [lia|right; left; lia]|].
  destruct (N.ltb_spec s0 237);
    [intros E; injection E as <- _ <-; split; [lia|right; left; lia]|].
  destruct (N.eqb_spec s0 237);
    [intros E; injection E as <- _ <-; split; [lia|right; left; lia]|].
  destruct (N.ltb_spec s0 240);
    [intros E; injection E as <- _ <-; split; [lia|right; left; lia]|].
  destruct (N.eqb_spec s0 240);
    [intros E; injection E as <- <- <-; split; [lia|right; right; lia]|].
  destruct (N.ltb_spec s0 244);
    [intros E; injection E as <- _ <-; split; [lia|right; right; lia]|].
  destruct (N.eqb_spec s0 244);
    [intros E; injection E as <- _ <-; split; [lia|right; right; lia]|].
  discriminate.
Qed.

Lemma first_single (s0 : N) : Utf8.first s0 = Utf8.Single → (s0 < 128)%N.
Proof.
  unfold Utf8.first. destruct (N.ltb_spec s0 128); [auto|].
  repeat match goal with
         | |- context [if ?c then _ else _] => destruct c
         end; discriminate.
Qed.

Lemma outside_false lo hi (b : N) : Utf8.outside lo hi b = false → (lo <= b <= hi)%N.
Proof.
  unfold Utf8.outside. intros H. apply orb_false_iff in H as [H1 H2].
  apply N.ltb_ge in H1, H2. lia.
Qed.

(** A rune that begins with a byte beyond ASCII is a rune beyond ASCII. *)
Lemma DecodeRune_wide (b : ascii) (l : list ascii) :
  (128 <= Utf8.byte b)%N → (128 <= fst (Utf8.DecodeRune (b :: l)))%N.
Proof.
  intros Hb. unfold Utf8.DecodeRune.
  change (Utf8.at_ (b :: l) 0) with (Utf8.byte b).
  set (s0 := Utf8.byte b) in *. set (s1 := Utf8.at_ (b :: l) 1).
  set (s2 := Utf8.at_ (b :: l) 2). set (s3 := Utf8.at_ (b :: l) 3).
  destruct (Utf8.first s0) as [| |sz lo hi] eqn:Ef.
  - apply first_single in Ef. lia.
  - simpl. unfold Utf8.RuneError. lia.
  - assert (Herr : (128 <= fst (Utf8.RuneError, 1%nat))%N)
      by (simpl; unfold Utf8.RuneError; lia).
    destruct (_ <? sz)%nat; [exact Herr|].
    destruct (Utf8.outside lo hi s1) eqn:E1; [exact Herr|]. apply outside_false in E1.
    assert (H31 : N.land s0 31 = (s0 mod 32)%N) by (apply (N.land_ones s0 5)).
    assert (H15 : N.land s0 15 = (s0 mod 16)%N) by (apply (N.land_ones s0 4)).
    assert (H7 : N.land s0 7 = (s0 mod 8)%N) by (apply (N.land_ones s0 3)).
    assert (H63 : N.land s1 63 = (s1 mod 64)%N) by (apply (N.land_ones s1 6)).
    pose proof (N.div_mod' s0 32) as D32. pose proof (N.mod_lt s0 32 ltac:(lia)) as M32.
    pose proof (N.div_mod' s0 16) as D16. pose proof (N.mod_lt s0 16 ltac:(lia)) as M16.
    pose proof (N.div_mod' s0 8) as D8. pose proof (N.mod_lt s0 8 ltac:(lia)) as M8.
    pose proof (N.div_mod' s1 64) as D64. pose proof (N.mod_lt s1 64 ltac:(lia)) as M64.
    destruct (first_seq_range _ _ _ _ Ef) as [Hhi [[-> Hr]|[[-> Hr]|[-> Hr]]]]; simpl.
    + etransitivity; [|apply N_le_lor_l]. rewrite N.shiftl_mul_pow2, H31.
      change (2 ^ 6)%N with 64%N. lia.
    + destruct (Utf8.outside 128 191 s2); [exact Herr|]. simpl.
      etransitivity; [|apply N_le_lor_l].
      rewrite !N.shiftl_mul_pow2, H15, H63.
      change (2 ^ 12)%N with 4096%N. change (2 ^ 6)%N with 64%N.
      destruct Hr as [[Hs ->]|Hr].
      * etransitivity; [|apply N_le_lor_r]. lia.
      * etransitivity; [|apply N_le_lor_l]. lia.
    + destruct (Utf8.outside 128 191 s2); [exact Herr|].
      destruct (Utf8.outside 128 191 s3); [exact Herr|]. simpl.
      etransitivity; [|apply N_le_lor_l]. etransitivity; [|apply N_le_lor_l].
      rewrite !N.shiftl_mul_pow2, H7, H63.
      change (2 ^ 18)%N with 262144%N. change (2 ^ 12)%N with 4096%N.
      destruct Hr as [[Hs ->]|Hr].
      * etransitivity; [|apply N_le_lor_r]. lia.
      * etransitivity; [|apply N_le_lor_l]. lia.
Qed.
(** The width of a rune: at least one byte, and no more than there are. *)
Lemma DecodeRune_size (l : list ascii) :
  l ≠ [] → (1 ≤ snd (Utf8.DecodeRune l) ≤ length l)%nat.
Proof.
  destruct l as [|b l]; [contradiction|]. intros _. unfold Utf8.DecodeRune.
  destruct (Utf8.first _) as [| |sz lo hi] eqn:Ef; [simpl; lia|simpl; lia|].
  destruct (first_seq _ _ _ _ Ef) as [Hsz _].
  destruct (length (firstn sz (b :: l)) <? sz)%nat eqn:El; [simpl; lia|].
  apply Nat.ltb_ge in El. rewrite length_firstn in El.
  destruct Hsz as [-> | [-> | ->]]; cbn [Nat.leb].
  all: repeat match goal with
           | |- context [if ?c then _ else _] => destruct c
           end.
  all: simpl snd; simpl length in *.
  all: lia.
Qed.

(** The rune that begins a byte sequence does not reach into an ASCII byte
    that follows the sequence. *)
Lemma DecodeRune_before_ascii (l : list ascii) (q : ascii) (tail : list ascii) :
  l ≠ [] → isAscii q = true →
  Utf8.DecodeRune (l ++ q :: tail) = Utf8.DecodeRune l.
Proof.
  destruct l as [|b0 l]; [contradiction|]. intros _ Hq.
  unfold isAscii in Hq. apply N.ltb_lt in Hq.
  unfold Utf8.DecodeRune. simpl app.
  change (Utf8.at_ (b0 :: l ++ q :: tail) 0) with (Utf8.byte b0).
  change (Utf8.at_ (b0 :: l) 0) with (Utf8.byte b0).
  destruct (Utf8.first (Utf8.byte b0)) as [| |sz lo hi] eqn:Ef; [reflexivity|reflexivity|].
  destruct (first_seq _ _ _ _ Ef) as (Hsz & Hlo & _).
  pose proof (outside_ascii lo hi (Utf8.byte q) Hlo Hq) as Hq1.
  pose proof (outside_ascii 128 191 (Utf8.byte q) ltac:(lia) Hq) as Hq2.
  destruct Hsz as [-> | [-> | ->]]; destruct l as [|b1 [|b2 [|b3 l]]];
    unfold Utf8.at_; cbn [app firstn length Nat.ltb Nat.leb nth];
    rewrite ?Hq1, ?Hq2;
    repeat match goal with
           | |- context [Utf8.outside ?a ?b ?c] => destruct (Utf8.outside a b c)
           | |- context [if ?c then _ else _] => destruct c eqn:?
           end; try reflexivity.
  all: try (exfalso; match goal with
            | H : (_ <=? _)%nat = _ |- _ => revert H
            end; destruct tail as [|? [|? ?]]; simpl; discriminate).
Qed.

(** *** Runes and bytes *)

Lemma keyRune_byte (b : ascii) : keyRune (Utf8.byte b) = isKeyChar b.
Proof. destruct b as [[] [] [] [] [] [] [] []]; reflexivity. Qed.

Lemma quoteRune_byte (b : ascii) : quoteRune (Utf8.byte b) = isQuote b.
Proof. destruct b as [[] [] [] [] [] [] [] []]; reflexivity. Qed.

Lemma colonRune_byte (b : ascii) : colonRune (Utf8.byte b) = isColon b.
Proof. destruct b as [[] [] [] [] [] [] [] []]; reflexivity. Qed.

Lemma blankRune_byte (b : ascii) : blankRune (Utf8.byte b) = isBlank b.
Proof. destruct b as [[] [] [] [] [] [] [] []]; reflexivity. Qed.

Lemma keyChar_plain (r : ascii) :
  isKeyChar r = true →
  isQuote r = false ∧ isBackslash r = false ∧ isColon r = false ∧ isBlank r = false
  ∧ isAscii r = true.
Proof.
  destruct r as [[] [] [] [] [] [] [] []]; vm_compute; intros H;
    try discriminate H; auto.
Qed.

Lemma blank_plain (r : ascii) :
  isBlank r = true →
  isQuote r = false ∧ isBackslash r = false ∧ isColon r = false ∧ isKeyChar r = false
  ∧ isAscii r = true.
Proof.
  destruct r as [[] [] [] [] [] [] [] []]; vm_compute; intros H;
    try discriminate H; auto.
Qed.

(** *** The loop as a transducer *)

(** The loop of [fixJSON] is the transducer: the slices it takes of the
    input are the bytes read since the key began. *)
Lemma fixJSON_loop_stream (rest : list ascii) :
  ∀ pre skip prev keyStart pending inStr res,
    pendingSince pre keyStart pending →
    (pre = [] → prev = None) →
    fixJSON_loop (GoStrings.str (pre ++ rest)) rest skip (length pre) prev keyStart inStr res
    = quoteBareKeys rest skip prev pending inStr res.
Proof.
  induction rest as [|b rest IH]; intros pre skip prev keyStart pending inStr res Hp Hprev.
  - simpl. rewrite app_nil_r.
    destruct keyStart as [k|], pending as [p|]; simpl in Hp; try contradiction;
      [|reflexivity].
    destruct Hp as [_ ->]. rewrite sliceFrom_of_whole. reflexivity.
  - cbn [fixJSON_loop quoteBareKeys].
    assert (Hs : GoStrings.str (pre ++ b :: rest) = GoStrings.str ((pre ++ [b]) ++ rest))
      by (rewrite <- app_assoc; reflexivity).
    assert (Hlen : S (length pre) = length (pre ++ [b]))
      by (rewrite length_app; simpl; lia).
    assert (Hnext : pre ++ [b] = [] → Some b = None)
      by (intros E; destruct pre; discriminate E).
    destruct skip as [|skip].
    2: { rewrite Hs, Hlen. apply IH; [|exact Hnext].
         destruct keyStart as [k|], pending as [p|]; simpl in Hp; try contradiction;
           [|exact I].
         destruct Hp as [Hk ->]. apply pendingSince_extend, Hk. }
    destruct (Utf8.DecodeRune (b :: rest)) as [r size].
    assert (Hquote :
      ((length pre =? 0)%nat
       || negb match prev with Some p => isBackslash p | None => false end)
      = negb match prev with Some p => isBackslash p | None => false end).
    { destruct pre as [|c pre]; [rewrite (Hprev eq_refl)|]; reflexivity. }
    rewrite Hquote.
    set (inStr' := if quoteRune r && negb _ then negb inStr else inStr).
    destruct keyStart as [k|], pending as [p|]; simpl in Hp; try contradiction.
    + destruct Hp as [Hk ->]. rewrite (slice_of_prefix pre (b :: rest) k Hk).
      destruct (negb inStr').
      * destruct (keyRune r).
        { rewrite Hs, Hlen. apply IH; [apply pendingSince_extend, Hk|exact Hnext]. }
        destruct (colonRune r); [rewrite Hs, Hlen; apply IH; [exact I|exact Hnext]|].
        destruct (blankRune r); rewrite Hs, Hlen; apply IH;
          [apply pendingSince_extend, Hk|exact Hnext|exact I|exact Hnext].
      * rewrite Hs, Hlen. apply IH; [exact I|exact Hnext].
    + destruct (negb inStr').
      * destruct (keyRune r); rewrite Hs, Hlen; apply IH;
          [apply pendingSince_start|exact Hnext|exact I|exact Hnext].
      * rewrite Hs, Hlen. apply IH; [exact I|exact Hnext].
Qed.

Lemma fixJSON_quoteBareKeys (s : string) :
  fixJSON s = quoteBareKeys (GoStrings.bytes s) 0 None None false "".
Proof.
  unfold fixJSON.
  pose proof (fixJSON_loop_stream (GoStrings.bytes s) [] 0 None None None false "" I
                (fun _ => eq_refl)) as H.
  simpl in H. rewrite str_bytes in H. exact H.
Qed.

(** The output so far is a prefix of the output. *)
Lemma quoteBareKeys_prefix (rest : list ascii) :
  ∀ skip prev pending inStr a res,
    quoteBareKeys rest skip prev pending inStr (a +:+ res)
    = a +:+ quoteBareKeys rest skip prev pending inStr res.
Proof.
  induction rest as [|b rest IH]; intros skip prev pending inStr a res.
  - simpl. destruct pending; [apply append_assoc|reflexivity].
  - cbn [quoteBareKeys]. destruct skip as [|skip]; [|apply IH].
    destruct (Utf8.DecodeRune (b :: rest)) as [r size].
    set (inStr' := if quoteRune r && negb _ then negb inStr else inStr).
    destruct (negb inStr').
    + destruct (keyRune r); [apply IH|].
      destruct pending as [p|].
      * destruct (colonRune r); [|destruct (blankRune r)];
          rewrite <- IH; f_equal; rewrite ?append_assoc; reflexivity.
      * rewrite <- IH. f_equal. apply append_assoc.
    + destruct pending as [p|]; rewrite <- IH; f_equal; rewrite ?append_assoc; reflexivity.
Qed.

(** The byte before matters only when it is a backslash. *)
Lemma quoteBareKeys_prev (rest : list ascii) (skip : nat) (c : ascii) pending inStr res :
  isBackslash c = false →
  quoteBareKeys rest skip (Some c) pending inStr res
  = quoteBareKeys rest skip None pending inStr res.
Proof.
  intros Hc. destruct rest as [|b rest]; [reflexivity|].
  cbn [quoteBareKeys]. destruct skip; [|reflexivity]. rewrite Hc. reflexivity.
Qed.

(** On an ASCII byte, which is a rune of its own, the transducer takes the
    step [quoteStep]. *)
Lemma quoteBareKeys_ascii (b : ascii) rest prev pending inStr res :
  isAscii b = true →
  quoteBareKeys (b :: rest) 0 prev pending inStr res
  = let '(pending', inStr', res') := quoteStep b prev pending inStr res in
    quoteBareKeys rest 0 (Some b) pending' inStr' res'.
Proof.
  intros Hb. cbn [quoteBareKeys]. rewrite (DecodeRune_ascii b rest Hb).
  cbv beta iota zeta.
  rewrite (EncodeRune_ascii b Hb), keyRune_byte, quoteRune_byte, colonRune_byte,
    blankRune_byte.
  change (1 - 1)%nat with 0%nat. unfold quoteStep.
  destruct (isQuote b && _); destruct inStr; cbn [negb];
    destruct (isKeyChar b); destruct pending as [p|];
    destruct (isColon b); destruct (isBlank b); reflexivity.
Qed.

(** A run of key bytes outside a string goes to the buffer. *)
Lemma quoteBareKeys_key (key : list ascii) :
  ∀ rest prev pending res,
    forallb isKeyChar key = true → key ≠ [] →
    ∃ last,
      isBackslash last = false
      ∧ quoteBareKeys (key ++ rest) 0 prev pending false res
        = quoteBareKeys rest 0 (Some last)
            (Some (match pending with None => "" | Some p => p end +:+ GoStrings.str key))
            false res.
Proof.
  induction key as [|r key IH]; intros rest prev pending res Hall Hne; [contradiction|].
  simpl in Hall. apply andb_prop in Hall as [Hr Hall].
  destruct (keyChar_plain r Hr) as (Hq & Hb & _ & _ & Ha).
  cbn [app]. rewrite (quoteBareKeys_ascii r _ _ _ _ _ Ha). unfold quoteStep.
  rewrite Hq, Hr. simpl.
  destruct key as [|r' key].
  - exists r. split; [exact Hb|]. simpl. destruct pending; reflexivity.
  - destruct (IH rest (Some r)
                (Some match pending with None => String r "" | Some p => p +:+ String r "" end)
                res Hall) as (last & Hlast & ->); [discriminate|].
    exists last. split; [exact Hlast|]. f_equal. f_equal.
    change (GoStrings.str (r :: r' :: key)) with (String r "" +:+ GoStrings.str (r' :: key)).
    destruct pending; [apply append_assoc|reflexivity].
Qed.

(** Blanks after a key are copied to the output and kept in the buffer. *)
Lemma quoteBareKeys_blanks (blanks : list ascii) :
  ∀ rest prev p res,
    forallb isBlank blanks = true → isBackslash prev = false →
    ∃ last,
      isBackslash last = false
      ∧ quoteBareKeys (blanks ++ rest) 0 (Some prev) (Some p) false res
        = quoteBareKeys rest 0 (Some last) (Some (p +:+ GoStrings.str blanks)) false
            (res +:+ GoStrings.str blanks).
Proof.
  induction blanks as [|r blanks IH]; intros rest prev p res Hall Hprev.
  - exists prev. split; [exact Hprev|]. simpl. rewrite !append_nil_r. reflexivity.
  - simpl in Hall. apply andb_prop in Hall as [Hr Hall].
    destruct (blank_plain r Hr) as (Hq & Hb & Hc & Hk & Ha).
    cbn [app]. rewrite (quoteBareKeys_ascii r _ _ _ _ _ Ha). unfold quoteStep.
    rewrite Hq, Hk, Hc, Hr. simpl.
    destruct (IH rest r (p +:+ String r "") (res +:+ String r "") Hall Hb)
      as (last & Hlast & ->).
    exists last. split; [exact Hlast|].
    change (GoStrings.str (r :: blanks)) with (String r "" +:+ GoStrings.str blanks).
    rewrite !append_assoc. reflexivity.
Qed.

(** X22.  The repair of a bare key.  For an input that begins with an
    opening brace, a key of letters, digits and underscores, blanks (space,
    tab, line feed; none is the usual case) and a colon, [fixJSON] puts the
    key between double quotes and goes on with the rest as with an input of
    its own.  Blanks between key and colon are copied in front of the quoted
    key and also end up inside the quotes. *)
Theorem fixJSON_quotes_bare_key (key blanks tail : string) :
  key ≠ "" → allOf isKeyChar key = true → allOf isBlank blanks = true →
  fixJSON ("{" +:+ key +:+ blanks +:+ ":" +:+ tail)
  = "{" +:+ blanks +:+ quote +:+ key +:+ blanks +:+ quote +:+ ":" +:+ fixJSON tail.
Proof.
  intros Hne Hkey Hblanks. unfold allOf in *. rewrite !fixJSON_quoteBareKeys.
  rewrite !bytes_app.
  change (GoStrings.bytes "{") with ["{"%char]. change (GoStrings.bytes ":") with [":"%char].
  cbn [app]. rewrite quoteBareKeys_ascii by reflexivity. unfold quoteStep. simpl.
  assert (Hk : GoStrings.bytes key ≠ []).
  { intros E. apply Hne. rewrite <- (str_bytes key), E. reflexivity. }
  destruct (quoteBareKeys_key (GoStrings.bytes key)
              (GoStrings.bytes blanks ++ ":"%char :: GoStrings.bytes tail)
              (Some "{"%char) None ("" +:+ "{") Hkey Hk) as (last & Hlast & ->).
  destruct (quoteBareKeys_blanks (GoStrings.bytes blanks)
              (":"%char :: GoStrings.bytes tail) last
              ("" +:+ GoStrings.str (GoStrings.bytes key)) ("" +:+ "{") Hblanks Hlast)
    as (last' & Hlast' & ->).
  rewrite !str_bytes. rewrite quoteBareKeys_ascii by reflexivity. unfold quoteStep.
  rewrite Hlast'. simpl.
  rewrite quoteBareKeys_prev by reflexivity.
  match goal with
  | |- quoteBareKeys _ 0 None None false ?res = _ =>
      rewrite <- (append_nil_r res), quoteBareKeys_prefix
  end.
  change ("" +:+ "{") with "{". change ("" +:+ key) with key.
  rewrite !append_assoc. reflexivity.
Qed.

Lemma fixJSON_quotes_bare_key_witness :
  fixJSON ("{" +:+ "msg" +:+ " " +:+ ":" +:+ GoRuntime.js "'hi'}")
  = "{" +:+ " " +:+ quote +:+ "msg" +:+ " " +:+ quote +:+ ":" +:+ fixJSON (GoRuntime.js "'hi'}").
Proof.
  apply fixJSON_quotes_bare_key; [discriminate|reflexivity|reflexivity].
Defined.

(** Inside a string literal the loop decodes rune after rune and writes each
    one's encoding; no rune reaches into the double quote that ends the
    literal, and no rune that is wider than a byte is a double quote. *)
Lemma quoteBareKeys_inside (v : list ascii) :
  ∀ skip q rest prev res,
    forallb isLiteralByte v = true → isBackslash prev = false →
    (skip ≤ length v)%nat → isAscii q = true →
    ∃ last,
      isBackslash last = false
      ∧ quoteBareKeys (v ++ q :: rest) skip (Some prev) None true res
        = quoteBareKeys (q :: rest) 0 (Some last) None true (res +:+ copyRunes v skip).
Proof.
  induction v as [|b v IH]; intros skip q rest prev res Hall Hprev Hskip Hq.
  - simpl in Hskip. assert (skip = 0%nat) as -> by lia.
    exists prev. split; [exact Hprev|]. simpl. rewrite append_nil_r. reflexivity.
  - simpl in Hall. apply andb_prop in Hall as [Hb Hall].
    unfold isLiteralByte in Hb. apply andb_prop in Hb as [Hbq Hbb].
    apply negb_true_iff in Hbq, Hbb.
    cbn [app quoteBareKeys copyRunes]. destruct skip as [|skip].
    2: { simpl in Hskip. apply (IH skip q rest b res Hall Hbb); [lia|exact Hq]. }
    change (b :: v ++ q :: rest) with ((b :: v) ++ q :: rest).
    rewrite (DecodeRune_before_ascii (b :: v) q rest) by (discriminate || exact Hq).
    pose proof (DecodeRune_size (b :: v) ltac:(discriminate)) as Hsize.
    assert (Hr : quoteRune (fst (Utf8.DecodeRune (b :: v))) = false).
    { destruct (isAscii b) eqn:Ea.
      - rewrite (DecodeRune_ascii b v Ea). simpl. rewrite quoteRune_byte. exact Hbq.
      - unfold isAscii in Ea. apply N.ltb_ge in Ea.
        pose proof (DecodeRune_wide b v Ea) as Hw.
        unfold quoteRune. apply N.eqb_neq. lia. }
    destruct (Utf8.DecodeRune (b :: v)) as [r size]. simpl in Hsize, Hr.
    rewrite Hr. cbn [andb negb].
    destruct (IH (size - 1)%nat q rest b
                (res +:+ GoStrings.str (Utf8.EncodeRune r)) Hall Hbb ltac:(lia) Hq)
      as (last & Hlast & ->).
    exists last. split; [exact Hlast|]. rewrite append_assoc. reflexivity.
Qed.

(** A text of ASCII bytes is copied byte by byte. *)
Lemma copyRunes_ascii (l : list ascii) :
  forallb isAscii l = true → copyRunes l 0 = GoStrings.str l.
Proof.
  induction l as [|b l IH]; [reflexivity|]. intros H. simpl in H.
  apply andb_prop in H as [Hb H]. cbn [copyRunes].
  rewrite (DecodeRune_ascii b l Hb), (EncodeRune_ascii b Hb).
  change (1 - 1)%nat with 0%nat. rewrite (IH H). reflexivity.
Qed.

(** X23.  [fixJSON] and a string literal.  For an input that begins with a
    double quote, bytes that are neither double quotes nor backslashes, and
    a double quote, the output begins with the literal as [for _, r := range]
    with [WriteRune] copies it, rune by rune: every rune as its UTF-8
    encoding, and every byte that is no valid UTF-8 as the three bytes of the
    replacement character U+FFFD.  The rest is handled as an input of its
    own, whatever the literal holds (colons, braces, words).  A literal of
    ASCII bytes is copied as it is. *)
Theorem fixJSON_copies_string_literal (v tail : string) :
  allOf isLiteralByte v = true →
  fixJSON (quote +:+ v +:+ quote +:+ tail)
  = quote +:+ copyRunes (GoStrings.bytes v) 0 +:+ quote +:+ fixJSON tail
  ∧ (allOf isAscii v = true → copyRunes (GoStrings.bytes v) 0 = v).
Proof.
  intros Hv. unfold allOf in *. split.
  2: { intros Ha. rewrite (copyRunes_ascii _ Ha). apply str_bytes. }
  rewrite !fixJSON_quoteBareKeys, !bytes_app.
  change (GoStrings.bytes quote) with [ascii_of_nat 34].
  cbn [app]. rewrite quoteBareKeys_ascii by reflexivity. unfold quoteStep. simpl.
  destruct (quoteBareKeys_inside (GoStrings.bytes v) 0 (ascii_of_nat 34)
              (GoStrings.bytes tail) (ascii_of_nat 34)
              ("" +:+ String (ascii_of_nat 34) "") Hv eq_refl ltac:(lia) eq_refl)
    as (last & Hlast & ->).
  rewrite quoteBareKeys_ascii by reflexivity. unfold quoteStep.
  rewrite Hlast. simpl.
  rewrite quoteBareKeys_prev by reflexivity.
  match goal with
  | |- quoteBareKeys _ 0 None None false ?res = _ =>
      rewrite <- (append_nil_r res), quoteBareKeys_prefix
  end.
  unfold quote. rewrite !append_assoc. reflexivity.
Qed.

(** A literal with the byte 0xFF, which is no UTF-8: the output holds the
    bytes EF BF BD in its place. *)
Lemma fixJSON_copies_string_literal_witness :
  fixJSON (quote +:+ String (ascii_of_nat 255) "a:b" +:+ quote +:+ "}")
  = quote +:+ String (ascii_of_nat 239) (String (ascii_of_nat 191)
                (String (ascii_of_nat 189) "a:b")) +:+ quote +:+ "}".
Proof.
  pose proof (fixJSON_copies_string_literal (String (ascii_of_nat 255) "a:b") "}"
                eq_refl) as [H _].
  rewrite H. vm_compute. reflexivity.
Defined.

(** *** The name of a recovered call *)

Lemma isColon_eq (c : ascii) : isColon c = true → c = ":"%char.
Proof.
  destruct c as [[] [] [] [] [] [] [] []]; vm_compute; intros H;
    try discriminate H; reflexivity.
Qed.

Lemma hasColon_app (a b : string) : hasColon (a +:+ b) = hasColon a || hasColon b.
Proof. unfold hasColon. rewrite bytes_app. apply existsb_app. Qed.

Lemma sliceFrom_tail (c : ascii) (t : string) : GoStrings.sliceFrom (String c t) 1 = t.
Proof.
  rewrite <- (str_bytes (String c t)). rewrite sliceFrom_of_whole. simpl.
  apply str_bytes.
Qed.

Lemma replaceLoop_no_colon (fuel : nat) :
  ∀ s, (String.length s < fuel)%nat →
       hasColon (GoStrings.replaceLoop fuel s ":" "_") = false.
Proof.
  induction fuel as [|fuel IH]; intros s Hlen; [lia|].
  cbn [GoStrings.replaceLoop]. destruct s as [|c t]; [reflexivity|].
  simpl in Hlen.
  destruct (String.prefix ":" (String c t)) eqn:Ep.
  - change (String.length ":") with 1%nat. rewrite sliceFrom_tail, hasColon_app.
    rewrite IH by lia. reflexivity.
  - unfold hasColon. simpl. fold (hasColon (GoStrings.replaceLoop fuel t ":" "_")).
    rewrite IH by lia. rewrite orb_false_r.
    destruct (isColon c) eqn:Ec; [|reflexivity].
    apply isColon_eq in Ec. subst c. simpl in Ep. destruct t; discriminate Ep.
Qed.

(** [TrimSpace] removes the white space of Unicode: a no-break space
    U+00A0 (bytes C2 A0) in front and an ideographic space U+3000 (bytes E3
    80 80) behind are removed with the ASCII blanks; a byte A0 that is no
    UTF-8 is not white space and stays. *)
Example TrimSpace_unicode :
  GoStrings.TrimSpace
    (GoStrings.str (map ascii_of_nat [32; 194; 160; 9]) +:+ "call:f{}"
     +:+ GoStrings.str (map ascii_of_nat [227; 128; 128; 10]))
  = "call:f{}"
  ∧ GoStrings.TrimSpace (GoStrings.str (map ascii_of_nat [160]) +:+ "call:f{} ")
    = GoStrings.str (map ascii_of_nat [160]) +:+ "call:f{}".
Proof. split; vm_compute; reflexivity. Qed.

(** X24.  The name that [parseMalformedFunctionCall] returns holds no
    colon: the colons of a qualified name are underscores in it.  It returns
    a name only for a message that, with the prefix and the white space
    around it removed, begins with [call:]. *)
Theorem recovered_name_has_no_colon {json_lib : EncodingJson} (msg : string) :
  let name := fst (parseMalformedFunctionCall msg) in
  hasColon name = false
  ∧ (name ≠ "" →
     GoStrings.HasPrefix
       (GoStrings.TrimSpace (GoStrings.TrimPrefix msg "Malformed function call: ")) "call:"
     = true).
Proof.
  cbv zeta. unfold parseMalformedFunctionCall.
  set (body := GoStrings.TrimSpace _).
  destruct (GoStrings.HasPrefix body "call:"); cbn [negb fst];
    [|split; [reflexivity|contradiction]].
  destruct (GoStrings.Index body "{") as [startBrace|]; cbn [fst];
    [|split; [reflexivity|contradiction]].
  destruct (GoStrings.LastIndex body "}") as [endBrace|]; cbn [fst];
    [|split; [reflexivity|contradiction]].
  destruct (endBrace <? startBrace)%nat; cbn [fst]; [split; [reflexivity|contradiction]|].
  set (name := GoStrings.ReplaceAll _ ":" "_").
  assert (Hname : hasColon name = false).
  { unfold name, GoStrings.ReplaceAll. apply replaceLoop_no_colon. apply Nat.lt_succ_diag_r. }
  destruct (Unmarshal_map _) as [args|]; cbn [fst]; [auto|].
  destruct (Unmarshal_map _) as [args|]; cbn [fst]; [auto|].
  split; [reflexivity|contradiction].
Qed.

Section ConcreteRecovery.
#[local] Existing Instance GoRuntime.jsonCodec.

(** A message with a no-break space in front of [call:]: the white space is
    removed and the call is recovered, with the colon of its name as an
    underscore. *)
Example recovered_after_unicode_space :
  parseMalformedFunctionCall
    ("Malformed function call: " +:+ GoStrings.str (map ascii_of_nat [194; 160])
     +:+ "call:f:g{}")
  = ("f_g", Some []).
Proof. vm_compute. reflexivity. Qed.

End ConcreteRecovery.

(** ** The generation config *)

Section GenerationConfigProofs.
Context {json_lib : EncodingJson} {hash_lib : Hashing}.



End GenerationConfigProofs.

Section ConcreteGenerationConfig.
#[local] Existing Instance GoRuntime.jsonCodec.
#[local] Existing Instance GoRuntime.hashing.


End ConcreteGenerationConfig.

(** ** The replies *)

Section ReplyProofs.
Context {json_lib : EncodingJson} {hash_lib : Hashing}.



End ReplyProofs.

Section OpenAIReplyProofs.
Context {json_lib : EncodingJson}.

(** A run with a call handled the answer to that call. *)
Lemma openai_handleProxy_answered cfg up fuel st now r o call :
  OpenAI.handleProxy cfg up fuel st now r = Some o →
  OpenAI.calls o = [call] →
  ∃ st1 clock genReq e raw,
    Unmarshal_GenericRequest (OpenAI.Body r) = Some genReq
    ∧ o = OpenAI.afterChat st1 clock [call] genReq e raw (OpenAI.respond up call).
Proof.
  intros Hrun Hcall.
  apply openai_handleProxy_inv in Hrun
    as [(Hc & _)|(reqKey & genReq & st1 & clock & e & raw & _ & Hb & _ & _ & ->)].
  { rewrite Hc in Hcall. discriminate Hcall. }
  destruct (openai_dispatch_cases cfg up st1 clock reqKey genReq
              (OpenAI.buildOpenAIRequest genReq) e raw) as [[_ Ho]|(_ & Hc & Ho)].
  - rewrite Ho in Hcall. discriminate Hcall.
  - rewrite Hc in Hcall. injection Hcall as <-. eauto 10.
Qed.

(** X27.  The reply of the OpenAI relay to an answer 200 whose body parses
    and has a choice.  When the arguments of every tool call of the first
    choice are valid JSON, the reply is the encoded message: a thinking
    block for a [reasoning_content] that is not empty, then a text block for
    a [content] that is not empty, then one tool-use block for every tool
    call, in order, with id, name and, as input, the arguments of the
    upstream as a raw JSON value; the stop reason is [tool_use] exactly when there is a tool call
    and [end_turn] otherwise; the usage is the prompt and completion token
    counts of the upstream.  When the arguments of some tool call are not
    valid JSON, [Encode] fails and the client gets a status 200 without a
    body. *)
Theorem openai_reply_shape cfg up fuel st now r o call body oaiResp choice rest :
  OpenAI.handleProxy cfg up fuel st now r = Some o →
  OpenAI.calls o = [call] →
  OpenAI.respond up call = HttpResponse 200 body →
  Unmarshal_OpenAIResponse body = Some oaiResp →
  Choices oaiResp = choice :: rest →
  let toolCalls := Ch_ToolCalls choice in
  let valid := forallb (fun tc => Valid (OTC_FunctionArguments tc)) toolCalls in
  (valid = false → OpenAI.reply o = NoBody)
  ∧ (valid = true →
     ∃ res, OpenAI.reply o = Encoded res
       ∧ Res_content res = thinkingOf choice ++ textOf choice ++ map rawToolUse toolCalls
       ∧ Res_stop_reason res
         = (if (0 <? length toolCalls)%nat then "tool_use" else "end_turn")
       ∧ (Res_stop_reason res = "tool_use" ↔ toolCalls ≠ [])
       ∧ Res_input_tokens res = PromptTokens oaiResp
       ∧ Res_output_tokens res = CompletionTokens oaiResp).
Proof.
  intros Hrun Hcall Hanswer Hparse Hchoice. cbv zeta.
  destruct (openai_handleProxy_answered _ _ _ _ _ _ _ _ Hrun Hcall)
    as (st1 & clock & genReq & e & raw & _ & ->).
  rewrite Hanswer. unfold OpenAI.afterChat. simpl. rewrite Hparse, Hchoice. simpl.
  unfold OpenAI.encodes. split; [intros ->; reflexivity|]. intros ->.
  eexists. split; [reflexivity|]. simpl. split; [|split; [reflexivity|split; [|auto]]].
  - unfold OpenAI.contentArr, thinkingOf, textOf, OpenAI.nonEmptyText.
    destruct (Ch_ReasoningContent choice), (Ch_Content choice); reflexivity.
  - destruct (Ch_ToolCalls choice) as [|tc toolCalls]; simpl; split.
    + intros H. discriminate H.
    + intros H. exfalso. apply H. reflexivity.
    + intros _. discriminate.
    + intros _. reflexivity.
Qed.

End OpenAIReplyProofs.

Section ConcreteReplies.
#[local] Existing Instance GoRuntime.jsonCodec.
#[local] Existing Instance GoRuntime.hashing.


Lemma openai_reply_shape_witness :
  (∃ o res, OpenAIRuns.run = Some o ∧ OpenAI.reply o = Encoded res
            ∧ Res_content res = [TextBlock "hi"])
  ∧ ∃ o, BrokenArguments.run = Some o ∧ OpenAI.reply o = NoBody.
Proof.
  split.
  - destruct OpenAIRuns.run as [o|] eqn:E; [|vm_compute in E; discriminate E].
    destruct (Unmarshal_OpenAIResponse (GoRuntime.js OpenAIRuns.hiAnswer))
      as [oaiResp|] eqn:Er; [|vm_compute in Er; discriminate Er].
    destruct (Choices oaiResp) as [|choice rest] eqn:Ec;
      [vm_compute in Er; injection Er as <-; discriminate Ec|].
    destruct (OpenAI.calls o) as [|call [|call' calls]] eqn:Ecalls;
      [vm_compute in E; injection E as <-; discriminate Ecalls
      | |vm_compute in E; injection E as <-; discriminate Ecalls].
    destruct (openai_reply_shape _ _ _ _ _ _ _ _ _ _ _ _ E Ecalls eq_refl Er Ec)
      as [_ Hshape].
    destruct Hshape as (res & Hr & Hcontent & _).
    + vm_compute in Er. injection Er as <-. injection Ec as <- _. reflexivity.
    + exists o, res. split; [reflexivity|]. split; [exact Hr|]. rewrite Hcontent.
      vm_compute in Er. injection Er as <-. injection Ec as <- _. reflexivity.
  - destruct BrokenArguments.run as [o|] eqn:E; [|vm_compute in E; discriminate E].
    destruct (Unmarshal_OpenAIResponse (GoRuntime.js BrokenArguments.answer))
      as [oaiResp|] eqn:Er; [|vm_compute in Er; discriminate Er].
    destruct (Choices oaiResp) as [|choice rest] eqn:Ec;
      [vm_compute in Er; injection Er as <-; discriminate Ec|].
    destruct (OpenAI.calls o) as [|call [|call' calls]] eqn:Ecalls;
      [vm_compute in E; injection E as <-; discriminate Ecalls
      | |vm_compute in E; injection E as <-; discriminate Ecalls].
    destruct (openai_reply_shape _ _ _ _ _ _ _ _ _ _ _ _ E Ecalls eq_refl Er Ec)
      as [Hbroken _].
    exists o. split; [reflexivity|]. apply Hbroken.
    vm_compute in Er. injection Er as <-. injection Ec as <- _. vm_compute. reflexivity.
Defined.

End ConcreteReplies.
